(** * pdftex-figures: the watch daemon, the root store and the conversion trigger

    A shallow embedding of [pdftexfigures/main.py].  Pure helpers are Rocq
    functions on [string]; code with effects is written in two small monads:
    [IO] threads the file system seen by [get_roots] and [add_root], and
    [Eff] records the calls a function makes to the outside world (logging,
    subprocesses, clipboard) together with its outcome.  The two daemons are
    step functions over time-stamped notifications; [Race] takes the main
    loop and the timer threads of the polling daemon one step at a time.

    Conventions.
    - Python [str] is [string], for text within ASCII: there the case and
      blank operations below are those of Python.  Statements that depend on
      them say so with [Str.isascii].
    - [pathlib.Path] is modelled for POSIX, as CPython 3.10 to 3.13 does.
    - Time is a rational number of seconds. *)

From Stdlib Require Import Ascii String QArith Lqa.
From stdpp Require Import gmap strings list fin_maps pretty.

(** ** Python string operations *)

Module Str.

Definition LF : ascii := "010"%char.
Definition CR : ascii := "013"%char.

(** [s.split(c)] for a one-character separator. *)
Fixpoint split (c : ascii) (s : string) : list string :=
  match s with
  | EmptyString => [EmptyString]
  | String a s' =>
      if Ascii.eqb a c then EmptyString :: split c s'
      else match split c s' with
           | x :: xs => String a x :: xs
           | [] => [String a EmptyString]
           end
  end.

(** [sep.join(l)]. *)
Definition join (sep : string) (l : list string) : string := String.concat sep l.

(** [s.replace(a, b)] for one-character [a] and [b]. *)
Fixpoint replace (a b : ascii) (s : string) : string :=
  match s with
  | EmptyString => EmptyString
  | String c s' => String (if Ascii.eqb c a then b else c) (replace a b s')
  end.

Definition is_lower (c : ascii) : bool :=
  let n := nat_of_ascii c in (97 <=? n)%nat && (n <=? 122)%nat.
Definition is_upper (c : ascii) : bool :=
  let n := nat_of_ascii c in (65 <=? n)%nat && (n <=? 90)%nat.
Definition is_digit (c : ascii) : bool :=
  let n := nat_of_ascii c in (48 <=? n)%nat && (n <=? 57)%nat.
Definition to_upper (c : ascii) : ascii :=
  if is_lower c then ascii_of_nat (nat_of_ascii c - 32) else c.
Definition to_lower (c : ascii) : ascii :=
  if is_upper c then ascii_of_nat (nat_of_ascii c + 32) else c.

(** [s.isascii()] *)
Fixpoint isascii (s : string) : bool :=
  match s with
  | EmptyString => true
  | String c s' => (nat_of_ascii c <? 128)%nat && isascii s'
  end.

(** [s.title()] on ASCII text: a cased character is upper-cased after an
    uncased one and lower-cased after a cased one. *)
Fixpoint title_from (previous_is_cased : bool) (s : string) : string :=
  match s with
  | EmptyString => EmptyString
  | String c s' =>
      let c' := if previous_is_cased then to_lower c else to_upper c in
      String c' (title_from (is_lower c || is_upper c) s')
  end.
Definition title (s : string) : string := title_from false s.

(** The characters [str.strip()] removes from ASCII text. *)
Definition is_space (c : ascii) : bool :=
  let n := nat_of_ascii c in
  ((9 <=? n)%nat && (n <=? 13)%nat) || ((28 <=? n)%nat && (n <=? 32)%nat).

Fixpoint lstrip (s : string) : string :=
  match s with
  | EmptyString => EmptyString
  | String c s' => if is_space c then lstrip s' else s
  end.

Fixpoint rstrip (s : string) : string :=
  match s with
  | EmptyString => EmptyString
  | String c s' =>
      match rstrip s' with
      | EmptyString => if is_space c then EmptyString else String c EmptyString
      | r => String c r
      end
  end.

Definition strip (s : string) : string := rstrip (lstrip s).

(** [c in s] for a character. *)
Fixpoint mem (c : ascii) (s : string) : bool :=
  match s with
  | EmptyString => false
  | String a s' => Ascii.eqb a c || mem c s'
  end.

(** [s.rfind(c)], with [None] for Python's [-1]. *)
Fixpoint rfind (c : ascii) (s : string) : option nat :=
  match s with
  | EmptyString => None
  | String a s' =>
      match rfind c s' with
      | Some i => Some (S i)
      | None => if Ascii.eqb a c then Some 0%nat else None
      end
  end.

(** [s[i:]] and [s[:i]]. *)
Definition drop (i : nat) (s : string) : string :=
  String.substring i (String.length s - i) s.
Definition take (i : nat) (s : string) : string := String.substring 0 i s.

(** Text-mode reading with [newline=None]: CR LF and a lone CR become LF. *)
Fixpoint universal_newlines (s : string) : string :=
  match s with
  | EmptyString => EmptyString
  | String a s' =>
      if Ascii.eqb a CR then
        match s' with
        | String b s'' =>
            if Ascii.eqb b LF then String LF (universal_newlines s'')
            else String LF (universal_newlines s')
        | EmptyString => String LF EmptyString
        end
      else String a (universal_newlines s')
  end.

(** The first match of the regular expression [[0-9.]+], if any:
    [re.findall(r"[0-9.]+", s)[0]]. *)
Definition version_char (c : ascii) : bool := is_digit c || Ascii.eqb c "."%char.

Fixpoint take_while (f : ascii -> bool) (s : string) : string :=
  match s with
  | EmptyString => EmptyString
  | String c s' => if f c then String c (take_while f s') else EmptyString
  end.

Fixpoint first_version_run (s : string) : option string :=
  match s with
  | EmptyString => None
  | String c s' =>
      if version_char c then Some (take_while version_char s)
      else first_version_run s'
  end.

(** [int(s)] for a string made of the characters of [[0-9.]]: a non-empty
    run of digits is read in base ten, anything else raises [ValueError]
    ([None]).  The interpreter's limit on the number of digits is left out. *)
Fixpoint int_digits (acc : Z) (s : string) : option Z :=
  match s with
  | EmptyString => Some acc
  | String c s' =>
      if is_digit c then int_digits (10 * acc + Z.of_nat (nat_of_ascii c - 48)) s'
      else None
  end.
Definition int (s : string) : option Z :=
  match s with
  | EmptyString => None
  | _ => int_digits 0 s
  end.

End Str.

(** ** [pathlib.PurePosixPath] *)

Module PurePath.

(** A parsed path: the root (empty, one slash or two) and the components
    after it, without empty components and without [.]. *)
Record t : Type := mk { root : string; parts : list string }.

Fixpoint lstrip_sep (s : string) : string :=
  match s with
  | String "/" s' => lstrip_sep s'
  | _ => s
  end.

(** [splitroot]: exactly two leading slashes are kept, any other number
    of them is one slash. *)
Definition splitroot (part : string) : string * string :=
  match part with
  | String "/" _ =>
      let rel := lstrip_sep part in
      if (String.length part - String.length rel =? 2)%nat then ("//", rel)
      else ("/", rel)
  | _ => ("", part)
  end.

Definition of_string (s : string) : t :=
  let (r, rel) := splitroot s in
  mk r (filter (fun x => x <> "" /\ x <> ".") (Str.split "/" rel)).

(** [str(p)] *)
Definition to_string (p : t) : string :=
  match root p, parts p with
  | "", [] => "."
  | r, ps => r +:+ Str.join "/" ps
  end.

(** [p.name] *)
Definition name (p : t) : string := default "" (last (parts p)).

(** The position of the dot that starts the suffix: the last dot of the
    name, unless it is the first or the last character. *)
Definition suffix_dot (nm : string) : option nat :=
  match Str.rfind "." nm with
  | Some i => if (0 <? i)%nat && (i <? String.length nm - 1)%nat then Some i else None
  | None => None
  end.

(** [p.suffix] and [p.stem] *)
Definition suffix (p : t) : string :=
  match suffix_dot (name p) with
  | Some i => Str.drop i (name p)
  | None => ""
  end.

Definition stem (p : t) : string :=
  match suffix_dot (name p) with
  | Some i => Str.take i (name p)
  | None => name p
  end.

(** [p.parent] *)
Definition parent (p : t) : t :=
  match parts p with
  | [] => p
  | ps => mk (root p) (removelast ps)
  end.

(** [p / q] *)
Definition join (p q : t) : t :=
  if decide (root q = "") then mk (root p) (parts p ++ parts q) else q.

(** [p / s] for a string [s] *)
Definition joinpath (p : t) (s : string) : t := join p (of_string s).

(** [p.absolute()] in the working directory [cwd] *)
Definition absolute (cwd : string) (p : t) : t :=
  if decide (root p = "") then join (of_string cwd) p else p.

End PurePath.

(** A value of type [str | Path], and [Path(filepath)]. *)
Inductive str_or_path : Type :=
| Str_ (s : string)
| Path_ (p : PurePath.t).

Definition Path (filepath : str_or_path) : PurePath.t :=
  match filepath with
  | Str_ s => PurePath.of_string s
  | Path_ p => p
  end.

(** ** Templates *)

(** [indent] *)
Definition indent (text : string) (indentation : nat) : string :=
  Str.join (String Str.LF "")
    (map (fun line => String.concat "" (replicate indentation " ") +:+ line)
       (Str.split Str.LF text)).

(** [beautify] *)
Definition beautify (name : string) : string :=
  Str.title (Str.replace "-" " " (Str.replace "_" " " name)).

(** [latex_template], as defined in the module. *)
Definition latex_template (name title : string) : string :=
  Str.join (String Str.LF "")
    [ "\begin{figure}[ht]";
      "    \centering";
      "    \incfig{" +:+ name +:+ "}";
      "    \caption{" +:+ title +:+ "}";
      "    \label{fig:" +:+ name +:+ "}";
      "\end{figure}" ].

(** When [config.py] exists in the user directory, the module rebinds
    [latex_template] to the function that file defines. *)
Record user_config : Type := {
  config_latex_template : option (string -> string -> string)
}.

Definition no_config : user_config := {| config_latex_template := None |}.

Definition bound_latex_template (cfg : user_config) : string -> string -> string :=
  default latex_template (config_latex_template cfg).

(** ** The user directory *)

Definition user_dir : PurePath.t := PurePath.of_string "/Users/marcos/.config/pdftex-figures".
Definition roots_file : PurePath.t := PurePath.joinpath user_dir "roots".

(** ** The outside world *)

(** What the program observes of its environment. *)
Record world : Type := {
  cwd : string;                     (* os.getcwd() *)
  roots_text : string;              (* the characters stored in roots_file *)
  path_exists : string -> bool;     (* Path.exists() *)
  version_output : option string;   (* stdout of [inkscape --version];
                                       None when check_output raises *)
  returncode : list string -> Z;    (* exit status of subprocess.run(argv) *)
  remove_ok : string -> bool;       (* os.remove(path) succeeds *)
  osascript_status : option Z;      (* exit status of [osascript -e ...];
                                       None when subprocess.run raises, as
                                       where the program does not exist *)
  watch_ok : string -> bool;        (* inotify accepts add_watch(path) *)
  unwatch_ok : string -> bool       (* inotify accepts remove_watch(path) *)
}.

Definition set_roots_text (s : string) (w : world) : world :=
  {| cwd := cwd w; roots_text := s; path_exists := path_exists w;
     version_output := version_output w; returncode := returncode w;
     remove_ok := remove_ok w; osascript_status := osascript_status w;
     watch_ok := watch_ok w; unwatch_ok := unwatch_ok w |}.

(** *** File-system state: the [IO] monad *)

Definition IO (A : Type) : Type := world -> A * world.

Global Instance IO_ret : MRet IO := fun A a w => (a, w).
Global Instance IO_bind : MBind IO :=
  fun A B k m w => let (a, w') := m w in k a w'.

(** [os.getcwd()] *)
Definition getcwd : IO string := fun w => (cwd w, w).
(** [roots_file.read_text()]; the module creates the file when it is
    imported, so the read does not fail. *)
Definition read_text : IO string :=
  fun w => (Str.universal_newlines (roots_text w), w).
(** [roots_file.write_text(s)] *)
Definition write_text (s : string) : IO unit :=
  fun w => (tt, set_roots_text s w).

(** *** Calls to the outside: the [Eff] monad *)

Inductive level : Type := DEBUG | INFO | ERROR.

Inductive call : Type :=
| Log (lv : level) (msg : string)
| CheckOutput (argv : list string)
| Run (argv : list string)
| Remove (path : string)
| Osascript (export_folder : string)
| ClipboardCopy (text : string)
| Popen (argv : list string)
| Terminate
| AddWatch (path : string)
| RemoveWatch (path : string).

Inductive exn : Type :=
| CalledProcessError | IndexError | ValueError | InotifyError
| OSError | RuntimeError.

Inductive result (A : Type) : Type :=
| Returned (a : A)
| Raised (e : exn).
Arguments Returned {A} a.
Arguments Raised {A} e.

(** A computation reads the world and yields the calls it made, in order,
    and how it ended. *)
Definition Eff (A : Type) : Type := world -> list call * result A.

Global Instance Eff_ret : MRet Eff := fun A a _ => ([], Returned a).
Global Instance Eff_bind : MBind Eff :=
  fun A B k m w =>
    match m w with
    | (tr, Returned a) => let (tr', r) := k a w in (tr ++ tr', r)
    | (tr, Raised e) => (tr, Raised e)
    end.

Definition emit (c : call) : Eff unit := fun _ => ([c], Returned tt).
Definition raise {A : Type} (e : exn) : Eff A := fun _ => ([], Raised e).
Definition ask {A : Type} (f : world -> A) : Eff A := fun w => ([], Returned (f w)).
Definition from_option {A : Type} (e : exn) (o : option A) : Eff A :=
  match o with
  | Some a => mret a
  | None => raise e
  end.

Definition log (lv : level) (msg : string) : Eff unit := emit (Log lv msg).

(** [subprocess.check_output(argv, universal_newlines=True)] *)
Definition check_output (argv : list string) : Eff string :=
  emit (CheckOutput argv);;
  o ← ask version_output;
  from_option CalledProcessError (Str.universal_newlines <$> o).

(** [subprocess.run(argv).returncode] *)
Definition run (argv : list string) : Eff Z :=
  emit (Run argv);;
  ask (fun w => returncode w argv).

(** [os.remove(path)] *)
Definition remove (path : string) : Eff unit :=
  emit (Remove path);;
  removed ← ask (fun w => remove_ok w path);
  if removed : bool then mret tt else raise OSError.

(** [subprocess.run(["osascript", "-e", script])] *)
Definition run_osascript (export_folder : string) : Eff Z :=
  emit (Osascript export_folder);;
  status ← ask osascript_status;
  from_option OSError status.

(** [pyperclip.copy(text)] *)
Definition pyperclip_copy (text : string) : Eff unit := emit (ClipboardCopy text).

Definition trace {A : Type} (r : list call * result A) : list call := fst r.
Definition outcome {A : Type} (r : list call * result A) : result A := snd r.

(** ** RootStore *)

Definition str (path : str_or_path) : string :=
  match path with
  | Str_ s => s
  | Path_ p => PurePath.to_string p
  end.

(** [get_roots] *)
Definition get_roots : IO (list string) :=
  current_dir ← getcwd;
  text ← read_text;
  let ans := filter (fun root => root <> "") (Str.split Str.LF text) in
  mret (if decide (current_dir ∈ ans) then ans else ans ++ [current_dir]).

(** [add_root] *)
Definition add_root (path : str_or_path) : IO unit :=
  let path := str path in
  roots ← get_roots;
  if decide (path ∈ roots) then mret tt
  else write_text (Str.join (String Str.LF "") (roots ++ [path])).

(** The entries the store file holds: its non-empty lines. *)
Definition persisted (w : world) : list string :=
  filter (fun root => root <> "") (Str.split Str.LF (Str.universal_newlines (roots_text w))).

(** ** ConversionTrigger *)

(** Python's [<] on lists of integers: the first differing element
    decides, and a proper prefix is smaller. *)
Fixpoint list_lt (a b : list Z) : bool :=
  match a, b with
  | [], [] => false
  | [], _ :: _ => true
  | _ :: _, [] => false
  | x :: a', y :: b' => if (x =? y)%Z then list_lt a' b' else (x <? y)%Z
  end.

(** Lines 156 to 162: the version number read off the output of
    [inkscape --version], right-padded with zeros. *)
Definition parse_inkscape_version (inkscape_version : string) : Eff (list Z) :=
  v_inkscape ← from_option IndexError (Str.first_version_run inkscape_version);
  inkscape_version_number ← from_option ValueError (mapM Str.int (Str.split "." v_inkscape));
  mret (inkscape_version_number ++ replicate (3 - length inkscape_version_number) 0%Z).

Definition legacy_command (filepath pdf_path : PurePath.t) : list string :=
  [ "inkscape"; "--export-area-page"; "--export-dpi"; "300"; "--export-pdf";
    PurePath.to_string pdf_path; "--export-latex"; PurePath.to_string filepath ].

Definition modern_command (filepath pdf_path : PurePath.t) : list string :=
  [ "inkscape"; PurePath.to_string filepath; "--export-area-page"; "--export-dpi";
    "300"; "--export-type=pdf"; "--export-latex"; "--export-filename";
    PurePath.to_string pdf_path ].

(** Lines 165 to 187. *)
Definition build_command (inkscape_version_number : list Z)
    (filepath pdf_path : PurePath.t) : list string :=
  if list_lt inkscape_version_number [1; 0; 0]%Z
  then legacy_command filepath pdf_path
  else modern_command filepath pdf_path.

Section Conversion.

Variable cfg : user_config.

(** [convert_svg_to_pdf_tex] *)
Definition convert_svg_to_pdf_tex (filepath : PurePath.t) : Eff unit :=
  if decide (PurePath.suffix filepath <> ".svg") then
    log DEBUG ("File has changed, but is nog an svg " +:+ PurePath.suffix filepath)
  else
    log INFO ("Recompiling " +:+ PurePath.to_string filepath);;
    let pdf_path :=
      PurePath.joinpath (PurePath.parent filepath) (PurePath.stem filepath +:+ ".pdf") in
    let name := PurePath.stem filepath in
    inkscape_version ← check_output ["inkscape"; "--version"];
    log DEBUG inkscape_version;;
    inkscape_version_number ← parse_inkscape_version inkscape_version;
    let command := build_command inkscape_version_number filepath pdf_path in
    log DEBUG "Running command:";;
    log DEBUG (Str.join " " command);;
    completed_process ← run command;
    (if decide (completed_process <> 0%Z)
     then log ERROR ("Return code " +:+ pretty completed_process)
     else log DEBUG "Command succeeded");;
    pyperclip_copy (bound_latex_template cfg name (beautify name)).

(** [afdesign_to_svg].  The AppleScript handed to [osascript -e] drives the
    export dialog of the design tool and types [export_folder] into it; the
    call is recorded as [Osascript export_folder].  Neither [os.remove] nor
    [subprocess.run] sits in a [try]: what they raise leaves the function. *)
Definition afdesign_to_svg (filepath : str_or_path) : Eff unit :=
  current_dir ← ask cwd;
  let filepath := PurePath.absolute current_dir (Path filepath) in
  let export_folder := PurePath.parent filepath in
  let export_path := PurePath.joinpath export_folder (PurePath.stem filepath +:+ ".svg") in
  present ← ask (fun w => path_exists w (PurePath.to_string export_path));
  (if present : bool then
     log INFO ("Deleting existing SVG " +:+ PurePath.to_string export_path);;
     remove (PurePath.to_string export_path)
   else mret tt);;
  _ ← run_osascript (PurePath.to_string export_folder);
  mret tt.

(** [maybe_recompile_figure] *)
Definition maybe_recompile_figure (filepath : str_or_path) : Eff unit :=
  let filepath := Path filepath in
  if decide (PurePath.suffix filepath ∉ [".svg"; ".afdesign"]) then
    log DEBUG ("File has changed, but is supported " +:+ PurePath.suffix filepath)
  else
    (if decide (PurePath.suffix filepath = ".afdesign") then
       log INFO ("Converting to SVG " +:+ PurePath.to_string filepath);;
       afdesign_to_svg (Path_ filepath)
     else mret tt);;
    (if decide (PurePath.suffix filepath <> ".svg") then
       log INFO ("Recompiling " +:+ PurePath.to_string filepath);;
       convert_svg_to_pdf_tex filepath
     else mret tt);;
    pyperclip_copy
      (bound_latex_template cfg (PurePath.stem filepath) (beautify (PurePath.stem filepath))).

End Conversion.

(** Calls that start the vector-to-document converter. *)
Definition is_converter_invocation (c : call) : bool :=
  match c with
  | Run ("inkscape" :: _) => true
  | _ => false
  end.

Definition is_clipboard_write (c : call) : bool :=
  match c with
  | ClipboardCopy _ => true
  | _ => false
  end.

(** A world for examples: nothing exists, the converter answers [version]
    and exits with [rc]. *)
Definition sample_world (version : string) (rc : Z) : world :=
  {| cwd := "/home/user"; roots_text := "";
     path_exists := fun _ => false;
     version_output := Some version;
     returncode := fun _ => rc;
     remove_ok := fun _ => true;
     osascript_status := Some 0%Z;
     watch_ok := fun _ => true;
     unwatch_ok := fun _ => true |}.

(** ** The watch daemons *)

(** A call of [maybe_recompile_figure]: when it happens, which timer thread
    makes it (none for the main loop), and its argument. *)
Record invocation : Type := {
  fired_at : Q;
  fired_by : option nat;
  argument : str_or_path
}.

(** What the recorded invocations do to the outside. *)
Definition conversion_calls (cfg : user_config) (disk : Q -> world)
    (invs : list invocation) : list call :=
  flat_map (fun inv => trace (maybe_recompile_figure cfg (argument inv) (disk (fired_at inv)))) invs.

(** [threading.Timer(interval, function, args)], started at some instant:
    the thread sleeps until [deadline], then calls [function] on [args] unless
    [finished] is set; [cancel()] sets [finished]. *)
Record Timer : Type := {
  args : string;
  deadline : Q;
  finished : bool
}.

Definition set_finished (tm : Timer) : Timer :=
  {| args := args tm; deadline := deadline tm; finished := true |}.

(** *** The polling backend: [watch_daemon_fswatch] *)

Module Fswatch.

(** The daemon's variables.  [timers] lists every Timer object created so
    far; a Timer is named by its position.  [pending_timers] is the
    dictionary of the source. *)
Record state : Type := {
  timers : list Timer;
  pending_timers : gmap string nat;
  roots : list string;
  invocations : list invocation;
  journal : list call
}.

Definition debounce_seconds : Q := 1.

Definition initial : state :=
  {| timers := []; pending_timers := ∅; roots := []; invocations := []; journal := [] |}.

Section Daemon.

(** The world at each instant. *)
Variable disk : Q -> world.

(** [debounced_compile], called by the thread of timer [self] at [now]. *)
Definition debounced_compile (now : Q) (self : nat) (filepath : string) (st : state) : state :=
  {| timers := timers st;
     pending_timers :=
       if decide (is_Some (pending_timers st !! filepath))
       then delete filepath (pending_timers st)
       else pending_timers st;
     roots := roots st;
     invocations := invocations st ++
       [{| fired_at := now; fired_by := Some self; argument := Str_ filepath |}];
     journal := journal st |}.

(** The end of [Timer.run], for the thread of the Timer [tm] at position
    [self] that has found [finished] unset: it calls [debounced_compile] on
    its arguments, then sets [finished]. *)
Definition timer_call (self : nat) (tm : Timer) (st : state) : state :=
  let st' := debounced_compile (deadline tm) self (args tm) st in
  {| timers := <[self := set_finished tm]> (timers st');
     pending_timers := pending_timers st';
     roots := roots st';
     invocations := invocations st';
     journal := journal st' |}.

(** [Timer.run] once the interval has elapsed, when the main loop does not
    run between the test of [finished] and the end of the thread.  No lock
    of the source makes it so; [Race] below takes the steps one by one. *)
Definition timer_run (self : nat) (st : state) : state :=
  match timers st !! self with
  | Some tm => if finished tm then st else timer_call self tm st
  | None => st
  end.

Definition wake (now : Q) (st : state) (i : nat) : state :=
  match timers st !! i with
  | Some tm => if Qle_bool (deadline tm) now then timer_run i st else st
  | None => st
  end.

(** Time passes until [now]: every timer whose deadline has come runs. *)
Definition elapse (now : Q) (st : state) : state :=
  foldl (wake now) st (seq 0 (length (timers st))).

(** [timer.cancel()] on the Timer at position [i]. *)
Definition cancel (i : nat) (ts : list Timer) : list Timer := alter set_finished i ts.

(** Lines 338 to 346: the main loop handles a path other than the roots
    file. *)
Definition on_event (now : Q) (filepath : string) (st : state) : state :=
  let cancelled :=
    match pending_timers st !! filepath with
    | Some i => cancel i (timers st)
    | None => timers st
    end in
  let logged :=
    match pending_timers st !! filepath with
    | Some _ => [Log DEBUG ("Resetting debounce timer for " +:+ filepath)]
    | None => []
    end in
  let timer := {| args := filepath; deadline := now + debounce_seconds; finished := false |} in
  {| timers := cancelled ++ [timer];
     pending_timers := <[filepath := length cancelled]> (pending_timers st);
     roots := roots st;
     invocations := invocations st;
     journal := journal st ++ logged |}.

(** Lines 329 to 331: the roots file has changed. *)
Definition announce (st : state) : state :=
  {| timers := timers st;
     pending_timers := pending_timers st;
     roots := roots st;
     invocations := invocations st;
     journal := journal st ++
       [Log INFO "The roots file has been updated. Updating watches.";
        Terminate;
        Log DEBUG "Removed main watch %s"] |}.

(** Lines 333 and 334, when no timer thread changes the dictionary while
    the loop goes through it. *)
Definition cancel_all (st : state) : state :=
  {| timers := foldr cancel (timers st) ((map_to_list (pending_timers st)).*2);
     pending_timers := pending_timers st;
     roots := roots st;
     invocations := invocations st;
     journal := journal st |}.

(** Line 335: [pending_timers.clear()]. *)
Definition clear (st : state) : state :=
  {| timers := timers st;
     pending_timers := ∅;
     roots := roots st;
     invocations := invocations st;
     journal := journal st |}.

(** Lines 329 to 336 when no timer thread runs during them; [Race] below
    takes the loop one turn at a time. *)
Definition teardown (st : state) : state := clear (cancel_all (announce st)).

(** Lines 317 to 325: one turn of the outer loop up to the inner loop. *)
Definition build (now : Q) (st : state) : state :=
  let roots := fst (get_roots (disk now)) in
  {| timers := timers st;
     pending_timers := pending_timers st;
     roots := roots;
     invocations := invocations st;
     journal := journal st ++
       [Log INFO ("Watching directories: " +:+ Str.join ", " roots);
        Popen ("fswatch" :: roots ++ [PurePath.to_string user_dir])] |}.

(** One turn of the inner loop, on the line read at [now]. *)
Definition handle_line (now : Q) (line : string) (st : state) : state :=
  let filepath := Str.strip line in
  if decide (filepath = PurePath.to_string roots_file)
  then build now (teardown st)
  else on_event now filepath st.

Definition step (st : state) (ev : Q * string) : state :=
  handle_line ev.1 ev.2 (elapse ev.1 st).

(** The daemon started at [start], fed the time-stamped lines [evs]. *)
Definition run (st : state) (evs : list (Q * string)) : state := foldl step st evs.

Definition start (now : Q) : state := build now initial.

End Daemon.

End Fswatch.

(** *** The polling backend, one thread step at a time *)

(** The main loop and the Timer threads share [pending_timers] and the
    Timer objects without a lock.  Here a schedule names, step by step, who
    runs: [Fswatch.run] is the schedule in which a thread, once it has tested
    [finished], runs to its end before the main loop goes on, and in which
    the loop over the dictionary is not interrupted. *)
Module Race.

(** Where the thread of a Timer stands: in [finished.wait(interval)]; past
    the test of [finished], which it found unset, and about to call the
    function; ended. *)
Inductive stage : Type := Waiting | Passed | Over.

(** Where the main loop stands: blocked in [readline]; in the loop of line
    333, with the size the dictionary had when the iterator was made and
    the timers still to visit; stopped by an exception. *)
Inductive main : Type :=
| Reading
| Cancelling (used : nat) (rest : list nat)
| Stopped (e : exn).

Record state : Type := {
  shared : Fswatch.state;
  stages : list stage;
  main_loop : main
}.

(** One step of one thread. *)
Inductive action : Type :=
| Line (now : Q) (line : string)   (* the main loop reads [line] and handles
                                       it; for the roots file, up to the
                                       making of the iterator of line 333 *)
| Next (now : Q)                    (* the main loop asks the iterator for
                                       the next timer and cancels it, or, at
                                       the end, clears the dictionary and
                                       builds the watches again *)
| Test (now : Q) (self : nat)       (* the thread of timer [self] returns
                                       from [wait] and tests [finished] *)
| Call (self : nat).                (* it calls the function and ends *)

Section Threads.

Variable disk : Q -> world.

Definition line_step (now : Q) (line : string) (rs : state) : state :=
  let filepath := Str.strip line in
  if decide (filepath = PurePath.to_string roots_file) then
    let st := Fswatch.announce (shared rs) in
    {| shared := st;
       stages := stages rs;
       main_loop :=
         Cancelling (size (Fswatch.pending_timers st))
           (map_to_list (Fswatch.pending_timers st)).*2 |}
  else
    {| shared := Fswatch.on_event now filepath (shared rs);
       stages := stages rs ++ [Waiting];
       main_loop := Reading |}.

Definition cancel_one (i : nat) (st : Fswatch.state) : Fswatch.state :=
  {| Fswatch.timers := Fswatch.cancel i (Fswatch.timers st);
     Fswatch.pending_timers := Fswatch.pending_timers st;
     Fswatch.roots := Fswatch.roots st;
     Fswatch.invocations := Fswatch.invocations st;
     Fswatch.journal := Fswatch.journal st |}.

(** The iterator of a dictionary raises [RuntimeError] when the size of
    the dictionary is no longer the one it started with. *)
Definition next_step (now : Q) (used : nat) (rest : list nat) (rs : state) : state :=
  if decide (size (Fswatch.pending_timers (shared rs)) = used) then
    match rest with
    | i :: rest' =>
        {| shared := cancel_one i (shared rs);
           stages := stages rs;
           main_loop := Cancelling used rest' |}
    | [] =>
        {| shared := Fswatch.build disk now (Fswatch.clear (shared rs));
           stages := stages rs;
           main_loop := Reading |}
    end
  else {| shared := shared rs; stages := stages rs; main_loop := Stopped RuntimeError |}.

Definition test_step (now : Q) (self : nat) (tm : Timer) (rs : state) : state :=
  if finished tm then
    {| shared := shared rs; stages := <[self := Over]> (stages rs);
       main_loop := main_loop rs |}
  else if Qle_bool (deadline tm) now then
    {| shared := shared rs; stages := <[self := Passed]> (stages rs);
       main_loop := main_loop rs |}
  else rs.

Definition call_step (self : nat) (tm : Timer) (rs : state) : state :=
  {| shared := Fswatch.timer_call self tm (shared rs);
     stages := <[self := Over]> (stages rs);
     main_loop := main_loop rs |}.

(** A step that the thread named is not ready for leaves the state as it
    is. *)
Definition step (rs : state) (a : action) : state :=
  match a with
  | Line now line =>
      match main_loop rs with
      | Reading => line_step now line rs
      | _ => rs
      end
  | Next now =>
      match main_loop rs with
      | Cancelling used rest => next_step now used rest rs
      | _ => rs
      end
  | Test now self =>
      match stages rs !! self, Fswatch.timers (shared rs) !! self with
      | Some Waiting, Some tm => test_step now self tm rs
      | _, _ => rs
      end
  | Call self =>
      match stages rs !! self, Fswatch.timers (shared rs) !! self with
      | Some Passed, Some tm => call_step self tm rs
      | _, _ => rs
      end
  end.

Definition run (rs : state) (schedule : list action) : state := foldl step rs schedule.

Definition start (now : Q) : state :=
  {| shared := Fswatch.start disk now; stages := []; main_loop := Reading |}.

End Threads.

End Race.

(** *** The native backend: [watch_daemon_inotify] *)

Module Inotify.

(** The daemon's variables: the snapshot [roots], and the paths watched by
    the current notifier object [i]. *)
Record state : Type := {
  roots : list string;
  watches : list string;
  invocations : list invocation;
  journal : list call
}.

Definition initial : state :=
  {| roots := []; watches := []; invocations := []; journal := [] |}.

Definition record (cs : list call) (st : state) : state :=
  {| roots := roots st; watches := watches st;
     invocations := invocations st; journal := journal st ++ cs |}.

(** [i.add_watch(path, mask=IN_CLOSE_WRITE)] *)
Definition add_watch (w : world) (path : string) (st : state) : result state :=
  if watch_ok w path then
    Returned {| roots := roots st; watches := watches st ++ [path];
                invocations := invocations st;
                journal := journal st ++ [AddWatch path] |}
  else Raised InotifyError.

(** [i.remove_watch(path)] *)
Definition remove_watch (w : world) (path : string) (st : state) : result state :=
  if unwatch_ok w path then
    Returned {| roots := roots st;
                watches := filter (fun p => p <> path) (watches st);
                invocations := invocations st;
                journal := journal st ++ [RemoveWatch path] |}
  else Raised InotifyError.

(** Lines 247 to 251: the loop that registers the figure directories. *)
Fixpoint register_roots (w : world) (todo : list string) (st : state) : state :=
  match todo with
  | [] => st
  | root :: rest =>
      register_roots w rest
        match add_watch w root st with
        | Returned st' => st'
        | Raised _ => record [Log DEBUG ("Could not add root " +:+ root)] st
        end
  end.

(** Lines 260 to 265: the loop that removes them again. *)
Fixpoint unregister_roots (w : world) (todo : list string) (st : state) : state :=
  match todo with
  | [] => st
  | root :: rest =>
      unregister_roots w rest
        match remove_watch w root st with
        | Returned st' => record [Log DEBUG ("Removed root " +:+ root)] st'
        | Raised _ => record [Log DEBUG ("Could not remove root " +:+ root)] st
        end
  end.

Section Daemon.

Variable cfg : user_config.
Variable disk : Q -> world.

(** Lines 238 to 251: one turn of the outer loop up to the event loop.  The
    watch on the roots file is added outside any [try]. *)
Definition build (now : Q) (st : state) : result state :=
  let w := disk now in
  let roots := fst (get_roots w) in
  let fresh := {| roots := roots; watches := [];
                  invocations := invocations st; journal := journal st |} in
  match add_watch w (PurePath.to_string roots_file) fresh with
  | Raised e => Raised e
  | Returned st1 =>
      Returned
        (register_roots w roots
           (record [Log INFO ("Watching directories: " +:+ Str.join ", " (fst (get_roots w)))] st1))
  end.

(** Lines 254 to 271: one event [(_, type_names, path, filename)]. *)
Definition handle_event (now : Q) (path filename : string) (st : state) : result state :=
  let w := disk now in
  if decide (path = PurePath.to_string roots_file) then
    build now
      (unregister_roots w (roots st)
         (record [Log INFO "The roots file has been updated. Updating watches."] st))
  else
    let path := PurePath.joinpath (Path (Str_ path)) filename in
    match outcome (maybe_recompile_figure cfg (Path_ path) w) with
    | Raised e => Raised e
    | Returned _ =>
        Returned {| roots := roots st; watches := watches st;
                    invocations := invocations st ++
                      [{| fired_at := now; fired_by := None; argument := Path_ path |}];
                    journal := journal st |}
    end.

Definition step (st : result state) (ev : Q * (string * string)) : result state :=
  match st with
  | Returned st => handle_event ev.1 ev.2.1 ev.2.2 st
  | Raised e => Raised e
  end.

Definition run (st : result state) (evs : list (Q * (string * string))) : result state :=
  foldl step st evs.

Definition start (now : Q) : result state := build now initial.

End Daemon.

End Inotify.

(** ** Vocabulary of the statements *)

(** A string that survives a round trip through the roots file as one
    entry: not empty, and without line break. *)
Definition one_line (s : string) : Prop :=
  s ≠ "" ∧ Str.mem Str.LF s = false ∧ Str.mem Str.CR s = false.

(** The timer table and the threads agree: a pending entry names a timer
    of that path that has neither fired nor been cancelled, every such
    timer is the pending entry of its path, and a timer that has called the
    trigger is finished. *)
Definition pending_live (st : Fswatch.state) : Prop :=
  ∀ (p : string) (i : nat),
    Fswatch.pending_timers st !! p = Some i →
    ∃ tm, Fswatch.timers st !! i = Some tm ∧ args tm = p ∧ finished tm = false.

Definition live_pending (st : Fswatch.state) : Prop :=
  ∀ (i : nat) (tm : Timer),
    Fswatch.timers st !! i = Some tm → finished tm = false →
    Fswatch.pending_timers st !! args tm = Some i.

Definition fired_finished (st : Fswatch.state) : Prop :=
  ∀ (inv : invocation) (i : nat),
    inv ∈ Fswatch.invocations st → fired_by inv = Some i →
    ∃ tm, Fswatch.timers st !! i = Some tm ∧ finished tm = true.

Definition consistent (st : Fswatch.state) : Prop :=
  pending_live st ∧ live_pending st ∧ fired_finished st.

(** Timer [i] has been cancelled or has run, and it has not called the
    trigger. *)
Definition silenced (i : nat) (st : Fswatch.state) : Prop :=
  (∃ tm, Fswatch.timers st !! i = Some tm ∧ finished tm = true) ∧
  ∀ inv, inv ∈ Fswatch.invocations st → fired_by inv ≠ Some i.

Global Instance purepath_eq_dec : EqDecision PurePath.t.
Proof. solve_decision. Defined.
Global Instance str_or_path_eq_dec : EqDecision str_or_path.
Proof. solve_decision. Defined.










(** ** Sample inputs *)

(** The world of the end-to-end scenario: the store lists
    [/figs], the converter is a 1.x release and succeeds. *)
Definition figs_world : world :=
  set_roots_text "/figs" (sample_world "Inkscape 1.2.2 (b0a8486541, 2022-12-01)" 0).

(** The store of the counterexamples: an empty roots file. *)
Definition empty_store (current_dir : string) : world :=
  {| cwd := current_dir; roots_text := "";
     path_exists := fun _ => false; version_output := None;
     returncode := fun _ => 0%Z;
     remove_ok := fun _ => true; osascript_status := Some 0%Z;
     watch_ok := fun _ => true; unwatch_ok := fun _ => true |}.

(** A world in which the directory [/gone] cannot be watched; the store
    lists [/gone] before [/figs]. *)
Definition vanished_world : world :=
  {| cwd := "/home/user";
     roots_text := "/gone" +:+ String Str.LF "/figs";
     path_exists := fun _ => false; version_output := None;
     returncode := fun _ => 0%Z;
     remove_ok := fun _ => true; osascript_status := Some 0%Z;
     watch_ok := fun p => negb (String.eqb p "/gone");
     unwatch_ok := fun _ => true |}.

(** The same world seen by a process whose working directory is
    [current_dir]. *)
Definition with_cwd (current_dir : string) (w : world) : world :=
  {| cwd := current_dir; roots_text := roots_text w; path_exists := path_exists w;
     version_output := version_output w; returncode := returncode w;
     remove_ok := remove_ok w; osascript_status := osascript_status w;
     watch_ok := watch_ok w; unwatch_ok := unwatch_ok w |}.

(** A machine without [osascript]: starting it raises. *)
Definition no_osascript_world : world :=
  {| cwd := "/home/user"; roots_text := "/figs";
     path_exists := fun _ => false;
     version_output := Some "Inkscape 1.2.2 (b0a8486541, 2022-12-01)";
     returncode := fun _ => 0%Z;
     remove_ok := fun _ => true; osascript_status := None;
     watch_ok := fun _ => true; unwatch_ok := fun _ => true |}.

(** A machine on which [osascript] starts and exits with status 1, and on
    which every path exists. *)
Definition failing_osascript_world : world :=
  {| cwd := "/home/user"; roots_text := "/figs";
     path_exists := fun _ => true;
     version_output := Some "Inkscape 1.2.2 (b0a8486541, 2022-12-01)";
     returncode := fun _ => 0%Z;
     remove_ok := fun _ => true; osascript_status := Some 1%Z;
     watch_ok := fun _ => true; unwatch_ok := fun _ => true |}.

(** Example inputs: a burst for one figure with a line for another one in
    between. *)
Definition burst : list (Q * string) :=
  [(0, "/figs/diagram.svg"); (1 # 10, "/figs/diagram.svg");
   (15 # 100, "/figs/other.svg"); (2 # 10, "/figs/diagram.svg")]%Q.




(** ** Proof automation *)

Ltac eff_unfold :=
  unfold trace, outcome, log, pyperclip_copy, run, check_output, remove, run_osascript,
    emit, ask, raise,
    from_option, mbind, mret, Eff_bind, Eff_ret in *.

(** Registering several directories, one [add_root] after the other. *)
Definition add_roots (paths : list string) (w : world) : world :=
  foldl (fun w path => (add_root (Str_ path) w).2) w paths.

(** Calls that start the [inkscape] program, for a conversion or for its
    version. *)
Definition is_inkscape_process (c : call) : bool :=
  match c with
  | Run ("inkscape" :: _) | CheckOutput ("inkscape" :: _) => true
  | _ => false
  end.

(** The prefix [indent] puts before each line. *)
Definition spaces (n : nat) : string := String.concat "" (replicate n " ").

(** Case analysis on the 256 characters. *)
Ltac by_ascii c := destruct c as [[] [] [] [] [] [] [] []]; vm_compute; repeat split.

(** The lines of a run that are handed to the debouncer. *)
Definition debounced_lines (events : list (Q * string)) : list (Q * string) :=
  filter (fun ev : Q * string => Str.strip ev.2 ≠ PurePath.to_string roots_file) events.

(** Every trigger call comes from a timer, and no timer made two. *)
Definition fired_once (st : Fswatch.state) : Prop :=
  NoDup (fired_by <$> Fswatch.invocations st) ∧
  ∀ inv, inv ∈ Fswatch.invocations st →
         ∃ i, fired_by inv = Some i ∧ i < length (Fswatch.timers st).

(** Every timer was set by a line of [events] handed to the debouncer, for
    the path of that line and [debounce_seconds] after it; every trigger call
    is for such a line, at that instant. *)
Definition sourced (events : list (Q * string)) (st : Fswatch.state) : Prop :=
  (∀ i tm, Fswatch.timers st !! i = Some tm →
     ∃ t line, (t, line) ∈ debounced_lines events ∧
               args tm = Str.strip line ∧
               deadline tm = (t + Fswatch.debounce_seconds)%Q) ∧
  (∀ inv, inv ∈ Fswatch.invocations st →
     ∃ t line, (t, line) ∈ debounced_lines events ∧
               argument inv = Str_ (Str.strip line) ∧
               fired_at inv = (t + Fswatch.debounce_seconds)%Q).

(** The trigger call the native daemon makes for one event. *)
Definition inotify_invocation (ev : Q * (string * string)) : invocation :=
  {| fired_at := ev.1; fired_by := None;
     argument := Path_ (PurePath.joinpath (PurePath.of_string ev.2.1) ev.2.2) |}.

(** The trigger returns on the event [ev], in the world of that instant. *)
Definition trigger_returns (cfg : user_config) (disk : Q -> world)
    (ev : Q * (string * string)) : Prop :=
  outcome (maybe_recompile_figure cfg (argument (inotify_invocation ev)) (disk ev.1))
    = Returned tt.

(** ** The [create] command *)

Module Cli.

(** [s.lower()] on ASCII text *)
Fixpoint lower (s : string) : string :=
  match s with
  | EmptyString => EmptyString
  | String c s' => String (Str.to_lower c) (lower s')
  end.

(** What the command does to the outside. *)
Inductive action : Type :=
| Mkdir (path : string)
| CopyFile (source destination : string)
| Open (argv : list string)
| Print (text : string).

(** The command ends normally, or an [OSError] of [mkdir], [copy] or
    [Popen] ends it. *)
Inductive ending : Type := Completed | Failed.

(** Which directory creations, file copies and program starts the system
    refuses. *)
Record faults : Type := {
  mkdir_fails : string -> bool;
  copy_fails : string -> string -> bool;
  open_fails : list string -> bool     (* Popen(argv) raises, as where the
                                          program does not exist *)
}.

Definition template : PurePath.t := PurePath.joinpath user_dir "template.svg".

(** The world after [path] came into existence. *)
Definition with_path (path : string) (w : world) : world :=
  {| cwd := cwd w; roots_text := roots_text w;
     path_exists := fun p => String.eqb p path || path_exists w p;
     version_output := version_output w; returncode := returncode w;
     remove_ok := remove_ok w; osascript_status := osascript_status w;
     watch_ok := watch_ok w; unwatch_ok := unwatch_ok w |}.

(** [open_svg_file], which is [open_in_affinity_designer]: the arguments of
    its [Popen], and the call. *)
Definition open_argv (path : PurePath.t) : list string :=
  ["open"; "-a"; "Affinity Designer 2"; PurePath.to_string path].

Definition open_svg_file (path : PurePath.t) : action := Open (open_argv path).

(** The name of the file [create] makes for a title in ASCII. *)
Definition file_name (title : string) : string :=
  lower (Str.replace " " "-" (Str.strip title)) +:+ ".svg".

Section Create.

Variable cfg : user_config.
Variable sys : faults.

(** Lines 377 to 389: the figure does not exist yet.  An exception of
    [Popen] comes after [add_root] has written the roots file. *)
Definition create_figure (title : string) (figures figure_path : PurePath.t)
    (w : world) : list action * ending * world :=
  let source := PurePath.to_string template in
  let destination := PurePath.to_string figure_path in
  if copy_fails sys source destination then
    ([CopyFile source destination], Failed, w)
  else
    let w1 := with_path destination w in
    let w2 := (add_root (Path_ figures) w1).2 in
    if open_fails sys (open_argv figure_path) then
      ([CopyFile source destination; open_svg_file figure_path], Failed, w2)
    else
      let leading_spaces := String.length title - String.length (Str.lstrip title) in
      ([CopyFile source destination;
        open_svg_file figure_path;
        Print (indent (bound_latex_template cfg (PurePath.stem figure_path) title)
                 leading_spaces)],
       Completed, w2).

(** Lines 364 to 375, and the rest through [create_figure]. *)
Definition create (title root : string) (w : world) : list action * ending * world :=
  let title := Str.strip title in
  let file_name := lower (Str.replace " " "-" title) +:+ ".svg" in
  let figures := PurePath.absolute (cwd w) (Path (Str_ root)) in
  let made :=
    if path_exists w (PurePath.to_string figures) then Some ([], w)
    else if mkdir_fails sys (PurePath.to_string figures) then None
    else Some ([Mkdir (PurePath.to_string figures)],
               with_path (PurePath.to_string figures) w) in
  match made with
  | None => ([Mkdir (PurePath.to_string figures)], Failed, w)
  | Some (done, w1) =>
      let figure_path := PurePath.joinpath figures file_name in
      if path_exists w1 (PurePath.to_string figure_path) then
        (done ++ [Print (title +:+ " 2")], Completed, w1)
      else
        let '(acts, e, w2) := create_figure title figures figure_path w1 in
        (done ++ acts, e, w2)
  end.

End Create.

End Cli.

(** A system that refuses nothing. *)
Definition no_faults : Cli.faults :=
  {| Cli.mkdir_fails := fun _ => false; Cli.copy_fails := fun _ _ => false;
     Cli.open_fails := fun _ => false |}.

(** A system on which the program [open] cannot be started. *)
Definition no_open : Cli.faults :=
  {| Cli.mkdir_fails := fun _ => false; Cli.copy_fails := fun _ _ => false;
     Cli.open_fails := fun _ => true |}.

(** A system that refuses every copy. *)
Definition no_copy : Cli.faults :=
  {| Cli.mkdir_fails := fun _ => false; Cli.copy_fails := fun _ _ => true;
     Cli.open_fails := fun _ => false |}.

(** Lines printed for the user. *)
Definition is_print (a : Cli.action) : bool :=
  match a with
  | Cli.Print _ => true
  | _ => false
  end.

(** ** The [edit] command *)

Module Edit.

(** [l[i]] for a Python list and an integer: negative indices count from
    the end, and an index out of range raises [IndexError] ([None]). *)
Definition py_index {A : Type} (l : list A) (i : Z) : option A :=
  if (0 <=? i)%Z then l !! Z.to_nat i
  else if (- Z.of_nat (length l) <=? i)%Z then l !! Z.to_nat (Z.of_nat (length l) + i)
  else None.

(** [s.endswith(suffix)] *)
Definition endswith (s suffix : string) : bool :=
  String.eqb (Str.drop (String.length s - String.length suffix) s) suffix.

(** What the command does to the outside: it asks the picker, or opens the
    editor. *)
Inductive action : Type :=
| Pick (names : list string)
| Open (argv : list string).

Inductive ending : Type := Returns | RaisesIndexError.

Section Edit.

(** The SVG files of a directory, latest change first: the sorted result
    of [glob]. *)
Variable svg_files : string -> list PurePath.t.
(** The picker of the module [picker]: from the names, an index and whether
    a choice was made. *)
Variable pick : list string -> Z * bool.

(** Lines 537 to 539. *)
Definition finish (selected : bool) (figures path : PurePath.t) (asked : list action)
    (w : world) : list action * ending * world :=
  if selected then
    (asked ++ [Open ["open"; "-a"; "Affinity Designer 2"; PurePath.to_string path]],
     Returns, (add_root (Path_ figures) w).2)
  else (asked, Returns, w).

(** [edit] *)
Definition edit (root : string) (w : world) : list action * ending * world :=
  if endswith root ".svg" then
    let figures := PurePath.parent (PurePath.absolute (cwd w) (Path (Str_ root))) in
    let path := PurePath.absolute (cwd w) (Path (Str_ root)) in
    finish true figures path [] w
  else
    let figures := PurePath.absolute (cwd w) (Path (Str_ root)) in
    let files := svg_files (PurePath.to_string figures) in
    let names := (fun f => beautify (PurePath.stem f)) <$> files in
    let '(index, selected) := pick names in
    match py_index files index with
    | None => ([Pick names], RaisesIndexError, w)
    | Some path => finish selected figures path [Pick names] w
    end.

End Edit.

End Edit.

(** * Properties *)

(** ** The helpers on concrete inputs *)

Example split_empty : Str.split Str.LF "" = [""].
Proof. reflexivity. Qed.
Example split_trailing : Str.split "/" "a//b/" = ["a"; ""; "b"; ""].
Proof. reflexivity. Qed.
Example title_ex : Str.title "my fIRST-fig2b" = "My First-Fig2B".
Proof. reflexivity. Qed.
Example strip_ex : Str.strip (String Str.LF " a b  ") = "a b".
Proof. reflexivity. Qed.
Example version_run_ex : Str.first_version_run "Inkscape 1.0rc1" = Some "1.0".
Proof. reflexivity. Qed.
Example path_str : PurePath.to_string (PurePath.of_string "/figs//./diagram.svg/") = "/figs/diagram.svg".
Proof. reflexivity. Qed.
Example path_suffix : PurePath.suffix (PurePath.of_string "/figs/my.fig.svg") = ".svg".
Proof. reflexivity. Qed.
Example path_stem : PurePath.stem (PurePath.of_string "/figs/my.fig.svg") = "my.fig".
Proof. reflexivity. Qed.
Example path_hidden : PurePath.suffix (PurePath.of_string "/figs/.svg") = "".
Proof. reflexivity. Qed.
Example path_trailing_dot : PurePath.suffix (PurePath.of_string "fig.") = "".
Proof. reflexivity. Qed.
Example path_parent : PurePath.to_string (PurePath.parent (PurePath.of_string "/figs/a.svg")) = "/figs".
Proof. reflexivity. Qed.
Example path_join_empty : PurePath.joinpath (PurePath.of_string "/figs") "" = PurePath.of_string "/figs".
Proof. reflexivity. Qed.
Example beautify_ex : beautify "my_first-figure" = "My First Figure".
Proof. reflexivity. Qed.
Example roots_file_str :
  PurePath.to_string roots_file = "/Users/marcos/.config/pdftex-figures/roots".
Proof. reflexivity. Qed.

Example version_092 :
  parse_inkscape_version "Inkscape 0.92.4 (unknown)" figs_world = ([], Returned [0; 92; 4]%Z).
Proof. reflexivity. Qed.
Example version_11_dev :
  parse_inkscape_version "Inkscape 1.1-dev (3a9df5bcce, 2020-03-18)" figs_world
    = ([], Returned [1; 1; 0]%Z).
Proof. reflexivity. Qed.
Example version_four_parts :
  parse_inkscape_version "Inkscape 1.0.0.1" figs_world = ([], Returned [1; 0; 0; 1]%Z).
Proof. reflexivity. Qed.
Example version_stray_dot :
  parse_inkscape_version "Inkscape. 1.0" figs_world = ([], Raised ValueError).
Proof. reflexivity. Qed.
Example version_missing :
  parse_inkscape_version "Inkscape" figs_world = ([], Raised IndexError).
Proof. reflexivity. Qed.
Example legacy_run :
  Run ["inkscape"; "--export-area-page"; "--export-dpi"; "300"; "--export-pdf";
       "/figs/diagram.pdf"; "--export-latex"; "/figs/diagram.svg"]
  ∈ trace (convert_svg_to_pdf_tex no_config (PurePath.of_string "/figs/diagram.svg")
             (sample_world "Inkscape 0.92.4 (unknown)" 0)).
Proof. apply list_elem_of_In. vm_compute. repeat ((left; reflexivity) || right). Qed.

(** ** ConversionTrigger *)

(** The three shapes of a run of [maybe_recompile_figure]. *)
Lemma maybe_recompile_figure_other (cfg : user_config) (w : world) (filepath : str_or_path) :
  PurePath.suffix (Path filepath) ∉ [".svg"; ".afdesign"] →
  maybe_recompile_figure cfg filepath w =
    ([Log DEBUG ("File has changed, but is supported " +:+ PurePath.suffix (Path filepath))],
     Returned tt).
Proof.
  intros Hsuf. unfold maybe_recompile_figure.
  case_decide; [reflexivity | contradiction].
Qed.

Lemma maybe_recompile_figure_svg (cfg : user_config) (w : world) (filepath : str_or_path) :
  PurePath.suffix (Path filepath) = ".svg" →
  maybe_recompile_figure cfg filepath w =
    ([ClipboardCopy (bound_latex_template cfg (PurePath.stem (Path filepath))
                       (beautify (PurePath.stem (Path filepath))))],
     Returned tt).
Proof.
  intros Hsuf. unfold maybe_recompile_figure. rewrite Hsuf. reflexivity.
Qed.

Lemma afdesign_to_svg_trace (w : world) (filepath : str_or_path) :
  List.filter is_converter_invocation (trace (afdesign_to_svg filepath w)) = [] ∧
  List.filter is_clipboard_write (trace (afdesign_to_svg filepath w)) = [].
Proof.
  unfold afdesign_to_svg. eff_unfold. simpl.
  destruct (path_exists w _); simpl;
    repeat match goal with
           | |- context [remove_ok w ?p] => destruct (remove_ok w p); simpl
           | |- context [osascript_status w] => destruct (osascript_status w); simpl
           end; auto.
Qed.

(** How [afdesign_to_svg] ends: the removal of an existing export, then the
    start of [osascript], may raise; its exit status is not looked at. *)
Lemma afdesign_to_svg_outcome (w : world) (filepath : str_or_path) :
  let source := PurePath.absolute (cwd w) (Path filepath) in
  let export_path :=
    PurePath.to_string
      (PurePath.joinpath (PurePath.parent source) (PurePath.stem source +:+ ".svg")) in
  outcome (afdesign_to_svg filepath w) =
    if path_exists w export_path && negb (remove_ok w export_path) then Raised OSError
    else match osascript_status w with
         | Some _ => Returned tt
         | None => Raised OSError
         end.
Proof.
  intros source export_path. unfold afdesign_to_svg. eff_unfold. simpl.
  fold source. fold export_path.
  destruct (path_exists w export_path); simpl;
    [destruct (remove_ok w export_path); simpl|];
    destruct (osascript_status w); reflexivity.
Qed.

Lemma maybe_recompile_figure_afdesign (cfg : user_config) (w : world) (filepath : str_or_path) :
  PurePath.suffix (Path filepath) = ".afdesign" →
  maybe_recompile_figure cfg filepath w =
    match outcome (afdesign_to_svg (Path_ (Path filepath)) w) with
    | Returned _ =>
        (Log INFO ("Converting to SVG " +:+ PurePath.to_string (Path filepath))
           :: trace (afdesign_to_svg (Path_ (Path filepath)) w)
           ++ [Log INFO ("Recompiling " +:+ PurePath.to_string (Path filepath));
               Log DEBUG "File has changed, but is nog an svg .afdesign";
               ClipboardCopy (bound_latex_template cfg (PurePath.stem (Path filepath))
                                (beautify (PurePath.stem (Path filepath))))],
         Returned tt)
    | Raised e =>
        (Log INFO ("Converting to SVG " +:+ PurePath.to_string (Path filepath))
           :: trace (afdesign_to_svg (Path_ (Path filepath)) w),
         Raised e)
    end.
Proof.
  intros Hsuf. unfold maybe_recompile_figure, convert_svg_to_pdf_tex. rewrite Hsuf.
  unfold afdesign_to_svg. eff_unfold. simpl.
  destruct (path_exists w _); simpl;
    repeat match goal with
           | |- context [remove_ok w ?p] => destruct (remove_ok w p); simpl
           | |- context [osascript_status w] => destruct (osascript_status w); simpl
           end; reflexivity.
Qed.

(** The trigger returns unless [afdesign_to_svg] raises. *)
Lemma maybe_recompile_figure_returns (cfg : user_config) (w : world) (filepath : str_or_path) :
  (PurePath.suffix (Path filepath) = ".afdesign" →
   outcome (afdesign_to_svg (Path_ (Path filepath)) w) = Returned tt) →
  outcome (maybe_recompile_figure cfg filepath w) = Returned tt.
Proof.
  intros Hexport.
  destruct (decide (PurePath.suffix (Path filepath) = ".svg")) as [Hsvg|Hsvg].
  { by rewrite maybe_recompile_figure_svg. }
  destruct (decide (PurePath.suffix (Path filepath) = ".afdesign")) as [Hafd|Hafd].
  { rewrite maybe_recompile_figure_afdesign by done. by rewrite (Hexport Hafd). }
  rewrite maybe_recompile_figure_other; [done|].
  rewrite !elem_of_cons, elem_of_nil. tauto.
Qed.

(** C1, on the code.  A change to an [.svg] file makes [maybe_recompile_figure]
    write the snippet to the clipboard and nothing else: the guard before
    [convert_svg_to_pdf_tex] lets only suffixes other than [.svg] through.
    In the scenario (store [/figs], three events for [/figs/diagram.svg] 100ms
    apart, one second of quiet) the trigger runs once, the clipboard holds the
    snippet for [diagram] titled [Diagram], and the converter is started zero
    times. *)
Theorem svg_change_is_not_converted :
  maybe_recompile_figure no_config (Str_ "/figs/diagram.svg") figs_world
    = ([ClipboardCopy (latex_template "diagram" "Diagram")], Returned tt)
  ∧
  let disk := fun _ : Q => figs_world in
  let events := [(0, "/figs/diagram.svg"); (1 # 10, "/figs/diagram.svg");
                 (2 # 10, "/figs/diagram.svg")]%Q in
  let final := Fswatch.elapse ((2 # 10) + Fswatch.debounce_seconds)%Q
                 (Fswatch.run disk (Fswatch.start disk 0) events) in
  argument <$> Fswatch.invocations final = [Str_ "/figs/diagram.svg"] ∧
  conversion_calls no_config disk (Fswatch.invocations final)
    = [ClipboardCopy (latex_template "diagram" "Diagram")] ∧
  List.filter is_converter_invocation
    (conversion_calls no_config disk (Fswatch.invocations final)) = [].
Proof. vm_compute. done. Qed.

(** C8.  A path whose suffix is neither [.svg] nor [.afdesign] makes
    [maybe_recompile_figure] log one debug message and return: the
    converter is not started and the clipboard is not written. *)
Theorem unsupported_extension_ignored
    (cfg : user_config) (w : world) (filepath : str_or_path) :
  PurePath.suffix (Path filepath) ∉ [".svg"; ".afdesign"] →
  let r := maybe_recompile_figure cfg filepath w in
  trace r = [Log DEBUG ("File has changed, but is supported "
                        +:+ PurePath.suffix (Path filepath))] ∧
  outcome r = Returned tt ∧
  List.filter is_converter_invocation (trace r) = [] ∧
  List.filter is_clipboard_write (trace r) = [].
Proof.
  intros Hsuf r. subst r. rewrite maybe_recompile_figure_other by done. done.
Qed.

Lemma unsupported_extension_ignored_witness :
  let r := maybe_recompile_figure no_config (Str_ "/figs/notes.txt") figs_world in
  trace r = [Log DEBUG "File has changed, but is supported .txt"] ∧
  outcome r = Returned tt ∧
  List.filter is_converter_invocation (trace r) = [] ∧
  List.filter is_clipboard_write (trace r) = [].
Proof.
  apply (unsupported_extension_ignored no_config figs_world (Str_ "/figs/notes.txt")).
  vm_compute. intros H. repeat (apply elem_of_cons in H as [H|H]; [discriminate H|]).
  by apply elem_of_nil in H.
Defined.

Lemma convert_svg_to_pdf_tex_trace (cfg : user_config) (w : world) (filepath : PurePath.t)
    (version : string) (number : list Z) :
  PurePath.suffix filepath = ".svg" →
  version_output w = Some version →
  parse_inkscape_version (Str.universal_newlines version) w = ([], Returned number) →
  let pdf_path :=
    PurePath.joinpath (PurePath.parent filepath) (PurePath.stem filepath +:+ ".pdf") in
  let command := build_command number filepath pdf_path in
  convert_svg_to_pdf_tex cfg filepath w =
    ([Log INFO ("Recompiling " +:+ PurePath.to_string filepath);
      CheckOutput ["inkscape"; "--version"];
      Log DEBUG (Str.universal_newlines version);
      Log DEBUG "Running command:";
      Log DEBUG (Str.join " " command);
      Run command;
      (if decide (returncode w command ≠ 0%Z)
       then Log ERROR ("Return code " +:+ pretty (returncode w command))
       else Log DEBUG "Command succeeded");
      ClipboardCopy (bound_latex_template cfg (PurePath.stem filepath)
                       (beautify (PurePath.stem filepath)))],
     Returned tt).
Proof.
  intros Hsuf Hver Hparse pdf_path command.
  unfold convert_svg_to_pdf_tex. rewrite Hsuf. simpl.
  eff_unfold. rewrite Hver. simpl. rewrite Hparse. simpl.
  fold pdf_path. fold command.
  destruct (decide (returncode w command ≠ 0%Z)); reflexivity.
Qed.

(** C10 fails as stated for [.afdesign] files: on a machine without
    [osascript] the exception of [subprocess.run] leaves
    [maybe_recompile_figure] before [pyperclip.copy] is reached, and nothing
    is written to the clipboard. *)
Lemma afdesign_without_osascript_no_clipboard :
  let r := maybe_recompile_figure no_config (Str_ "/figs/logo.afdesign") no_osascript_world in
  PurePath.suffix (Path (Str_ "/figs/logo.afdesign")) ∈ [".svg"; ".afdesign"] ∧
  outcome r = Raised OSError ∧
  List.filter is_clipboard_write (trace r) = [] ∧
  trace r = [Log INFO "Converting to SVG /figs/logo.afdesign"; Osascript "/figs"].
Proof.
  vm_compute. split_and!; try reflexivity. apply list_elem_of_further, list_elem_of_here.
Qed.

(** C10, amended.  For an [.svg] path [maybe_recompile_figure] makes one
    call, which writes the inclusion snippet to the clipboard, in every
    world.  For an [.afdesign] path it writes the snippet, as its last call,
    exactly when [afdesign_to_svg] returns, that is when the removal of an
    existing export succeeds and [osascript] can be started, whatever the exit
    status of [osascript]; when one of the two raises, the exception leaves the
    trigger and nothing is written.  In neither case is the converter
    started.  And when [convert_svg_to_pdf_tex] itself runs on an [.svg] file
    and gets as far as the converter, it writes the snippet whatever the exit
    status, logging an error when the status is not zero.  A clipboard write
    therefore tells nothing about a conversion. *)
Theorem clipboard_written_without_conversion
    (cfg : user_config) (w : world) (filepath : str_or_path) :
  let stem := PurePath.stem (Path filepath) in
  let snippet := ClipboardCopy (bound_latex_template cfg stem (beautify stem)) in
  let r := maybe_recompile_figure cfg filepath w in
  let source := PurePath.absolute (cwd w) (Path filepath) in
  let export_path :=
    PurePath.to_string
      (PurePath.joinpath (PurePath.parent source) (PurePath.stem source +:+ ".svg")) in
  (PurePath.suffix (Path filepath) = ".svg" → r = ([snippet], Returned tt))
  ∧
  (PurePath.suffix (Path filepath) = ".afdesign" →
   if path_exists w export_path && negb (remove_ok w export_path)
   then outcome r = Raised OSError ∧ List.filter is_clipboard_write (trace r) = []
   else match osascript_status w with
        | Some _ => outcome r = Returned tt ∧ last (trace r) = Some snippet
        | None => outcome r = Raised OSError ∧ List.filter is_clipboard_write (trace r) = []
        end)
  ∧
  (PurePath.suffix (Path filepath) ∈ [".svg"; ".afdesign"] →
   List.filter is_converter_invocation (trace r) = [])
  ∧
  (∀ (version : string) (number : list Z),
     PurePath.suffix (Path filepath) = ".svg" →
     version_output w = Some version →
     parse_inkscape_version (Str.universal_newlines version) w = ([], Returned number) →
     let command :=
       build_command number (Path filepath)
         (PurePath.joinpath (PurePath.parent (Path filepath)) (stem +:+ ".pdf")) in
     outcome (convert_svg_to_pdf_tex cfg (Path filepath) w) = Returned tt ∧
     last (trace (convert_svg_to_pdf_tex cfg (Path filepath) w)) = Some snippet ∧
     Run command ∈ trace (convert_svg_to_pdf_tex cfg (Path filepath) w) ∧
     (returncode w command ≠ 0%Z →
      Log ERROR ("Return code " +:+ pretty (returncode w command))
        ∈ trace (convert_svg_to_pdf_tex cfg (Path filepath) w))).
Proof.
  intros stem snippet r source export_path. split_and!.
  - intros Hsvg. subst r. by rewrite maybe_recompile_figure_svg.
  - intros Hafd. subst r. rewrite maybe_recompile_figure_afdesign by done.
    pose proof (afdesign_to_svg_outcome w (Path_ (Path filepath))) as Hout.
    destruct (afdesign_to_svg_trace w (Path_ (Path filepath))) as [_ Hclip].
    cbn zeta in Hout. change (Path (Path_ (Path filepath))) with (Path filepath) in Hout.
    fold source in Hout. fold export_path in Hout. rewrite Hout.
    destruct (path_exists w export_path && negb (remove_ok w export_path)).
    { unfold outcome, trace at 1. simpl. by rewrite Hclip. }
    destruct (osascript_status w).
    + unfold outcome, trace at 1. simpl. split; [done|].
      rewrite app_comm_cons.
      by rewrite (last_app_cons _ _ (Log INFO ("Recompiling "
                    +:+ PurePath.to_string (Path filepath)))).
    + unfold outcome, trace at 1. simpl. by rewrite Hclip.
  - intros Hsuf. subst r. apply elem_of_cons in Hsuf as [Hsvg|Hsuf].
    { by rewrite maybe_recompile_figure_svg. }
    apply list_elem_of_singleton in Hsuf.
    rewrite maybe_recompile_figure_afdesign by done.
    destruct (afdesign_to_svg_trace w (Path_ (Path filepath))) as [Hconv _].
    destruct (outcome (afdesign_to_svg (Path_ (Path filepath)) w));
      unfold trace at 1; simpl; [|done].
    by rewrite List.filter_app, Hconv.
  - intros version number Hsvg Hver Hparse command.
    rewrite (convert_svg_to_pdf_tex_trace cfg w (Path filepath) version number) by done.
    fold stem. fold command. unfold outcome, trace. simpl.
    split_and!; [done|done| |].
    + rewrite !elem_of_cons. auto 10.
    + intros Hrc. rewrite decide_True by done. rewrite !elem_of_cons. auto 10.
Qed.

Lemma clipboard_written_without_conversion_witness :
  let snippet name title := Some (ClipboardCopy (latex_template name title)) in
  (let r := maybe_recompile_figure no_config (Str_ "/figs/diagram.svg")
              (sample_world "Inkscape 0.92.4 (unknown)" 3) in
   r = ([ClipboardCopy (latex_template "diagram" "Diagram")], Returned tt))
  ∧
  (let r := maybe_recompile_figure no_config (Str_ "/figs/logo.afdesign")
              failing_osascript_world in
   outcome r = Returned tt ∧ last (trace r) = snippet "logo" "Logo" ∧
   List.filter is_converter_invocation (trace r) = [])
  ∧
  (let r := maybe_recompile_figure no_config (Str_ "/figs/logo.afdesign")
              no_osascript_world in
   outcome r = Raised OSError ∧ List.filter is_clipboard_write (trace r) = [])
  ∧
  (let c := convert_svg_to_pdf_tex no_config (PurePath.of_string "/figs/diagram.svg")
              (sample_world "Inkscape 0.92.4 (unknown)" 3) in
   last (trace c) = snippet "diagram" "Diagram" ∧ Log ERROR "Return code 3" ∈ trace c).
Proof.
  intros snippet.
  pose proof (clipboard_written_without_conversion no_config
                (sample_world "Inkscape 0.92.4 (unknown)" 3) (Str_ "/figs/diagram.svg"))
    as (Hsvg & _ & _ & Hc).
  pose proof (clipboard_written_without_conversion no_config
                failing_osascript_world (Str_ "/figs/logo.afdesign"))
    as (_ & Hstatus & Hnone & _).
  pose proof (clipboard_written_without_conversion no_config
                no_osascript_world (Str_ "/figs/logo.afdesign"))
    as (_ & Habsent & _ & _).
  specialize (Hstatus eq_refl). specialize (Habsent eq_refl).
  cbn [failing_osascript_world no_osascript_world path_exists remove_ok osascript_status
       andb negb] in Hstatus, Habsent.
  cbn zeta. split_and!.
  - exact (Hsvg eq_refl).
  - exact (proj1 Hstatus).
  - exact (proj2 Hstatus).
  - apply Hnone. vm_compute. apply list_elem_of_further, list_elem_of_here.
  - exact (proj1 Habsent).
  - exact (proj2 Habsent).
  - destruct (Hc "Inkscape 0.92.4 (unknown)" [0; 92; 4]%Z eq_refl eq_refl eq_refl)
      as (_ & Hlast & _ & _). exact Hlast.
  - destruct (Hc "Inkscape 0.92.4 (unknown)" [0; 92; 4]%Z eq_refl eq_refl eq_refl)
      as (_ & _ & _ & Herr). apply Herr. vm_compute. discriminate.
Defined.

(** C7.  The version strings ["0.92.4"], ["1.1-dev"] and ["1.0rc1"] parse
    to [[0,92,4]], [[1,1,0]] and [[1,0,0]]; the first gets the legacy
    argument layout and the other two the modern one; in general a triple
    gets the legacy layout exactly when it is below [(1,0,0)] in
    lexicographic order, and the two layouts differ. *)
Theorem version_gated_command_layout (w : world) (filepath pdf_path : PurePath.t) :
  (parse_inkscape_version "0.92.4" w = ([], Returned [0; 92; 4]%Z) ∧
   build_command [0; 92; 4]%Z filepath pdf_path = legacy_command filepath pdf_path) ∧
  (parse_inkscape_version "1.1-dev" w = ([], Returned [1; 1; 0]%Z) ∧
   build_command [1; 1; 0]%Z filepath pdf_path = modern_command filepath pdf_path) ∧
  (parse_inkscape_version "1.0rc1" w = ([], Returned [1; 0; 0]%Z) ∧
   build_command [1; 0; 0]%Z filepath pdf_path = modern_command filepath pdf_path) ∧
  (∀ major minor patch : Z,
     build_command [major; minor; patch] filepath pdf_path =
       if ((major <? 1) || (major =? 1) && ((minor <? 0) || (minor =? 0) && (patch <? 0)))%Z
       then legacy_command filepath pdf_path
       else modern_command filepath pdf_path) ∧
  legacy_command filepath pdf_path ≠ modern_command filepath pdf_path.
Proof.
  split_and!; try reflexivity.
  - intros major minor patch. unfold build_command, list_lt.
    destruct (major =? 1)%Z eqn:E1, (major <? 1)%Z eqn:E2,
      (minor =? 0)%Z eqn:E3, (minor <? 0)%Z eqn:E4,
      (patch =? 0)%Z eqn:E5, (patch <? 0)%Z eqn:E6; simpl; try reflexivity; lia.
  - intros Heq. apply (f_equal length) in Heq. discriminate Heq.
Qed.

(** ** RootStore *)

Lemma get_roots_unfold (w : world) :
  get_roots w =
    (if decide (cwd w ∈ persisted w) then persisted w else persisted w ++ [cwd w], w).
Proof. reflexivity. Qed.

Lemma add_root_unfold (path : str_or_path) (w : world) :
  add_root path w =
    if decide (str path ∈ (get_roots w).1) then (tt, w)
    else (tt, set_roots_text (Str.join (String Str.LF "") ((get_roots w).1 ++ [str path])) w).
Proof.
  unfold add_root, mbind, IO_bind. rewrite get_roots_unfold. simpl.
  by destruct (decide (str path ∈ _)).
Qed.

Lemma cwd_in_get_roots (w : world) : cwd w ∈ (get_roots w).1.
Proof.
  rewrite get_roots_unfold. simpl. case_decide; [done|].
  apply elem_of_app. right. apply list_elem_of_here.
Qed.

(** C3 fails as stated: with an empty store and working directory
    [/home/user], registering [/figs] writes both [/home/user] and [/figs]
    to the roots file, so the working directory has become a persisted
    entry. *)
Lemma add_root_persists_cwd :
  let w := empty_store "/home/user" in
  (cwd w ∉ persisted w) ∧
  persisted (add_root (Str_ "/figs") w).2 = ["/home/user"; "/figs"] ∧
  cwd w ∈ persisted (add_root (Str_ "/figs") w).2.
Proof.
  vm_compute. split_and!; [|done|].
  - intros H. by apply elem_of_nil in H.
  - apply list_elem_of_here.
Qed.

(** C3, amended.  [get_roots] returns a list that contains the working
    directory, whatever the roots file holds, and [get_roots] itself leaves
    the file as it is.  [add_root] writes nothing when the path is already
    in that list; otherwise it rewrites the file with the whole list
    [get_roots] returned, working directory included, followed by the
    path. *)
Theorem cwd_always_listed (w : world) (path : str_or_path) :
  cwd w ∈ (get_roots w).1 ∧
  (get_roots w).2 = w ∧
  (str path ∈ (get_roots w).1 → (add_root path w).2 = w) ∧
  (str path ∉ (get_roots w).1 →
   roots_text (add_root path w).2 =
     Str.join (String Str.LF "") ((get_roots w).1 ++ [str path])).
Proof.
  split_and!.
  - apply cwd_in_get_roots.
  - reflexivity.
  - intros Hin. rewrite add_root_unfold. by rewrite decide_True.
  - intros Hin. rewrite add_root_unfold. by rewrite decide_False.
Qed.

Lemma cwd_always_listed_witness :
  let w := empty_store "/home/user" in
  cwd w ∈ (get_roots w).1 ∧
  (add_root (Str_ "/home/user") w).2 = w ∧
  roots_text (add_root (Str_ "/figs") w).2 = "/home/user" +:+ String Str.LF "/figs".
Proof.
  intros w.
  destruct (cwd_always_listed w (Str_ "/home/user")) as (Hcwd & _ & Hold & _).
  destruct (cwd_always_listed w (Str_ "/figs")) as (_ & _ & _ & Hnew).
  split_and!.
  - exact Hcwd.
  - apply Hold. vm_compute. apply list_elem_of_here.
  - rewrite Hnew; [reflexivity|].
    vm_compute. intros H. apply list_elem_of_singleton in H. discriminate H.
Defined.

(** ** The native backend *)

Lemma register_roots_spec (w : world) (todo : list string) (st : Inotify.state) :
  Inotify.roots (Inotify.register_roots w todo st) = Inotify.roots st ∧
  Inotify.invocations (Inotify.register_roots w todo st) = Inotify.invocations st ∧
  Inotify.watches (Inotify.register_roots w todo st)
    = Inotify.watches st ++ List.filter (watch_ok w) todo ∧
  Inotify.journal (Inotify.register_roots w todo st)
    = Inotify.journal st ++
      flat_map (fun root => if watch_ok w root then [AddWatch root]
                            else [Log DEBUG ("Could not add root " +:+ root)]) todo.
Proof.
  revert st. induction todo as [|root rest IH]; intros st; simpl.
  { by rewrite !app_nil_r. }
  unfold Inotify.add_watch.
  destruct (watch_ok w root); simpl.
  - destruct (IH {| Inotify.roots := Inotify.roots st;
                    Inotify.watches := Inotify.watches st ++ [root];
                    Inotify.invocations := Inotify.invocations st;
                    Inotify.journal := Inotify.journal st ++ [AddWatch root] |})
      as (-> & -> & -> & ->).
    simpl. by rewrite <- !app_assoc.
  - destruct (IH (Inotify.record [Log DEBUG ("Could not add root " +:+ root)] st))
      as (-> & -> & -> & ->).
    simpl. by rewrite <- !app_assoc.
Qed.

(** C9.  When the watch on the roots file itself is accepted, building the
    watch set returns normally whatever roots are refused: the notifier
    watches the roots file and every root it accepts, in order, also those
    listed after a refused one; each refused root is logged and left out; and
    the daemon goes on to the event loop, where the next event for a figure
    is handed to the trigger and only an exception of the trigger ends the
    daemon. *)
Theorem failed_registration_is_skipped
    (cfg : user_config) (disk : Q → world) (now : Q) (st : Inotify.state) :
  let w := disk now in
  let roots := (get_roots w).1 in
  watch_ok w (PurePath.to_string roots_file) = true →
  ∃ st' : Inotify.state,
    Inotify.build disk now st = Returned st' ∧
    Inotify.roots st' = roots ∧
    Inotify.watches st' = PurePath.to_string roots_file :: List.filter (watch_ok w) roots ∧
    (∀ root, root ∈ roots → watch_ok w root = true → root ∈ Inotify.watches st') ∧
    (∀ root, root ∈ roots → watch_ok w root = false →
       (root ∉ List.filter (watch_ok w) roots) ∧
       Log DEBUG ("Could not add root " +:+ root) ∈ Inotify.journal st') ∧
    (∀ (later : Q) (path filename : string),
       path ≠ PurePath.to_string roots_file →
       match outcome (maybe_recompile_figure cfg
                        (Path_ (PurePath.joinpath (PurePath.of_string path) filename))
                        (disk later)) with
       | Returned _ =>
           ∃ st'', Inotify.handle_event cfg disk later path filename st' = Returned st'' ∧
                   Inotify.watches st'' = Inotify.watches st'
       | Raised e => Inotify.handle_event cfg disk later path filename st' = Raised e
       end).
Proof.
  intros w roots Hfile. unfold Inotify.build, Inotify.add_watch.
  fold w. rewrite Hfile. fold roots.
  eexists. split; [reflexivity|].
  match goal with |- context [Inotify.register_roots w roots ?s] =>
    destruct (register_roots_spec w roots s) as (Hr & _ & Hw & Hj) end.
  rewrite Hr, Hw, Hj. simpl. split_and!; [done|done| | |].
  - intros root Hin Hok. apply elem_of_cons. right.
    apply list_elem_of_In, List.filter_In. by rewrite <- list_elem_of_In.
  - intros root Hin Hok. split.
    + rewrite list_elem_of_In, List.filter_In. intros [_ Hyes]. congruence.
    + apply elem_of_app. right.
      apply list_elem_of_In, in_flat_map. exists root.
      rewrite <- list_elem_of_In. split; [done|]. rewrite Hok.
      apply list_elem_of_In, list_elem_of_here.
  - intros later path filename Hpath. unfold Inotify.handle_event.
    rewrite decide_False by done. unfold Path.
    destruct (outcome (maybe_recompile_figure cfg _ (disk later))); eauto.
Qed.

Lemma failed_registration_is_skipped_witness :
  ∃ st' : Inotify.state,
    Inotify.build (fun _ => vanished_world) 0 Inotify.initial = Returned st' ∧
    Inotify.watches st' =
      ["/Users/marcos/.config/pdftex-figures/roots"; "/figs"; "/home/user"] ∧
    Log DEBUG "Could not add root /gone" ∈ Inotify.journal st'.
Proof.
  destruct (failed_registration_is_skipped no_config (fun _ => vanished_world) 0
              Inotify.initial eq_refl)
    as (st' & Hbuild & _ & Hwatches & _ & Hlogged & _).
  exists st'. split_and!.
  - exact Hbuild.
  - exact Hwatches.
  - apply (Hlogged "/gone"); [|reflexivity].
    vm_compute. apply list_elem_of_here.
Defined.

(** ** Dispatch of events *)

(** C4, on the code.  The native backend has no debouncer.  An event for
    [diagram.svg] in [/figs], which is not the roots file, makes the main
    loop of [watch_daemon_inotify] call [maybe_recompile_figure] at once, and
    three events 100ms apart give three calls; the polling backend, fed the
    same three reports, hands each to the debouncer and calls the trigger
    once, [debounce_seconds] after the last. *)
Theorem inotify_event_bypasses_debouncer :
  let disk := fun _ : Q => figs_world in
  "/figs" ≠ PurePath.to_string roots_file ∧
  (∃ st st',
     Inotify.start disk 0 = Returned st ∧
     Inotify.handle_event no_config disk 0 "/figs" "diagram.svg" st = Returned st' ∧
     Inotify.invocations st' =
       [{| fired_at := 0; fired_by := None;
           argument := Path_ (PurePath.of_string "/figs/diagram.svg") |}]) ∧
  (∃ st,
     Inotify.run no_config disk (Inotify.start disk 0)
       [(0, ("/figs", "diagram.svg")); (1 # 10, ("/figs", "diagram.svg"));
        (2 # 10, ("/figs", "diagram.svg"))]%Q = Returned st ∧
     fired_at <$> Inotify.invocations st = [0; 1 # 10; 2 # 10]%Q) ∧
  (let st :=
     Fswatch.run disk (Fswatch.start disk 0)
       [(0, "/figs/diagram.svg"); (1 # 10, "/figs/diagram.svg");
        (2 # 10, "/figs/diagram.svg")]%Q in
   Fswatch.invocations st = [] ∧
   Fswatch.invocations (Fswatch.elapse 2 st) =
     [{| fired_at := (2 # 10) + Fswatch.debounce_seconds; fired_by := Some 2;
         argument := Str_ "/figs/diagram.svg" |}]).
Proof.
  intros disk. split_and!.
  - discriminate.
  - do 2 eexists. split_and!; vm_compute; reflexivity.
  - eexists. split; vm_compute; reflexivity.
  - split; vm_compute; reflexivity.
Qed.

(** ** Lines of the roots file *)

Lemma split_no_sep (c : ascii) (x : string) :
  Str.mem c x = false → Str.split c x = [x].
Proof.
  induction x as [|a x IH]; simpl; [done|].
  intros H. apply orb_false_iff in H as [Ha Hx].
  rewrite Ha, IH by done. done.
Qed.

Lemma split_app_sep (c : ascii) (x s : string) :
  Str.mem c x = false → Str.split c (x +:+ String c s) = x :: Str.split c s.
Proof.
  induction x as [|a x IH]; simpl.
  { intros _. by rewrite Ascii.eqb_refl. }
  intros H. apply orb_false_iff in H as [Ha Hx].
  rewrite Ha, IH by done. done.
Qed.

Lemma split_elem_no_sep (c : ascii) (s x : string) :
  x ∈ Str.split c s → Str.mem c x = false.
Proof.
  revert x. induction s as [|a s IH]; simpl; intros x Hx.
  { apply list_elem_of_singleton in Hx. by subst. }
  destruct (Ascii.eqb a c) eqn:Ha.
  - apply elem_of_cons in Hx as [->|Hx]; [done|by apply IH].
  - destruct (Str.split c s) as [|y ys].
    + apply list_elem_of_singleton in Hx. subst. simpl. by rewrite Ha.
    + apply elem_of_cons in Hx as [->|Hx].
      * simpl. rewrite Ha. apply IH, list_elem_of_here.
      * apply IH. by apply list_elem_of_further.
Qed.

Lemma split_elem_mem (c d : ascii) (s x : string) :
  x ∈ Str.split c s → Str.mem d x = true → Str.mem d s = true.
Proof.
  revert x. induction s as [|a s IH]; simpl; intros x Hx Hd.
  { apply list_elem_of_singleton in Hx. by subst. }
  destruct (Ascii.eqb a c) eqn:Ha.
  - apply elem_of_cons in Hx as [->|Hx]; [done|].
    rewrite (IH x) by done. apply orb_true_r.
  - destruct (Str.split c s) as [|y ys].
    + apply list_elem_of_singleton in Hx. subst. simpl in Hd.
      rewrite orb_false_r in Hd. by rewrite Hd.
    + apply elem_of_cons in Hx as [->|Hx].
      * simpl in Hd. apply orb_true_iff in Hd as [->|Hd]; [done|].
        rewrite (IH y); [apply orb_true_r|apply list_elem_of_here|done].
      * rewrite (IH x); [apply orb_true_r|by apply list_elem_of_further|done].
Qed.

Lemma universal_newlines_no_CR (s : string) :
  Str.mem Str.CR (Str.universal_newlines s) = false.
Proof.
  cut (Str.mem Str.CR (Str.universal_newlines s) = false ∧
       ∀ a, Str.mem Str.CR (Str.universal_newlines (String a s)) = false).
  { tauto. }
  induction s as [|b s [IH1 IH2]].
  - split; [done|]. intros a. simpl.
    destruct (Ascii.eqb a Str.CR) eqn:Ha; simpl; [done|by rewrite Ha].
  - split; [apply IH2|]. intros a.
    change (Str.universal_newlines (String a (String b s))) with
      (if Ascii.eqb a Str.CR then
         if Ascii.eqb b Str.LF then String Str.LF (Str.universal_newlines s)
         else String Str.LF (Str.universal_newlines (String b s))
       else String a (Str.universal_newlines (String b s))).
    destruct (Ascii.eqb a Str.CR) eqn:Ha.
    + destruct (Ascii.eqb b Str.LF); cbn [Str.mem]; [by rewrite IH1|by rewrite IH2].
    + cbn [Str.mem]. by rewrite Ha, IH2.
Qed.

Lemma universal_newlines_id (s : string) :
  Str.mem Str.CR s = false → Str.universal_newlines s = s.
Proof.
  induction s as [|a s IH]; [done|].
  intros H. cbn [Str.mem] in H. apply orb_false_iff in H as [Ha Hs].
  cbn [Str.universal_newlines]. rewrite Ha. by rewrite IH.
Qed.

Lemma mem_append (c : ascii) (a b : string) :
  Str.mem c (a +:+ b) = Str.mem c a || Str.mem c b.
Proof.
  induction a as [|x a IH]; simpl; [done|]. by rewrite IH, orb_assoc.
Qed.

Lemma mem_join_LF (c : ascii) (l : list string) :
  Ascii.eqb Str.LF c = false →
  Forall (fun x => Str.mem c x = false) l →
  Str.mem c (Str.join (String Str.LF "") l) = false.
Proof.
  intros Hc. induction 1 as [|x l Hx Hl IH]; [done|].
  unfold Str.join in *. destruct l as [|y l]; [done|].
  change (String.concat (String Str.LF "") (x :: y :: l))
    with (x +:+ String Str.LF "" +:+ String.concat (String Str.LF "") (y :: l)).
  rewrite !mem_append, Hx, IH. cbn [Str.mem]. by rewrite Hc.
Qed.

Lemma split_join_LF (l : list string) :
  l ≠ [] →
  Forall (fun x => Str.mem Str.LF x = false) l →
  Str.split Str.LF (Str.join (String Str.LF "") l) = l.
Proof.
  intros Hne Hall. induction Hall as [|x l Hx Hl IH]; [done|].
  unfold Str.join in *. destruct l as [|y l].
  { simpl. by apply split_no_sep. }
  change (String.concat (String Str.LF "") (x :: y :: l))
    with (x +:+ String Str.LF (String.concat (String Str.LF "") (y :: l))).
  rewrite split_app_sep by done. by rewrite IH.
Qed.

Lemma filter_nonempty_id (l : list string) :
  Forall (fun x => x ≠ "") l → filter (fun root => root ≠ "") l = l.
Proof.
  induction 1 as [|x l Hx Hl IH]; [done|].
  by rewrite filter_cons_True, IH.
Qed.

(** Writing a list of one-line entries and reading the file back gives the
    list again. *)
Lemma persisted_written (l : list string) (w : world) :
  Forall one_line l →
  persisted (set_roots_text (Str.join (String Str.LF "") l) w) = l.
Proof.
  intros Hl. unfold persisted. simpl.
  rewrite universal_newlines_id.
  2:{ apply mem_join_LF; [done|]. eapply Forall_impl; [exact Hl|]. by intros x (_ & _ & ?). }
  destruct l as [|x l]; [done|].
  rewrite split_join_LF; [|done|].
  2:{ eapply Forall_impl; [exact Hl|]. by intros y (_ & ? & _). }
  apply filter_nonempty_id. eapply Forall_impl; [exact Hl|]. by intros y (? & _).
Qed.

(** The entries read from the file are one-line strings. *)
Lemma persisted_one_line (w : world) : Forall one_line (persisted w).
Proof.
  apply Forall_forall. intros x Hx. unfold persisted in Hx.
  apply list_elem_of_filter in Hx as [Hne Hx]. split_and!; [done| |].
  - by apply split_elem_no_sep in Hx.
  - destruct (Str.mem Str.CR x) eqn:Hcr; [|done].
    pose proof (split_elem_mem _ _ _ _ Hx Hcr) as H.
    by rewrite universal_newlines_no_CR in H.
Qed.

Lemma get_roots_one_line (w : world) :
  one_line (cwd w) → Forall one_line (get_roots w).1.
Proof.
  intros Hcwd. rewrite get_roots_unfold. simpl. case_decide.
  - apply persisted_one_line.
  - apply Forall_app. split; [apply persisted_one_line|]. by apply Forall_singleton.
Qed.

Lemma filter_absent {A : Type} (P : A → Prop) `{∀ x, Decision (P x)} (l : list A) :
  (∀ x, x ∈ l → ¬ P x) → filter P l = [].
Proof.
  induction l as [|x l IH]; intros Hl; [done|].
  rewrite filter_cons_False by (apply Hl, list_elem_of_here).
  apply IH. intros y Hy. by apply Hl, list_elem_of_further.
Qed.

(** C6 fails as stated: with an empty store and working directory [/figs],
    registering [/figs] twice writes nothing, so the store holds no
    occurrence of the path. *)
Lemma add_root_cwd_never_written :
  let w := empty_store "/figs" in
  let w2 := (add_root (Str_ "/figs") (add_root (Str_ "/figs") w).2).2 in
  persisted w2 = [] ∧
  filter (fun root => root = "/figs") (persisted w2) ≠ ["/figs"].
Proof. vm_compute. split; [reflexivity|discriminate]. Qed.

(** C6, amended.  For a path and a working directory that are non-empty
    and without line break: a second [add_root] of the same path leaves the
    roots file as the first one left it.  When the path is already in the
    list [get_roots] returns (persisted entries and the working directory),
    the first call writes nothing either.  When it is not, the first call
    makes the persisted entries that list followed by the path: the earlier
    entries in their order, and the path once, at the end.  In both cases
    [get_roots] lists the path afterwards. *)
Theorem add_root_idempotent (w : world) (path : str_or_path) :
  one_line (str path) →
  one_line (cwd w) →
  let w1 := (add_root path w).2 in
  (add_root path w1).2 = w1 ∧
  (str path ∈ (get_roots w).1 → w1 = w) ∧
  (str path ∉ (get_roots w).1 →
   persisted w1 = (get_roots w).1 ++ [str path] ∧
   filter (fun root => root = str path) (persisted w1) = [str path]) ∧
  str path ∈ (get_roots w1).1.
Proof.
  intros Hpath Hcwd w1.
  destruct (decide (str path ∈ (get_roots w).1)) as [Hin|Hin].
  - assert (Hw1 : w1 = w).
    { subst w1. rewrite add_root_unfold. by rewrite decide_True. }
    rewrite Hw1. split_and!; [|done|done|done].
    rewrite add_root_unfold. by rewrite decide_True.
  - assert (Hw1 : w1 = set_roots_text
        (Str.join (String Str.LF "") ((get_roots w).1 ++ [str path])) w).
    { subst w1. rewrite add_root_unfold. by rewrite decide_False. }
    assert (Hpers : persisted w1 = (get_roots w).1 ++ [str path]).
    { rewrite Hw1. apply persisted_written, Forall_app.
      split; [by apply get_roots_one_line|by apply Forall_singleton]. }
    assert (Hroots : (get_roots w1).1 = persisted w1).
    { rewrite get_roots_unfold. simpl. rewrite decide_True; [done|].
      rewrite Hpers, Hw1. simpl. apply elem_of_app. left. apply cwd_in_get_roots. }
    assert (Hnow : str path ∈ (get_roots w1).1).
    { rewrite Hroots, Hpers. apply elem_of_app. right. apply list_elem_of_here. }
    split_and!; [|done| |done].
    + rewrite add_root_unfold. by rewrite decide_True.
    + intros _. split; [done|]. rewrite Hpers, filter_app.
      rewrite filter_absent by (intros x Hx ->; done).
      by rewrite filter_cons_True.
Qed.

Lemma add_root_idempotent_witness :
  let w := empty_store "/home/user" in
  let w1 := (add_root (Str_ "/figs") w).2 in
  (add_root (Str_ "/figs") w1).2 = w1 ∧
  persisted w1 = ["/home/user"; "/figs"] ∧
  filter (fun root => root = "/figs") (persisted w1) = ["/figs"].
Proof.
  intros w w1.
  assert (Hpath : one_line (str (Str_ "/figs"))) by (vm_compute; done).
  assert (Hcwd : one_line (cwd w)) by (vm_compute; done).
  destruct (add_root_idempotent w (Str_ "/figs") Hpath Hcwd) as (Hagain & _ & Hnew & _).
  assert (Hnotin : str (Str_ "/figs") ∉ (get_roots w).1).
  { vm_compute. intros H. apply list_elem_of_singleton in H. discriminate H. }
  destruct (Hnew Hnotin) as [Hpers Hone].
  split_and!; [exact Hagain|exact Hpers|exact Hone].
Defined.

(** ** The polling backend: the timer table *)

Lemma delete_if_present (m : gmap string nat) (k : string) :
  (if decide (is_Some (m !! k)) then delete k m else m) = delete k m.
Proof.
  case_decide as H; [done|].
  symmetry. apply delete_id. by apply eq_None_not_Some.
Qed.

(** What a timer thread does when it wakes. *)
Lemma wake_idle (now : Q) (st : Fswatch.state) (j : nat) :
  (∀ tm, Fswatch.timers st !! j = Some tm →
         Qle_bool (deadline tm) now = false ∨ finished tm = true) →
  Fswatch.wake now st j = st.
Proof.
  intros H. unfold Fswatch.wake, Fswatch.timer_run.
  destruct (Fswatch.timers st !! j) as [tm|]; [|done].
  destruct (H tm eq_refl) as [-> | ->]; [done|].
  by destruct (Qle_bool _ _).
Qed.

Lemma wake_fire (now : Q) (st : Fswatch.state) (j : nat) (tm : Timer) :
  Fswatch.timers st !! j = Some tm →
  Qle_bool (deadline tm) now = true →
  finished tm = false →
  Fswatch.wake now st j =
    {| Fswatch.timers := <[j := set_finished tm]> (Fswatch.timers st);
       Fswatch.pending_timers := delete (args tm) (Fswatch.pending_timers st);
       Fswatch.roots := Fswatch.roots st;
       Fswatch.invocations := Fswatch.invocations st ++
         [{| fired_at := deadline tm; fired_by := Some j; argument := Str_ (args tm) |}];
       Fswatch.journal := Fswatch.journal st |}.
Proof.
  intros Hj Hdue Hlive. unfold Fswatch.wake, Fswatch.timer_run.
  rewrite Hj, Hdue, Hlive. unfold Fswatch.timer_call, Fswatch.debounced_compile. simpl.
  by rewrite delete_if_present.
Qed.

(** Either nothing happens or timer [j] fires. *)
Lemma wake_cases (now : Q) (st : Fswatch.state) (j : nat) :
  Fswatch.wake now st j = st ∨
  ∃ tm, Fswatch.timers st !! j = Some tm ∧
        Qle_bool (deadline tm) now = true ∧
        finished tm = false ∧
        Fswatch.wake now st j =
          {| Fswatch.timers := <[j := set_finished tm]> (Fswatch.timers st);
             Fswatch.pending_timers := delete (args tm) (Fswatch.pending_timers st);
             Fswatch.roots := Fswatch.roots st;
             Fswatch.invocations := Fswatch.invocations st ++
               [{| fired_at := deadline tm; fired_by := Some j;
                   argument := Str_ (args tm) |}];
             Fswatch.journal := Fswatch.journal st |}.
Proof.
  destruct (Fswatch.timers st !! j) as [tm|] eqn:Hj.
  2:{ left. apply wake_idle. intros tm. by rewrite Hj. }
  destruct (Qle_bool (deadline tm) now) eqn:Hdue.
  2:{ left. apply wake_idle. intros tm'. rewrite Hj. intros [= <-]. by left. }
  destruct (finished tm) eqn:Hfin.
  { left. apply wake_idle. intros tm'. rewrite Hj. intros [= <-]. by right. }
  right. exists tm. split_and!; [done..|]. by apply wake_fire.
Qed.

Lemma wake_length (now : Q) (st : Fswatch.state) (j : nat) :
  length (Fswatch.timers (Fswatch.wake now st j)) = length (Fswatch.timers st).
Proof.
  destruct (wake_cases now st j) as [->|(tm & _ & _ & _ & ->)]; [done|].
  simpl. apply length_insert.
Qed.

Lemma wake_consistent (now : Q) (st : Fswatch.state) (j : nat) :
  consistent st → consistent (Fswatch.wake now st j).
Proof.
  intros (Hpl & Hlp & Hff).
  destruct (wake_cases now st j) as [->|(tm & Hj & _ & Hlive & ->)]; [done|].
  pose proof (lookup_lt_Some _ _ _ Hj) as Hlt.
  pose proof (Hlp j tm Hj Hlive) as Hpend.
  split_and!.
  - intros p i. simpl. intros Hp.
    apply lookup_delete_Some in Hp as [Hne Hp].
    destruct (Hpl p i Hp) as (tm' & Hi & Hargs & Hfin).
    exists tm'. split_and!; [|done..].
    rewrite list_lookup_insert_ne; [done|]. intros ->. congruence.
  - intros i tm'. simpl. intros Hi Hfin.
    destruct (decide (i = j)) as [->|Hij].
    { rewrite list_lookup_insert_eq in Hi by done. by injection Hi as <-. }
    rewrite list_lookup_insert_ne in Hi by done.
    pose proof (Hlp i tm' Hi Hfin) as Hp.
    rewrite lookup_delete_ne; [done|]. intros Heq. congruence.
  - intros inv i. simpl. intros Hinv Hby.
    apply elem_of_app in Hinv as [Hinv|Hinv].
    + destruct (Hff inv i Hinv Hby) as (tm' & Hi & Hfin).
      destruct (decide (i = j)) as [->|Hij].
      * exists (set_finished tm). by rewrite list_lookup_insert_eq.
      * exists tm'. by rewrite list_lookup_insert_ne.
    + apply list_elem_of_singleton in Hinv. subst inv. simpl in Hby.
      injection Hby as <-. exists (set_finished tm). by rewrite list_lookup_insert_eq.
Qed.

Lemma wakes_consistent (now : Q) (l : list nat) (st : Fswatch.state) :
  consistent st → consistent (foldl (Fswatch.wake now) st l).
Proof.
  revert st. induction l as [|j l IH]; intros st Hst; [done|].
  simpl. by apply IH, wake_consistent.
Qed.

Lemma elapse_consistent (now : Q) (st : Fswatch.state) :
  consistent st → consistent (Fswatch.elapse now st).
Proof. apply wakes_consistent. Qed.

Lemma cancel_lookup (k i : nat) (ts : list Timer) :
  Fswatch.cancel k ts !! i =
    (fun tm => if decide (k = i) then set_finished tm else tm) <$> ts !! i.
Proof.
  unfold Fswatch.cancel. destruct (decide (k = i)) as [->|Hne].
  - by rewrite list_lookup_alter_eq.
  - rewrite list_lookup_alter_ne by done. by destruct (ts !! i).
Qed.

Lemma cancel_length (k : nat) (ts : list Timer) :
  length (Fswatch.cancel k ts) = length ts.
Proof. apply length_alter. Qed.

Lemma cancels_lookup (l : list nat) (ts : list Timer) (i : nat) :
  foldr Fswatch.cancel ts l !! i =
    (fun tm => if decide (i ∈ l) then set_finished tm else tm) <$> ts !! i.
Proof.
  induction l as [|k l IH].
  { cbn [foldr]. destruct (ts !! i) as [tm|]; [|done].
    unfold fmap, option_fmap, option_map.
    by rewrite decide_False by apply not_elem_of_nil. }
  cbn [foldr]. rewrite cancel_lookup, IH. destruct (ts !! i) as [tm|]; simpl; [|done].
  f_equal. destruct (decide (k = i)) as [->|Hne].
  - rewrite (decide_True (P := i ∈ i :: l)) by apply list_elem_of_here.
    by destruct (decide (i ∈ l)).
  - destruct (decide (i ∈ l)) as [Hin|Hnin].
    + by rewrite decide_True by by apply list_elem_of_further.
    + rewrite decide_False; [done|]. by intros [?|?]%elem_of_cons.
Qed.

Lemma pending_values (m : gmap string nat) (i : nat) :
  i ∈ (map_to_list m).*2 ↔ ∃ p, m !! p = Some i.
Proof.
  rewrite list_elem_of_fmap. split.
  - intros ([p i'] & -> & Hin). exists p. by apply elem_of_map_to_list.
  - intros (p & Hp). exists (p, i). split; [done|]. by apply elem_of_map_to_list.
Qed.

(** The timers after [on_event]. *)
Lemma on_event_old_timer (now : Q) (path : string) (st : Fswatch.state) (i : nat) :
  i < length (Fswatch.timers st) →
  Fswatch.timers (Fswatch.on_event now path st) !! i =
    (fun tm => if decide (Fswatch.pending_timers st !! path = Some i)
               then set_finished tm else tm) <$> Fswatch.timers st !! i.
Proof.
  intros Hlt. unfold Fswatch.on_event. simpl.
  destruct (Fswatch.pending_timers st !! path) as [k|] eqn:Hk.
  - rewrite lookup_app_l by by rewrite cancel_length.
    rewrite cancel_lookup. destruct (Fswatch.timers st !! i) as [tm|]; simpl; [|done].
    f_equal. destruct (decide (k = i)) as [->|Hne]; [by rewrite decide_True|].
    rewrite decide_False; [done|]. by intros [= ?].
  - rewrite lookup_app_l by done.
    destruct (Fswatch.timers st !! i) as [tm|]; simpl; [|done].
    repeat case_decide; done.
Qed.

Lemma on_event_length (now : Q) (path : string) (st : Fswatch.state) :
  length (Fswatch.timers (Fswatch.on_event now path st)) = S (length (Fswatch.timers st)).
Proof.
  unfold Fswatch.on_event. simpl. rewrite length_app. simpl.
  destruct (Fswatch.pending_timers st !! path); rewrite ?cancel_length; lia.
Qed.

Lemma on_event_new_timer (now : Q) (path : string) (st : Fswatch.state) :
  Fswatch.pending_timers (Fswatch.on_event now path st) !! path
    = Some (length (Fswatch.timers st)) ∧
  Fswatch.timers (Fswatch.on_event now path st) !! length (Fswatch.timers st)
    = Some {| args := path; deadline := now + Fswatch.debounce_seconds; finished := false |}.
Proof.
  unfold Fswatch.on_event. simpl.
  assert (Hlen : length (match Fswatch.pending_timers st !! path with
                         | Some i => Fswatch.cancel i (Fswatch.timers st)
                         | None => Fswatch.timers st
                         end) = length (Fswatch.timers st)).
  { destruct (Fswatch.pending_timers st !! path); by rewrite ?cancel_length. }
  rewrite Hlen, lookup_insert_eq. split; [done|].
  rewrite <- Hlen at 1. by rewrite list_lookup_middle.
Qed.

Lemma on_event_pending_other (now : Q) (path other : string) (st : Fswatch.state) :
  path ≠ other →
  Fswatch.pending_timers (Fswatch.on_event now path st) !! other
    = Fswatch.pending_timers st !! other.
Proof.
  intros Hne. unfold Fswatch.on_event. simpl.
  rewrite lookup_insert_ne; [|done].
  by destruct (Fswatch.pending_timers st !! path); rewrite ?cancel_length.
Qed.

Lemma on_event_invocations (now : Q) (path : string) (st : Fswatch.state) :
  Fswatch.invocations (Fswatch.on_event now path st) = Fswatch.invocations st.
Proof. reflexivity. Qed.

Lemma on_event_consistent (now : Q) (path : string) (st : Fswatch.state) :
  consistent st → consistent (Fswatch.on_event now path st).
Proof.
  intros (Hpl & Hlp & Hff).
  destruct (on_event_new_timer now path st) as [Hnewp Hnewt].
  split_and!.
  - intros p i Hp. destruct (decide (path = p)) as [<-|Hne].
    { rewrite Hnewp in Hp. injection Hp as <-. eauto. }
    rewrite on_event_pending_other in Hp by done.
    destruct (Hpl p i Hp) as (tm & Hi & Hargs & Hfin).
    exists tm. split_and!; [|done..].
    rewrite on_event_old_timer by by eapply lookup_lt_Some.
    rewrite Hi. simpl. rewrite decide_False; [done|].
    intros Hk. destruct (Hpl path i Hk) as (tm' & Hi' & Hargs' & _). congruence.
  - intros i tm Hi Hfin.
    destruct (decide (i < length (Fswatch.timers st))) as [Hlt|Hge].
    + rewrite on_event_old_timer in Hi by done.
      destruct (Fswatch.timers st !! i) as [tm0|] eqn:Hi0; [|done].
      simpl in Hi. case_decide as Hk.
      { injection Hi as <-. done. }
      injection Hi as ->.
      pose proof (Hlp i tm Hi0 Hfin) as Hp.
      rewrite on_event_pending_other; [done|]. intros Heq. congruence.
    + pose proof (lookup_lt_Some _ _ _ Hi) as Hlt.
      rewrite on_event_length in Hlt.
      assert (i = length (Fswatch.timers st)) as -> by lia.
      rewrite Hnewt in Hi. injection Hi as <-. done.
  - intros inv i Hinv Hby. rewrite on_event_invocations in Hinv.
    destruct (Hff inv i Hinv Hby) as (tm & Hi & Hfin).
    rewrite on_event_old_timer by by eapply lookup_lt_Some.
    rewrite Hi. simpl. case_decide; eauto.
Qed.

Lemma teardown_timer (st : Fswatch.state) (i : nat) :
  Fswatch.timers (Fswatch.teardown st) !! i =
    (fun tm => if decide (i ∈ (map_to_list (Fswatch.pending_timers st)).*2)
               then set_finished tm else tm) <$> Fswatch.timers st !! i.
Proof. apply cancels_lookup. Qed.

Lemma teardown_consistent (st : Fswatch.state) :
  consistent st → consistent (Fswatch.teardown st).
Proof.
  intros (Hpl & Hlp & Hff). split_and!.
  - intros p i. simpl. by rewrite lookup_empty.
  - intros i tm Hi Hfin. exfalso. rewrite teardown_timer in Hi.
    destruct (Fswatch.timers st !! i) as [tm0|] eqn:Hi0; [|done].
    simpl in Hi. case_decide as Hin.
    { injection Hi as <-. done. }
    injection Hi as ->. apply Hin, pending_values. eauto.
  - intros inv i Hinv Hby. simpl in Hinv.
    destruct (Hff inv i Hinv Hby) as (tm & Hi & Hfin).
    rewrite teardown_timer, Hi. simpl. case_decide; eauto.
Qed.

Lemma build_consistent (disk : Q → world) (now : Q) (st : Fswatch.state) :
  consistent st → consistent (Fswatch.build disk now st).
Proof. intros H. exact H. Qed.

Lemma handle_line_consistent (disk : Q → world) (now : Q) (line : string)
    (st : Fswatch.state) :
  consistent st → consistent (Fswatch.handle_line disk now line st).
Proof.
  intros H. unfold Fswatch.handle_line. case_decide.
  - by apply build_consistent, teardown_consistent.
  - by apply on_event_consistent.
Qed.

Lemma run_consistent (disk : Q → world) (events : list (Q * string)) (st : Fswatch.state) :
  consistent st → consistent (Fswatch.run disk st events).
Proof.
  revert st. induction events as [|ev events IH]; intros st Hst; [done|].
  simpl. apply IH. by apply handle_line_consistent, elapse_consistent.
Qed.

Lemma start_consistent (disk : Q → world) (boot : Q) :
  consistent (Fswatch.start disk boot).
Proof.
  apply build_consistent. split_and!.
  - intros p i. simpl. by rewrite lookup_empty.
  - intros i tm. simpl. by rewrite lookup_nil.
  - intros inv i Hinv. simpl in Hinv. by apply elem_of_nil in Hinv.
Qed.

(** A silenced timer stays silenced. *)
Lemma wake_silenced (now : Q) (st : Fswatch.state) (i j : nat) :
  silenced i st → silenced i (Fswatch.wake now st j).
Proof.
  intros [(tm & Hi & Hfin) Hnot].
  destruct (wake_cases now st j) as [->|(tm' & Hj & _ & Hlive & ->)].
  { split; eauto. }
  assert (Hij : j ≠ i) by (intros ->; congruence).
  split; simpl.
  - exists tm. by rewrite list_lookup_insert_ne.
  - intros inv Hinv. apply elem_of_app in Hinv as [Hinv|Hinv]; [by apply Hnot|].
    apply list_elem_of_singleton in Hinv. subst inv. simpl. congruence.
Qed.

Lemma wakes_silenced (now : Q) (l : list nat) (st : Fswatch.state) (i : nat) :
  silenced i st → silenced i (foldl (Fswatch.wake now) st l).
Proof.
  revert st. induction l as [|j l IH]; intros st Hst; [done|].
  simpl. by apply IH, wake_silenced.
Qed.

Lemma on_event_silenced (now : Q) (path : string) (st : Fswatch.state) (i : nat) :
  silenced i st → silenced i (Fswatch.on_event now path st).
Proof.
  intros [(tm & Hi & Hfin) Hnot]. split; [|done].
  rewrite on_event_old_timer by by eapply lookup_lt_Some.
  rewrite Hi. simpl. case_decide; eauto.
Qed.

Lemma teardown_silenced (st : Fswatch.state) (i : nat) :
  silenced i st → silenced i (Fswatch.teardown st).
Proof.
  intros [(tm & Hi & Hfin) Hnot]. split; [|done].
  rewrite teardown_timer, Hi. simpl. case_decide; eauto.
Qed.

Lemma handle_line_silenced (disk : Q → world) (now : Q) (line : string)
    (st : Fswatch.state) (i : nat) :
  silenced i st → silenced i (Fswatch.handle_line disk now line st).
Proof.
  intros H. unfold Fswatch.handle_line. case_decide.
  - by apply (teardown_silenced st i) in H.
  - by apply on_event_silenced.
Qed.

Lemma run_silenced (disk : Q → world) (events : list (Q * string))
    (st : Fswatch.state) (i : nat) :
  silenced i st → silenced i (Fswatch.run disk st events).
Proof.
  revert st. induction events as [|ev events IH]; intros st Hst; [done|].
  simpl. apply IH. by apply handle_line_silenced, wakes_silenced.
Qed.

(** ** The polling backend: the threads step by step *)

(** [Fswatch.run] is the schedule of [Race] in which nothing comes between
    the test and the call of a timer thread, nor between the turns of the
    loop over the dictionary: on such a schedule the two agree. *)

Lemma cancel_commute (i j : nat) (ts : list Timer) :
  Fswatch.cancel i (Fswatch.cancel j ts) = Fswatch.cancel j (Fswatch.cancel i ts).
Proof.
  unfold Fswatch.cancel. apply list_eq. intros k.
  destruct (decide (k = i)) as [Hi|Hi], (decide (k = j)) as [Hj|Hj]; subst.
  - done.
  - rewrite list_lookup_alter_eq. rewrite !list_lookup_alter_ne by done.
    by rewrite list_lookup_alter_eq.
  - rewrite list_lookup_alter_ne by done. rewrite !list_lookup_alter_eq.
    by rewrite list_lookup_alter_ne by done.
  - by rewrite !list_lookup_alter_ne by done.
Qed.

Lemma cancels_push (i : nat) (l : list nat) (ts : list Timer) :
  foldr Fswatch.cancel (Fswatch.cancel i ts) l = Fswatch.cancel i (foldr Fswatch.cancel ts l).
Proof.
  induction l as [|j l IH]; [done|]. cbn [foldr]. by rewrite IH, cancel_commute.
Qed.

Lemma race_timer_uninterrupted (disk : Q → world) (now : Q) (self : nat) (rs : Race.state) :
  Race.stages rs !! self = Some Race.Waiting →
  Race.shared (Race.run disk rs [Race.Test now self; Race.Call self]) =
    Fswatch.wake now (Race.shared rs) self.
Proof.
  intros Hstage. pose proof (lookup_lt_Some _ _ _ Hstage) as Hlen.
  unfold Race.run. cbn [foldl]. unfold Race.step at 2. rewrite Hstage.
  unfold Fswatch.wake, Fswatch.timer_run.
  destruct (Fswatch.timers (Race.shared rs) !! self) as [tm|] eqn:Htm.
  2:{ unfold Race.step. by rewrite Hstage. }
  unfold Race.test_step.
  destruct (finished tm) eqn:Hfin.
  { unfold Race.step. cbn [Race.stages Race.shared].
    rewrite list_lookup_insert_eq by done. by destruct (Qle_bool _ _). }
  destruct (Qle_bool (deadline tm) now) eqn:Hdue.
  - unfold Race.step. cbn [Race.stages Race.shared].
    rewrite list_lookup_insert_eq by done. by rewrite Htm.
  - unfold Race.step. by rewrite Hstage.
Qed.

Lemma race_line_uninterrupted (disk : Q → world) (now : Q) (line : string) (rs : Race.state) :
  Race.main_loop rs = Race.Reading →
  Str.strip line ≠ PurePath.to_string roots_file →
  Race.shared (Race.step disk rs (Race.Line now line)) =
    Fswatch.handle_line disk now line (Race.shared rs).
Proof.
  intros Hmain Hline. unfold Race.step, Race.line_step, Fswatch.handle_line.
  rewrite Hmain. by rewrite !decide_False by done.
Qed.

Lemma race_run_cons (disk : Q → world) (rs : Race.state) (a : Race.action)
    (schedule : list Race.action) :
  Race.run disk rs (a :: schedule) = Race.run disk (Race.step disk rs a) schedule.
Proof. reflexivity. Qed.

Lemma race_loop_uninterrupted (disk : Q → world) (now : Q) (rest : list nat) (rs : Race.state) :
  Race.main_loop rs = Race.Cancelling (size (Fswatch.pending_timers (Race.shared rs))) rest →
  Race.shared (Race.run disk rs (replicate (S (length rest)) (Race.Next now))) =
    Fswatch.build disk now
      (Fswatch.clear
         {| Fswatch.timers := foldr Fswatch.cancel (Fswatch.timers (Race.shared rs)) rest;
            Fswatch.pending_timers := Fswatch.pending_timers (Race.shared rs);
            Fswatch.roots := Fswatch.roots (Race.shared rs);
            Fswatch.invocations := Fswatch.invocations (Race.shared rs);
            Fswatch.journal := Fswatch.journal (Race.shared rs) |}).
Proof.
  revert rs. induction rest as [|i rest IH]; intros rs Hmain.
  - cbn [length replicate]. rewrite race_run_cons. unfold Race.step. rewrite Hmain.
    unfold Race.next_step. rewrite decide_True by done. reflexivity.
  - change (replicate (S (length (i :: rest))) (Race.Next now))
      with (Race.Next now :: replicate (S (length rest)) (Race.Next now)).
    rewrite race_run_cons. unfold Race.step. rewrite Hmain. unfold Race.next_step.
    rewrite decide_True by done.
    rewrite IH by done. cbn [Race.shared Race.cancel_one Fswatch.timers
      Fswatch.pending_timers Fswatch.roots Fswatch.invocations Fswatch.journal].
    by rewrite cancels_push.
Qed.

Lemma race_rebuild_uninterrupted (disk : Q → world) (now : Q) (line : string)
    (rs : Race.state) :
  Race.main_loop rs = Race.Reading →
  Str.strip line = PurePath.to_string roots_file →
  Race.shared
    (Race.run disk rs
       (Race.Line now line ::
        replicate (S (size (Fswatch.pending_timers (Race.shared rs)))) (Race.Next now))) =
    Fswatch.handle_line disk now line (Race.shared rs).
Proof.
  intros Hmain Hline. rewrite race_run_cons.
  unfold Race.step. rewrite Hmain. unfold Race.line_step.
  rewrite decide_True by done.
  pose proof (length_map_to_list (Fswatch.pending_timers (Race.shared rs))) as Hsize.
  rewrite <- Hsize. rewrite <- (length_fmap snd).
  rewrite race_loop_uninterrupted.
  - unfold Fswatch.handle_line. by rewrite decide_True by done.
  - cbn [Race.main_loop Race.shared Fswatch.announce Fswatch.pending_timers].
    reflexivity.
Qed.

(** C5, on the code.  The main loop and the Timer threads share the Timer
    objects and the dictionary without a lock, and a rebuild misses a pending
    timer in two schedules.  In the first, the thread of the timer for
    [a.svg] has found [finished] unset when the roots file is reported: the
    loop cancels the timer and the dictionary is cleared, and the thread calls
    the trigger all the same.  In the second, timers for [a.svg] and [b.svg]
    are pending, and the thread of the first deletes its entry after the
    iterator over the dictionary was made: the iterator raises
    [RuntimeError], which ends the main loop with the timer for [b.svg] not
    cancelled and still in the dictionary, and that timer calls the trigger
    when its time has come. *)
Theorem cancelled_timer_still_fires :
  let disk := fun _ : Q => figs_world in
  let reported := "/Users/marcos/.config/pdftex-figures/roots" in
  (let rebuilt :=
     Race.run disk (Race.start disk 0)
       [Race.Line 0 "/figs/a.svg"; Race.Test 1 0;
        Race.Line 1 reported; Race.Next 1; Race.Next 1] in
   Race.main_loop rebuilt = Race.Reading ∧
   Fswatch.pending_timers (Race.shared rebuilt) = ∅ ∧
   Fswatch.timers (Race.shared rebuilt) =
     [{| args := "/figs/a.svg"; deadline := 0 + Fswatch.debounce_seconds;
         finished := true |}] ∧
   Fswatch.invocations (Race.shared rebuilt) = [] ∧
   Fswatch.invocations (Race.shared (Race.run disk rebuilt [Race.Call 0])) =
     [{| fired_at := 0 + Fswatch.debounce_seconds; fired_by := Some 0;
         argument := Str_ "/figs/a.svg" |}])
  ∧
  (let broken :=
     Race.run disk (Race.start disk 0)
       [Race.Line 0 "/figs/a.svg"; Race.Line (1 # 2) "/figs/b.svg"; Race.Test 1 0;
        Race.Line 1 reported; Race.Call 0; Race.Next 1] in
   Race.main_loop broken = Race.Stopped RuntimeError ∧
   Fswatch.pending_timers (Race.shared broken) = {[ "/figs/b.svg" := 1 ]} ∧
   Fswatch.timers (Race.shared broken) !! 1 =
     Some {| args := "/figs/b.svg"; deadline := (1 # 2) + Fswatch.debounce_seconds;
             finished := false |} ∧
   fired_by <$> Fswatch.invocations
                  (Race.shared (Race.run disk broken [Race.Test (3 # 2) 1; Race.Call 1])) =
     [Some 0; Some 1]).
Proof.
  intros disk reported. split.
  - split_and!; vm_compute; reflexivity.
  - split_and!; vm_compute; reflexivity.
Qed.

(** ** The polling backend: one path through a run *)

























(** * Further properties *)

(** ** RootStore: what the store can hold *)

Lemma add_root_cwd (path : str_or_path) (w : world) : cwd (add_root path w).2 = cwd w.
Proof. rewrite add_root_unfold. by case_decide. Qed.

(** The roots listed after [add_root]. *)
Lemma get_roots_add_root (w : world) (path : str_or_path) :
  one_line (str path) → one_line (cwd w) →
  (get_roots (add_root path w).2).1 =
    if decide (str path ∈ (get_roots w).1) then (get_roots w).1
    else (get_roots w).1 ++ [str path].
Proof.
  intros Hpath Hcwd. rewrite add_root_unfold.
  destruct (decide (str path ∈ (get_roots w).1)) as [Hin|Hin]; [done|].
  cbn [snd].
  set (w1 := set_roots_text _ w).
  assert (Hpers : persisted w1 = (get_roots w).1 ++ [str path]).
  { apply persisted_written, Forall_app.
    split; [by apply get_roots_one_line|by apply Forall_singleton]. }
  rewrite (get_roots_unfold w1). cbn [fst]. rewrite decide_True; [done|].
  rewrite Hpers. apply elem_of_app. left. apply (cwd_in_get_roots w).
Qed.

Lemma persisted_add_root_new (w : world) (path : str_or_path) :
  one_line (str path) → one_line (cwd w) → str path ∉ (get_roots w).1 →
  persisted (add_root path w).2 = (get_roots w).1 ++ [str path].
Proof.
  intros Hpath Hcwd Hin. rewrite add_root_unfold, decide_False by done.
  apply persisted_written, Forall_app.
  split; [by apply get_roots_one_line|by apply Forall_singleton].
Qed.

Lemma get_roots_NoDup (w : world) : NoDup (persisted w) → NoDup (get_roots w).1.
Proof.
  intros Hnd. rewrite get_roots_unfold. cbn [fst]. case_decide as Hin; [done|].
  apply NoDup_app. split_and!; [done| |apply NoDup_singleton].
  intros x Hx Hx'. apply list_elem_of_singleton in Hx'. by subst.
Qed.

(** X1.  When the working directory is a non-empty string without line
    break, so is every root [get_roots] lists.  A path that is empty or
    holds a line break is therefore never listed, not even after it was
    registered, and each [add_root] of it rewrites the roots file. *)
Theorem unlistable_path_never_registered (w : world) (path : str_or_path) :
  one_line (cwd w) →
  Forall one_line (get_roots w).1 ∧
  (¬ one_line (str path) →
   (str path ∉ (get_roots w).1) ∧
   roots_text (add_root path w).2 =
     Str.join (String Str.LF "") ((get_roots w).1 ++ [str path]) ∧
   str path ∉ (get_roots (add_root path w).2).1).
Proof.
  intros Hcwd. split; [by apply get_roots_one_line|].
  intros Hbad.
  assert (Hnever : ∀ w', one_line (cwd w') → str path ∉ (get_roots w').1).
  { intros w' Hcwd' Hin. apply Hbad.
    pose proof (get_roots_one_line w' Hcwd') as Hall.
    rewrite Forall_forall in Hall. by apply Hall. }
  split_and!.
  - by apply Hnever.
  - rewrite add_root_unfold, decide_False by by apply Hnever. done.
  - apply Hnever. by rewrite add_root_cwd.
Qed.

Lemma unlistable_path_never_registered_witness :
  let w := empty_store "/home/user" in
  let path := Str_ ("/a" +:+ String Str.LF "/b") in
  Forall one_line (get_roots w).1 ∧
  (str path ∉ (get_roots w).1) ∧
  persisted (add_root path w).2 = ["/home/user"; "/a"; "/b"] ∧
  str path ∉ (get_roots (add_root path w).2).1.
Proof.
  intros w path.
  assert (Hcwd : one_line (cwd w)) by (vm_compute; done).
  destruct (unlistable_path_never_registered w path Hcwd) as [Hall Hbad].
  destruct Hbad as (H1 & _ & H3).
  { intros (_ & Hlf & _). vm_compute in Hlf. discriminate Hlf. }
  split_and!; [exact Hall|exact H1|reflexivity|exact H3].
Defined.

(** X2.  The store stays free of duplicates: when the persisted entries
    are pairwise distinct, so is the list [get_roots] returns, and after
    [add_root] of a one-line path both are still pairwise distinct. *)
Theorem store_stays_duplicate_free (w : world) (path : str_or_path) :
  one_line (str path) → one_line (cwd w) → NoDup (persisted w) →
  NoDup (get_roots w).1 ∧
  NoDup (persisted (add_root path w).2) ∧
  NoDup (get_roots (add_root path w).2).1.
Proof.
  intros Hpath Hcwd Hnd.
  pose proof (get_roots_NoDup w Hnd) as Hroots.
  assert (Hpers : NoDup (persisted (add_root path w).2)).
  { destruct (decide (str path ∈ (get_roots w).1)) as [Hin|Hin].
    - rewrite add_root_unfold, decide_True by done. done.
    - rewrite persisted_add_root_new by done.
      apply NoDup_app. split_and!; [done| |apply NoDup_singleton].
      intros x Hx Hx'. apply list_elem_of_singleton in Hx'. by subst. }
  split_and!; [done|done|by apply get_roots_NoDup].
Qed.

Lemma store_stays_duplicate_free_witness :
  let w := empty_store "/home/user" in
  NoDup (get_roots w).1 ∧
  NoDup (persisted (add_root (Str_ "/figs") w).2) ∧
  NoDup (get_roots (add_root (Str_ "/figs") w).2).1.
Proof.
  intros w.
  apply (store_stays_duplicate_free w (Str_ "/figs")).
  - vm_compute; done.
  - vm_compute; done.
  - vm_compute. apply NoDup_nil_2.
Defined.

(** X3.  [add_root] never drops or reorders a root: for one-line strings,
    the list [get_roots] returns afterwards is the list it returned before,
    with the path appended when it was not in it. *)
Theorem add_root_extends_listing (w : world) (path : str_or_path) :
  one_line (str path) → one_line (cwd w) →
  (get_roots (add_root path w).2).1 =
    if decide (str path ∈ (get_roots w).1) then (get_roots w).1
    else (get_roots w).1 ++ [str path].
Proof. apply get_roots_add_root. Qed.

Lemma add_root_extends_listing_witness :
  (get_roots (add_root (Str_ "/figs") (empty_store "/home/user")).2).1
    = ["/home/user"; "/figs"].
Proof.
  rewrite (add_root_extends_listing (empty_store "/home/user") (Str_ "/figs")).
  - reflexivity.
  - vm_compute; done.
  - vm_compute; done.
Defined.

Lemma add_roots_cwd (paths : list string) (w : world) : cwd (add_roots paths w) = cwd w.
Proof.
  revert w. induction paths as [|p paths IH]; intros w; [done|].
  unfold add_roots in *. cbn [foldl]. by rewrite IH, add_root_cwd.
Qed.

(** X4.  After any sequence of registrations of one-line paths, the roots
    listed are exactly those listed before together with the registered
    ones. *)
Theorem add_roots_lists_all (paths : list string) (w : world) (root : string) :
  Forall one_line paths → one_line (cwd w) →
  root ∈ (get_roots (add_roots paths w)).1 ↔ root ∈ (get_roots w).1 ∨ root ∈ paths.
Proof.
  intros Hpaths. revert w. induction Hpaths as [|p paths Hp Hpaths IH]; intros w Hcwd.
  { rewrite elem_of_nil. unfold add_roots. simpl. tauto. }
  change (add_roots (p :: paths) w) with (add_roots paths (add_root (Str_ p) w).2).
  rewrite IH by by rewrite add_root_cwd.
  rewrite (get_roots_add_root w (Str_ p)) by done. cbn [str].
  rewrite elem_of_cons. case_decide as Hin.
  - split; [tauto|]. intros [?|[->|?]]; tauto.
  - rewrite elem_of_app, list_elem_of_singleton. tauto.
Qed.

Lemma add_roots_lists_all_witness :
  "/b" ∈ (get_roots (add_roots ["/a"; "/b"; "/a"] (empty_store "/home/user"))).1.
Proof.
  apply (add_roots_lists_all ["/a"; "/b"; "/a"] (empty_store "/home/user") "/b").
  - repeat constructor; vm_compute; done.
  - vm_compute; done.
  - right. apply list_elem_of_further, list_elem_of_here.
Defined.

(** ** ConversionTrigger: what can and cannot happen *)

Lemma afdesign_to_svg_no_inkscape (w : world) (filepath : str_or_path) :
  Forall (fun c => is_inkscape_process c = false) (trace (afdesign_to_svg filepath w)).
Proof.
  unfold afdesign_to_svg. eff_unfold. simpl.
  destruct (path_exists w _); simpl;
    repeat match goal with
           | |- context [remove_ok w ?p] => destruct (remove_ok w p); simpl
           | |- context [osascript_status w] => destruct (osascript_status w); simpl
           end; repeat constructor.
Qed.

Lemma maybe_recompile_figure_no_inkscape
    (cfg : user_config) (w : world) (filepath : str_or_path) :
  Forall (fun c => is_inkscape_process c = false)
    (trace (maybe_recompile_figure cfg filepath w)).
Proof.
  destruct (decide (PurePath.suffix (Path filepath) = ".svg")) as [Hsvg|Hsvg].
  { rewrite maybe_recompile_figure_svg by done. by repeat constructor. }
  destruct (decide (PurePath.suffix (Path filepath) = ".afdesign")) as [Hafd|Hafd].
  { rewrite maybe_recompile_figure_afdesign by done.
    pose proof (afdesign_to_svg_no_inkscape w (Path_ (Path filepath))) as Hexport.
    destruct (outcome (afdesign_to_svg (Path_ (Path filepath)) w));
      unfold trace at 1; cbn [fst]; (constructor; [done|]); [|done].
    apply Forall_app. split; [done|]. by repeat constructor. }
  rewrite maybe_recompile_figure_other.
  - by repeat constructor.
  - rewrite !elem_of_cons, elem_of_nil. tauto.
Qed.

(** X5.  Whatever the path and the world, and however it ends,
    [maybe_recompile_figure] never starts [inkscape], neither to convert nor
    to ask for its version.  So the calls made for any list of trigger
    invocations, those of either daemon included, contain no [inkscape]
    process. *)
Theorem trigger_never_starts_inkscape
    (cfg : user_config) (disk : Q → world) (invs : list invocation)
    (w : world) (filepath : str_or_path) :
  Forall (fun c => is_inkscape_process c = false)
    (trace (maybe_recompile_figure cfg filepath w)) ∧
  Forall (fun c => is_inkscape_process c = false) (conversion_calls cfg disk invs).
Proof.
  split_and!.
  - apply maybe_recompile_figure_no_inkscape.
  - unfold conversion_calls. induction invs as [|inv invs IH]; [constructor|].
    cbn [flat_map]. apply Forall_app. split; [|done].
    apply maybe_recompile_figure_no_inkscape.
Qed.

(** X6.  On an [.svg] file, [convert_svg_to_pdf_tex] stops with an
    exception, before it runs the converter or touches the clipboard, when
    the version query fails ([CalledProcessError]) or when the version
    cannot be read off its output (whatever exception the parser raises). *)
Theorem convert_fails_before_converting
    (cfg : user_config) (w : world) (filepath : PurePath.t) :
  PurePath.suffix filepath = ".svg" →
  let r := convert_svg_to_pdf_tex cfg filepath w in
  let attempted :=
    [Log INFO ("Recompiling " +:+ PurePath.to_string filepath);
     CheckOutput ["inkscape"; "--version"]] in
  (version_output w = None →
   r = (attempted, Raised CalledProcessError)) ∧
  (∀ (version : string) (e : exn),
     version_output w = Some version →
     parse_inkscape_version (Str.universal_newlines version) w = ([], Raised e) →
     r = (attempted ++ [Log DEBUG (Str.universal_newlines version)], Raised e)).
Proof.
  intros Hsuf r attempted. subst r attempted. split.
  - intros Hver. unfold convert_svg_to_pdf_tex. rewrite Hsuf. simpl.
    eff_unfold. by rewrite Hver.
  - intros version e Hver Hparse. unfold convert_svg_to_pdf_tex. rewrite Hsuf. simpl.
    eff_unfold. rewrite Hver. simpl. by rewrite Hparse.
Qed.

Lemma convert_fails_before_converting_witness :
  let filepath := PurePath.of_string "/figs/diagram.svg" in
  convert_svg_to_pdf_tex no_config filepath (empty_store "/home/user")
    = ([Log INFO "Recompiling /figs/diagram.svg"; CheckOutput ["inkscape"; "--version"]],
       Raised CalledProcessError) ∧
  convert_svg_to_pdf_tex no_config filepath (sample_world "Inkscape v.1" 0)
    = ([Log INFO "Recompiling /figs/diagram.svg"; CheckOutput ["inkscape"; "--version"];
        Log DEBUG "Inkscape v.1"],
       Raised ValueError).
Proof.
  intros filepath.
  destruct (convert_fails_before_converting no_config (empty_store "/home/user")
              filepath eq_refl) as [Hquery _].
  destruct (convert_fails_before_converting no_config (sample_world "Inkscape v.1" 0)
              filepath eq_refl) as [_ Hparse].
  split.
  - exact (Hquery eq_refl).
  - exact (Hparse "Inkscape v.1" ValueError eq_refl eq_refl).
Defined.

(** Version numbers are not negative. *)
Lemma int_digits_nonneg (s : string) (acc z : Z) :
  (0 ≤ acc)%Z → Str.int_digits acc s = Some z → (0 ≤ z)%Z.
Proof.
  revert acc. induction s as [|c s IH]; intros acc Hacc; simpl.
  { by intros [= <-]. }
  destruct (Str.is_digit c); [|done].
  apply IH. lia.
Qed.

Lemma int_nonneg (s : string) (z : Z) : Str.int s = Some z → (0 ≤ z)%Z.
Proof. destruct s; [done|]. by apply int_digits_nonneg. Qed.

Lemma mapM_int_nonneg (l : list string) (zs : list Z) :
  mapM Str.int l = Some zs → Forall (fun z => (0 ≤ z)%Z) zs.
Proof.
  intros H. apply mapM_Some_1 in H.
  induction H as [|s z l zs Hs _ IH]; constructor; [by eapply int_nonneg|done].
Qed.

Lemma parse_inkscape_version_Returned (v : string) (w : world) (number : list Z) :
  outcome (parse_inkscape_version v w) = Returned number →
  ∃ parsed, Forall (fun z => (0 ≤ z)%Z) parsed ∧
            number = parsed ++ replicate (3 - length parsed) 0%Z.
Proof.
  unfold parse_inkscape_version. eff_unfold.
  destruct (Str.first_version_run v) as [run|]; simpl; [|done].
  destruct (mapM Str.int (Str.split "." run)) as [parsed|] eqn:Hparsed; simpl; [|done].
  intros [= <-]. exists parsed. split; [|done]. by eapply mapM_int_nonneg.
Qed.

(** X7.  Whenever the version parses, the numbers are at least three and
    none is negative, and the legacy argument layout is chosen exactly when
    the first number is zero. *)
Theorem legacy_layout_iff_major_zero
    (v : string) (w : world) (number : list Z) (filepath pdf_path : PurePath.t) :
  outcome (parse_inkscape_version v w) = Returned number →
  3 ≤ length number ∧
  Forall (fun z => (0 ≤ z)%Z) number ∧
  build_command number filepath pdf_path =
    if decide (head number = Some 0%Z)
    then legacy_command filepath pdf_path
    else modern_command filepath pdf_path.
Proof.
  intros Hparse.
  destruct (parse_inkscape_version_Returned v w number Hparse) as (parsed & Hnn & ->).
  assert (Hlen : 3 ≤ length (parsed ++ replicate (3 - length parsed) 0%Z)).
  { rewrite length_app, length_replicate. lia. }
  assert (Hall : Forall (fun z => (0 ≤ z)%Z) (parsed ++ replicate (3 - length parsed) 0%Z)).
  { apply Forall_app. split; [done|]. apply Forall_replicate. lia. }
  split_and!; [done|done|].
  destruct (parsed ++ replicate (3 - length parsed) 0%Z) as [|a [|b [|c rest]]];
    simpl in Hlen; try lia.
  apply Forall_cons in Hall as [Ha Hall].
  apply Forall_cons in Hall as [Hb Hall].
  apply Forall_cons in Hall as [Hc _].
  unfold build_command, list_lt. cbn [head].
  destruct (decide (Some a = Some 0%Z)) as [[= ->]|Hne]; [done|].
  assert (a ≠ 0%Z) by congruence.
  destruct (a =? 1)%Z eqn:E1, (a <? 1)%Z eqn:E2,
    (b =? 0)%Z eqn:E3, (b <? 0)%Z eqn:E4,
    (c =? 0)%Z eqn:E5, (c <? 0)%Z eqn:E6; try reflexivity; try lia.
  all: by destruct rest.
Qed.

Lemma legacy_layout_iff_major_zero_witness :
  let f := PurePath.of_string "/figs/diagram.svg" in
  let p := PurePath.of_string "/figs/diagram.pdf" in
  build_command [0; 92; 4]%Z f p = legacy_command f p ∧
  build_command [1; 2; 2]%Z f p = modern_command f p.
Proof.
  intros f p. split.
  - exact (proj2 (proj2 (legacy_layout_iff_major_zero "Inkscape 0.92.4 (unknown)"
                            figs_world [0; 92; 4]%Z f p eq_refl))).
  - exact (proj2 (proj2 (legacy_layout_iff_major_zero
                            "Inkscape 1.2.2 (b0a8486541, 2022-12-01)"
                            figs_world [1; 2; 2]%Z f p eq_refl))).
Defined.

(** ** Text helpers *)

Lemma case_of_case (c : ascii) :
  Str.to_upper (Str.to_upper c) = Str.to_upper c ∧
  Str.to_lower (Str.to_lower c) = Str.to_lower c ∧
  (Str.is_lower (Str.to_upper c) || Str.is_upper (Str.to_upper c)
     = Str.is_lower c || Str.is_upper c) ∧
  (Str.is_lower (Str.to_lower c) || Str.is_upper (Str.to_lower c)
     = Str.is_lower c || Str.is_upper c).
Proof. by_ascii c. Qed.

Lemma case_keeps_separators (c : ascii) :
  Ascii.eqb (Str.to_upper c) "_" = Ascii.eqb c "_" ∧
  Ascii.eqb (Str.to_lower c) "_" = Ascii.eqb c "_" ∧
  Ascii.eqb (Str.to_upper c) "-" = Ascii.eqb c "-" ∧
  Ascii.eqb (Str.to_lower c) "-" = Ascii.eqb c "-".
Proof. by_ascii c. Qed.

Lemma title_from_idempotent (s : string) (b : bool) :
  Str.title_from b (Str.title_from b s) = Str.title_from b s.
Proof.
  revert b. induction s as [|c s IH]; intros b; [done|].
  cbn [Str.title_from].
  destruct (case_of_case c) as (Huu & Hll & Hcu & Hcl).
  destruct b.
  - by rewrite Hll, Hcl, IH.
  - by rewrite Huu, Hcu, IH.
Qed.

Lemma title_from_separators (s : string) (b : bool) :
  Str.mem "_" (Str.title_from b s) = Str.mem "_" s ∧
  Str.mem "-" (Str.title_from b s) = Str.mem "-" s.
Proof.
  revert b. induction s as [|c s IH]; intros b; [done|].
  cbn [Str.title_from Str.mem].
  destruct (case_keeps_separators c) as (Hu1 & Hl1 & Hu2 & Hl2).
  destruct (IH (Str.is_lower c || Str.is_upper c)) as [-> ->].
  destruct b; by rewrite ?Hu1, ?Hl1, ?Hu2, ?Hl2.
Qed.

Lemma title_from_length (s : string) (b : bool) :
  String.length (Str.title_from b s) = String.length s.
Proof. revert b. induction s as [|c s IH]; intros b; simpl; [done|]. by rewrite IH. Qed.

Lemma replace_length (a b : ascii) (s : string) :
  String.length (Str.replace a b s) = String.length s.
Proof. induction s as [|c s IH]; simpl; [done|]. by rewrite IH. Qed.

Lemma replace_removes (a b : ascii) (s : string) :
  Ascii.eqb b a = false → Str.mem a (Str.replace a b s) = false.
Proof.
  intros Hab. induction s as [|c s IH]; [done|].
  cbn [Str.replace Str.mem]. rewrite IH, orb_false_r.
  destruct (Ascii.eqb c a) eqn:Hc; [done|]. exact Hc.
Qed.

Lemma replace_keeps_absent (a b x : ascii) (s : string) :
  Ascii.eqb b x = false → Str.mem x s = false → Str.mem x (Str.replace a b s) = false.
Proof.
  intros Hbx. induction s as [|c s IH]; [done|].
  cbn [Str.replace Str.mem]. intros H. apply orb_false_iff in H as [Hc Hs].
  rewrite IH, orb_false_r by done. by destruct (Ascii.eqb c a).
Qed.

Lemma replace_absent (a b : ascii) (s : string) :
  Str.mem a s = false → Str.replace a b s = s.
Proof.
  induction s as [|c s IH]; [done|].
  cbn [Str.replace Str.mem]. intros H. apply orb_false_iff in H as [Hc Hs].
  by rewrite Hc, IH.
Qed.

Lemma case_isascii (c : ascii) :
  (nat_of_ascii c <? 128)%nat = true →
  (nat_of_ascii (Str.to_upper c) <? 128)%nat = true ∧
  (nat_of_ascii (Str.to_lower c) <? 128)%nat = true.
Proof. by_ascii c; done. Qed.

Lemma title_from_isascii (s : string) (b : bool) :
  Str.isascii s = true → Str.isascii (Str.title_from b s) = true.
Proof.
  revert b. induction s as [|c s IH]; intros b; [done|].
  cbn [Str.isascii Str.title_from]. intros H. apply andb_true_iff in H as [Hc Hs].
  destruct (case_isascii c Hc) as [Hu Hl].
  rewrite IH by done. by destruct b; rewrite ?Hu, ?Hl.
Qed.

Lemma replace_isascii (a b : ascii) (s : string) :
  (nat_of_ascii b <? 128)%nat = true →
  Str.isascii s = true → Str.isascii (Str.replace a b s) = true.
Proof.
  intros Hb. induction s as [|c s IH]; [done|].
  cbn [Str.isascii Str.replace]. intros H. apply andb_true_iff in H as [Hc Hs].
  rewrite IH by done. by destruct (Ascii.eqb c a); rewrite ?Hb, ?Hc.
Qed.

(** X8.  On a name within ASCII, [beautify] keeps the length of the name,
    leaves neither underscore nor hyphen in it, and applied to its own result
    changes nothing; the result is within ASCII again. *)
Theorem beautify_normal_form (name : string) :
  Str.isascii name = true →
  Str.isascii (beautify name) = true ∧
  String.length (beautify name) = String.length name ∧
  Str.mem "_" (beautify name) = false ∧
  Str.mem "-" (beautify name) = false ∧
  beautify (beautify name) = beautify name.
Proof.
  intros Hascii.
  assert (Hu : Str.mem "_" (beautify name) = false).
  { unfold beautify, Str.title. rewrite (proj1 (title_from_separators _ _)).
    apply replace_keeps_absent; [done|]. by apply replace_removes. }
  assert (Hh : Str.mem "-" (beautify name) = false).
  { unfold beautify, Str.title. rewrite (proj2 (title_from_separators _ _)).
    by apply replace_removes. }
  split_and!; [| |done|done|].
  - unfold beautify, Str.title.
    by apply title_from_isascii, replace_isascii, replace_isascii.
  - unfold beautify, Str.title. by rewrite title_from_length, !replace_length.
  - unfold beautify at 1. rewrite (replace_absent "_") by done.
    rewrite (replace_absent "-") by done.
    unfold beautify, Str.title. apply title_from_idempotent.
Qed.

Lemma beautify_normal_form_witness :
  beautify "my_first-fig" = "My First Fig" ∧
  beautify (beautify "my_first-fig") = beautify "my_first-fig".
Proof.
  split; [reflexivity|].
  apply (beautify_normal_form "my_first-fig"). reflexivity.
Defined.

Lemma split_nonempty (c : ascii) (s : string) : Str.split c s ≠ [].
Proof.
  destruct s as [|a s]; simpl; [done|].
  destruct (Ascii.eqb a c); [done|]. by destruct (Str.split c s).
Qed.

(** Joining the pieces of a split with the separator gives the string
    back. *)
Lemma join_split (c : ascii) (s : string) :
  Str.join (String c "") (Str.split c s) = s.
Proof.
  unfold Str.join. induction s as [|a s IH]; [done|].
  cbn [Str.split]. pose proof (split_nonempty c s) as Hne.
  destruct (Ascii.eqb a c) eqn:Ha.
  - apply Ascii.eqb_eq in Ha as ->.
    destruct (Str.split c s) as [|y ys]; [done|].
    rewrite <- IH. reflexivity.
  - destruct (Str.split c s) as [|y ys]; [done|].
    rewrite <- IH. by destruct ys.
Qed.

Lemma spaces_S (n : nat) : spaces (S n) = String " " (spaces n).
Proof. unfold spaces. by destruct n. Qed.

Lemma spaces_add (a b : nat) : spaces (a + b) = spaces a +:+ spaces b.
Proof.
  induction a as [|a IH]; [done|].
  change (S a + b) with (S (a + b)). rewrite !spaces_S, IH. done.
Qed.

Lemma append_assoc (a b c : string) : (a +:+ b) +:+ c = a +:+ (b +:+ c).
Proof.
  induction a as [|x a IH]; [done|].
  change (String x ((a +:+ b) +:+ c) = String x (a +:+ (b +:+ c))). by rewrite IH.
Qed.

Lemma spaces_no_LF (n : nat) : Str.mem Str.LF (spaces n) = false.
Proof. induction n as [|n IH]; [done|]. rewrite spaces_S. cbn [Str.mem]. by rewrite IH. Qed.

Lemma indent_unfold (text : string) (n : nat) :
  indent text n =
    Str.join (String Str.LF "") ((fun line => spaces n +:+ line) <$> Str.split Str.LF text).
Proof. reflexivity. Qed.

(** X9.  [indent] by zero gives the text back, and indenting twice is
    indenting once by the sum. *)
Theorem indent_composes (text : string) (a b : nat) :
  indent text 0 = text ∧
  indent (indent text a) b = indent text (a + b).
Proof.
  split.
  - rewrite indent_unfold.
    rewrite (list_fmap_ext _ id (Str.split Str.LF text)) by done.
    rewrite list_fmap_id. apply join_split.
  - rewrite (indent_unfold (indent text a)), (indent_unfold text a).
    rewrite split_join_LF.
    + rewrite indent_unfold, <- list_fmap_compose. f_equal.
      apply list_fmap_ext. intros _ line _. simpl.
      by rewrite <- append_assoc, <- spaces_add, (Nat.add_comm b a).
    + intros H. apply fmap_nil_inv in H. by apply split_nonempty in H.
    + apply Forall_fmap, Forall_forall. intros line Hline. simpl.
      rewrite mem_append, spaces_no_LF. simpl.
      by apply split_elem_no_sep in Hline.
Qed.

(** ** The polling backend: invariants of a run *)

(** X10.  In the schedule [Fswatch.run] takes, where no timer thread is
    between its test of [finished] and its end while the main loop handles a
    line, and none runs during the loop over the dictionary: take the daemon
    at any point of a run, and let the next line be the roots file.  The step
    empties the table of pending timers; every timer that was pending is
    cancelled by it; and whatever lines and however much time follow, none of
    those timers ever calls [maybe_recompile_figure]. *)
Theorem rebuild_cancels_pending
    (disk : Q → world) (boot : Q) (before : list (Q * string))
    (now : Q) (line : string) (after : list (Q * string)) (later : Q) :
  Str.strip line = PurePath.to_string roots_file →
  let st := Fswatch.elapse now (Fswatch.run disk (Fswatch.start disk boot) before) in
  let st' := Fswatch.handle_line disk now line st in
  Fswatch.pending_timers st' = ∅ ∧
  ∀ (path : string) (i : nat),
    Fswatch.pending_timers st !! path = Some i →
    (∃ tm, Fswatch.timers st !! i = Some tm ∧ finished tm = false ∧
           Fswatch.timers st' !! i = Some (set_finished tm)) ∧
    (∀ inv, inv ∈ Fswatch.invocations (Fswatch.elapse later (Fswatch.run disk st' after)) →
            fired_by inv ≠ Some i).
Proof.
  intros Hline st st'.
  assert (Hst : consistent st).
  { apply elapse_consistent, run_consistent, start_consistent. }
  assert (Hst' : st' = Fswatch.build disk now (Fswatch.teardown st)).
  { subst st'. unfold Fswatch.handle_line. by rewrite decide_True. }
  split; [by rewrite Hst'|].
  intros path i Hpath.
  destruct Hst as (Hpl & _ & Hff).
  destruct (Hpl path i Hpath) as (tm & Hi & _ & Hlive).
  assert (Hcancelled : Fswatch.timers st' !! i = Some (set_finished tm)).
  { rewrite Hst'. change (Fswatch.timers (Fswatch.build disk now (Fswatch.teardown st)))
      with (Fswatch.timers (Fswatch.teardown st)).
    rewrite teardown_timer, Hi. simpl.
    rewrite decide_True; [done|]. apply pending_values. eauto. }
  split; [eauto|].
  assert (Hsil : silenced i st').
  { split; [eauto|]. rewrite Hst'. simpl. intros inv Hinv Hby.
    destruct (Hff inv i Hinv Hby) as (tm' & Hi' & Hfin'). congruence. }
  pose proof (wakes_silenced later
                (seq 0 (length (Fswatch.timers (Fswatch.run disk st' after))))
                _ i (run_silenced disk after st' i Hsil)) as [_ Hnever].
  exact Hnever.
Qed.

Lemma rebuild_cancels_pending_witness :
  let disk := fun _ : Q => figs_world in
  let before := [(0, "/figs/a.svg"); (1 # 10, "/figs/b.svg")]%Q in
  let after := [(3 # 10, "/figs/c.svg")]%Q in
  let st := Fswatch.elapse (2 # 10) (Fswatch.run disk (Fswatch.start disk 0) before) in
  let st' := Fswatch.handle_line disk (2 # 10)
               "/Users/marcos/.config/pdftex-figures/roots" st in
  Fswatch.pending_timers st !! "/figs/a.svg" = Some 0 ∧
  Fswatch.pending_timers st' = ∅ ∧
  ∀ inv, inv ∈ Fswatch.invocations (Fswatch.elapse 5 (Fswatch.run disk st' after)) →
         fired_by inv ≠ Some 0.
Proof.
  intros disk before after st st'.
  assert (Hpending : Fswatch.pending_timers st !! "/figs/a.svg" = Some 0).
  { vm_compute. reflexivity. }
  destruct (rebuild_cancels_pending disk 0%Q before (2 # 10)%Q
              "/Users/marcos/.config/pdftex-figures/roots" after 5%Q eq_refl)
    as [Hempty Hnever].
  split_and!; [exact Hpending|exact Hempty|].
  exact (proj2 (Hnever "/figs/a.svg" 0 Hpending)).
Defined.

Lemma wakes_length (now : Q) (l : list nat) (st : Fswatch.state) :
  length (Fswatch.timers (foldl (Fswatch.wake now) st l)) = length (Fswatch.timers st).
Proof.
  revert st. induction l as [|j l IH]; intros st; [done|].
  simpl. by rewrite IH, wake_length.
Qed.

Lemma cancels_length (l : list nat) (ts : list Timer) :
  length (foldr Fswatch.cancel ts l) = length ts.
Proof. induction l as [|k l IH]; [done|]. simpl. by rewrite cancel_length. Qed.

Lemma handle_line_length (disk : Q → world) (now : Q) (line : string) (st : Fswatch.state) :
  length (Fswatch.timers (Fswatch.handle_line disk now line st)) =
    length (Fswatch.timers st) +
    (if decide (Str.strip line = PurePath.to_string roots_file) then 0 else 1).
Proof.
  unfold Fswatch.handle_line. case_decide.
  - simpl. rewrite cancels_length. lia.
  - rewrite on_event_length. lia.
Qed.

Lemma run_length (disk : Q → world) (events : list (Q * string)) (st : Fswatch.state) :
  length (Fswatch.timers (Fswatch.run disk st events)) =
    length (Fswatch.timers st) + length (debounced_lines events).
Proof.
  revert st. induction events as [|[t line] events IH]; intros st.
  { simpl. lia. }
  change (Fswatch.run disk st ((t, line) :: events)) with
    (Fswatch.run disk (Fswatch.handle_line disk t line (Fswatch.elapse t st)) events).
  rewrite IH, handle_line_length. unfold Fswatch.elapse. rewrite wakes_length.
  unfold debounced_lines. rewrite filter_cons. simpl.
  repeat case_decide; simpl; try done; lia.
Qed.

Lemma wake_fired_once (now : Q) (st : Fswatch.state) (j : nat) :
  consistent st → fired_once st → fired_once (Fswatch.wake now st j).
Proof.
  intros (_ & _ & Hff) [Hnd Hby].
  destruct (wake_cases now st j) as [->|(tm & Hj & _ & Hlive & ->)]; [done|].
  pose proof (lookup_lt_Some _ _ _ Hj) as Hlt.
  split; simpl.
  - rewrite fmap_app. apply NoDup_app. split_and!; [done| |apply NoDup_singleton].
    intros x Hx Hx'. apply list_elem_of_singleton in Hx'. subst x.
    apply list_elem_of_fmap in Hx as (inv & Hinv & Hin).
    destruct (Hff inv j Hin (eq_sym Hinv)) as (tm' & Hj' & Hfin). congruence.
  - intros inv Hin. rewrite length_insert.
    apply elem_of_app in Hin as [Hin|Hin]; [by apply Hby|].
    apply list_elem_of_singleton in Hin. subst inv. eauto.
Qed.

Lemma wakes_fired_once (now : Q) (l : list nat) (st : Fswatch.state) :
  consistent st → fired_once st → fired_once (foldl (Fswatch.wake now) st l).
Proof.
  revert st. induction l as [|j l IH]; intros st Hc Hf; [done|].
  simpl. apply IH; [by apply wake_consistent|by apply wake_fired_once].
Qed.

Lemma handle_line_fired_once (disk : Q → world) (now : Q) (line : string)
    (st : Fswatch.state) :
  fired_once st → fired_once (Fswatch.handle_line disk now line st).
Proof.
  intros [Hnd Hby]. split.
  - unfold Fswatch.handle_line. by case_decide.
  - intros inv Hin. rewrite handle_line_length.
    assert (Hin' : inv ∈ Fswatch.invocations st).
    { unfold Fswatch.handle_line in Hin. by case_decide. }
    destruct (Hby inv Hin') as (i & Hi & Hlt). exists i. split; [done|lia].
Qed.

Lemma run_fired_once (disk : Q → world) (events : list (Q * string)) (st : Fswatch.state) :
  consistent st → fired_once st → fired_once (Fswatch.run disk st events).
Proof.
  revert st. induction events as [|ev events IH]; intros st Hc Hf; [done|].
  simpl. apply IH.
  - by apply handle_line_consistent, elapse_consistent.
  - by apply handle_line_fired_once, wakes_fired_once.
Qed.

Lemma bounded_NoDup_length (l : list (option nat)) (n : nat) :
  NoDup l → (∀ x, x ∈ l → ∃ i, x = Some i ∧ i < n) → length l ≤ n.
Proof.
  intros Hnd Hall.
  assert (Hsub : l ⊆+ (Some <$> seq 0 n)).
  { apply NoDup_submseteq; [done|]. intros x Hx.
    destruct (Hall x Hx) as (i & -> & Hi).
    apply list_elem_of_fmap. exists i. split; [done|]. apply elem_of_seq. lia. }
  apply submseteq_length in Hsub. by rewrite length_fmap, length_seq in Hsub.
Qed.

(** X11.  At any point of any run, no timer has called the trigger twice,
    and the trigger has been called at most as many times as lines other
    than the roots file were read. *)
Theorem debouncing_never_multiplies
    (disk : Q → world) (boot : Q) (events : list (Q * string)) (now : Q) :
  let st := Fswatch.elapse now (Fswatch.run disk (Fswatch.start disk boot) events) in
  NoDup (fired_by <$> Fswatch.invocations st) ∧
  length (Fswatch.invocations st) ≤ length (debounced_lines events).
Proof.
  intros st.
  assert (Hf : fired_once st).
  { apply wakes_fired_once.
    - apply run_consistent, start_consistent.
    - apply run_fired_once; [apply start_consistent|].
      split; [apply NoDup_nil_2|]. intros inv Hin. by apply elem_of_nil in Hin. }
  destruct Hf as [Hnd Hby]. split; [done|].
  assert (Hlen : length (Fswatch.timers st) = length (debounced_lines events)).
  { subst st. unfold Fswatch.elapse. by rewrite wakes_length, run_length. }
  rewrite <- Hlen, <- (length_fmap fired_by).
  apply bounded_NoDup_length; [done|].
  intros x Hx. apply list_elem_of_fmap in Hx as (inv & -> & Hin). by apply Hby.
Qed.

Lemma debounced_lines_app (pre post : list (Q * string)) :
  debounced_lines (pre ++ post) = debounced_lines pre ++ debounced_lines post.
Proof. apply filter_app. Qed.

Lemma sourced_weaken (pre post : list (Q * string)) (st : Fswatch.state) :
  sourced pre st → sourced (pre ++ post) st.
Proof.
  intros [Ht Hi]. split.
  - intros i tm Htm. destruct (Ht i tm Htm) as (t & line & Hin & ?).
    exists t, line. split; [|done]. rewrite debounced_lines_app. apply elem_of_app. by left.
  - intros inv Hinv. destruct (Hi inv Hinv) as (t & line & Hin & ?).
    exists t, line. split; [|done]. rewrite debounced_lines_app. apply elem_of_app. by left.
Qed.

Lemma wake_sourced (events : list (Q * string)) (now : Q) (st : Fswatch.state) (j : nat) :
  sourced events st → sourced events (Fswatch.wake now st j).
Proof.
  intros [Ht Hi].
  destruct (wake_cases now st j) as [->|(tm & Hj & _ & _ & ->)]; [done|].
  split; simpl.
  - intros i tm' Htm'. destruct (decide (i = j)) as [->|Hne].
    + rewrite list_lookup_insert_eq in Htm' by by eapply lookup_lt_Some.
      injection Htm' as <-. by apply (Ht j tm).
    + rewrite list_lookup_insert_ne in Htm' by done. by apply (Ht i).
  - intros inv Hinv. apply elem_of_app in Hinv as [Hinv|Hinv]; [by apply Hi|].
    apply list_elem_of_singleton in Hinv. subst inv. simpl.
    destruct (Ht j tm Hj) as (t & line & Hin & Hargs & Hdl).
    exists t, line. by rewrite Hargs, Hdl.
Qed.

Lemma wakes_sourced (events : list (Q * string)) (now : Q) (l : list nat)
    (st : Fswatch.state) :
  sourced events st → sourced events (foldl (Fswatch.wake now) st l).
Proof.
  revert st. induction l as [|j l IH]; intros st Hs; [done|].
  simpl. by apply IH, wake_sourced.
Qed.

Lemma handle_line_sourced (disk : Q → world) (events : list (Q * string))
    (now : Q) (line : string) (st : Fswatch.state) :
  sourced events st →
  sourced (events ++ [(now, line)]) (Fswatch.handle_line disk now line st).
Proof.
  intros Hs. unfold Fswatch.handle_line. case_decide as Hcfg.
  - apply sourced_weaken. destruct Hs as [Ht Hi]. split; [|done].
    intros i tm Htm. change (Fswatch.timers (Fswatch.build disk now (Fswatch.teardown st)))
      with (Fswatch.timers (Fswatch.teardown st)) in Htm.
    rewrite teardown_timer in Htm.
    destruct (Fswatch.timers st !! i) as [tm0|] eqn:Hi0; [|done].
    simpl in Htm. destruct (Ht i tm0 Hi0) as (t & l & ? & ? & ?).
    exists t, l. case_decide; injection Htm as <-; done.
  - assert (Hnew : (now, line) ∈ debounced_lines (events ++ [(now, line)])).
    { rewrite debounced_lines_app. apply elem_of_app. right.
      unfold debounced_lines. rewrite filter_cons_True by done. apply list_elem_of_here. }
    pose proof (sourced_weaken events [(now, line)] st Hs) as [Ht Hi]. split; [|done].
    intros i tm Htm.
    destruct (decide (i < length (Fswatch.timers st))) as [Hlt|Hge].
    + rewrite on_event_old_timer in Htm by done.
      destruct (Fswatch.timers st !! i) as [tm0|] eqn:Hi0; [|done].
      simpl in Htm. destruct (Ht i tm0 Hi0) as (t & l & ? & ? & ?).
      exists t, l. case_decide; injection Htm as <-; done.
    + pose proof (lookup_lt_Some _ _ _ Htm) as Hlt. rewrite on_event_length in Hlt.
      assert (i = length (Fswatch.timers st)) as -> by lia.
      rewrite (proj2 (on_event_new_timer now (Str.strip line) st)) in Htm.
      injection Htm as <-. by exists now, line.
Qed.

Lemma run_sourced (disk : Q → world) (events : list (Q * string)) :
  ∀ (pre : list (Q * string)) (st : Fswatch.state),
    sourced pre st → sourced (pre ++ events) (Fswatch.run disk st events).
Proof.
  induction events as [|[t line] events IH]; intros pre st Hs.
  { by rewrite app_nil_r. }
  change (Fswatch.run disk st ((t, line) :: events)) with
    (Fswatch.run disk (Fswatch.handle_line disk t line (Fswatch.elapse t st)) events).
  rewrite (cons_middle (t, line) pre events), app_assoc.
  apply IH, handle_line_sourced, wakes_sourced, Hs.
Qed.

(** X12.  At any point of any run, every call of the trigger is for a
    path that was read from the watcher and is not the roots file, and it
    happens exactly [debounce_seconds] after a line that reported that
    path. *)
Theorem trigger_follows_a_report
    (disk : Q → world) (boot : Q) (events : list (Q * string)) (now : Q)
    (inv : invocation) :
  inv ∈ Fswatch.invocations
          (Fswatch.elapse now (Fswatch.run disk (Fswatch.start disk boot) events)) →
  ∃ (t : Q) (line : string),
    (t, line) ∈ events ∧
    argument inv = Str_ (Str.strip line) ∧
    Str.strip line ≠ PurePath.to_string roots_file ∧
    fired_at inv = (t + Fswatch.debounce_seconds)%Q.
Proof.
  intros Hinv.
  assert (Hs : sourced events
                 (Fswatch.elapse now (Fswatch.run disk (Fswatch.start disk boot) events))).
  { apply wakes_sourced. apply (run_sourced disk events [] (Fswatch.start disk boot)).
    split.
    - intros i tm Htm. simpl in Htm. by rewrite lookup_nil in Htm.
    - intros inv' Hin. by apply elem_of_nil in Hin. }
  destruct Hs as [_ Hi]. destruct (Hi inv Hinv) as (t & line & Hin & Harg & Hat).
  apply list_elem_of_filter in Hin as [Hcfg Hin]. simpl in Hcfg.
  exists t, line. done.
Qed.

Lemma trigger_follows_a_report_witness :
  ∃ (t : Q) (line : string),
    (t, line) ∈ burst ∧
    Str_ "/figs/other.svg" = Str_ (Str.strip line) ∧
    Str.strip line ≠ PurePath.to_string roots_file ∧
    ((15 # 100) + Fswatch.debounce_seconds = t + Fswatch.debounce_seconds)%Q.
Proof.
  apply (trigger_follows_a_report (fun _ => figs_world) 0%Q burst 2%Q
           {| fired_at := (15 # 100) + Fswatch.debounce_seconds; fired_by := Some 2;
              argument := Str_ "/figs/other.svg" |}).
  apply list_elem_of_In. vm_compute. left. reflexivity.
Defined.

(** ** Lines and events *)

Lemma rstrip_newline (u : string) :
  Str.rstrip (u +:+ String Str.LF "") = Str.rstrip u.
Proof.
  induction u as [|c u IH]; [done|].
  change (String c u +:+ String Str.LF "") with (String c (u +:+ String Str.LF "")).
  cbn [Str.rstrip]. by rewrite IH.
Qed.

Lemma strip_newline (s : string) :
  Str.strip (s +:+ String Str.LF "") = Str.strip s.
Proof.
  unfold Str.strip. induction s as [|c s IH]; [done|].
  change (String c s +:+ String Str.LF "") with (String c (s +:+ String Str.LF "")).
  cbn [Str.lstrip]. destruct (Str.is_space c); [done|].
  apply (rstrip_newline (String c s)).
Qed.

Lemma rstrip_head (c : ascii) (s : string) :
  Str.is_space c = false → ∃ r, Str.rstrip (String c s) = String c r.
Proof.
  intros Hc. cbn [Str.rstrip]. destruct (Str.rstrip s); [rewrite Hc|]; eauto.
Qed.

Lemma lstrip_strip (s : string) : Str.lstrip (Str.strip s) = Str.strip s.
Proof.
  unfold Str.strip. induction s as [|c s IH]; [done|].
  cbn [Str.lstrip]. destruct (Str.is_space c) eqn:Hc; [done|].
  destruct (rstrip_head c s Hc) as [r ->]. cbn [Str.lstrip]. by rewrite Hc.
Qed.

Lemma rstrip_rstrip (s : string) : Str.rstrip (Str.rstrip s) = Str.rstrip s.
Proof.
  induction s as [|c s IH]; [done|].
  cbn [Str.rstrip]. destruct (Str.rstrip s) as [|d r] eqn:Hr.
  - destruct (Str.is_space c) eqn:Hc; [done|]. cbn [Str.rstrip]. by rewrite Hc.
  - cbn [Str.rstrip] in *. by rewrite IH.
Qed.

Lemma strip_strip (s : string) : Str.strip (Str.strip s) = Str.strip s.
Proof.
  unfold Str.strip at 1. rewrite lstrip_strip. unfold Str.strip. apply rstrip_rstrip.
Qed.

(** X13.  The polling daemon treats a line as its stripped text: the
    newline [readline] leaves at the end of a line changes nothing, and a
    line and its stripped form are handled alike. *)
Theorem line_handled_as_stripped
    (disk : Q → world) (now : Q) (line : string) (st : Fswatch.state) :
  Fswatch.handle_line disk now (line +:+ String Str.LF "") st
    = Fswatch.handle_line disk now line st ∧
  Fswatch.handle_line disk now (Str.strip line) st
    = Fswatch.handle_line disk now line st.
Proof.
  unfold Fswatch.handle_line. by rewrite strip_newline, strip_strip.
Qed.

(** ** The native backend: events and rebuilds *)

Lemma inotify_handle_event_other (cfg : user_config) (disk : Q → world) (now : Q)
    (path filename : string) (st : Inotify.state) :
  path ≠ PurePath.to_string roots_file →
  Inotify.handle_event cfg disk now path filename st =
    match outcome (maybe_recompile_figure cfg
                     (argument (inotify_invocation (now, (path, filename)))) (disk now)) with
    | Returned _ =>
        Returned
          {| Inotify.roots := Inotify.roots st;
             Inotify.watches := Inotify.watches st;
             Inotify.invocations :=
               Inotify.invocations st ++ [inotify_invocation (now, (path, filename))];
             Inotify.journal := Inotify.journal st |}
    | Raised e => Raised e
    end.
Proof.
  intros Hpath. unfold Inotify.handle_event.
  rewrite decide_False by done. reflexivity.
Qed.

Lemma inotify_run_raised (cfg : user_config) (disk : Q → world) (e : exn)
    (events : list (Q * (string * string))) :
  Inotify.run cfg disk (Raised e) events = Raised e.
Proof. induction events as [|ev events IH]; [done|]. exact IH. Qed.

Lemma inotify_run_returning (cfg : user_config) (disk : Q → world)
    (events : list (Q * (string * string))) (st : Inotify.state) :
  Forall (fun ev : Q * (string * string) => ev.2.1 ≠ PurePath.to_string roots_file) events →
  Forall (trigger_returns cfg disk) events →
  Inotify.run cfg disk (Returned st) events =
    Returned
      {| Inotify.roots := Inotify.roots st;
         Inotify.watches := Inotify.watches st;
         Inotify.invocations := Inotify.invocations st ++ (inotify_invocation <$> events);
         Inotify.journal := Inotify.journal st |}.
Proof.
  intros Hall. revert st.
  induction Hall as [|[t [path filename]] events Hev Hall IH]; intros st Hret.
  { simpl. rewrite app_nil_r. by destruct st. }
  simpl in Hev. apply Forall_cons in Hret as [Hret Hrest].
  change (Inotify.run cfg disk (Returned st) ((t, (path, filename)) :: events)) with
    (Inotify.run cfg disk (Inotify.handle_event cfg disk t path filename st) events).
  rewrite inotify_handle_event_other by done.
  unfold trigger_returns in Hret. cbn [fst] in Hret. rewrite Hret.
  rewrite IH by done. simpl. by rewrite <- app_assoc.
Qed.

(** X14.  As long as the trigger returns, the native daemon calls it once
    for every event that is not the roots file, at the instant of the event
    and in the order of the events, and such events leave its roots, its
    watches and its journal as they were.  The first event at which the
    trigger raises ends the daemon with that exception, whatever events
    follow. *)
Theorem inotify_triggers_once_per_event
    (cfg : user_config) (disk : Q → world)
    (events : list (Q * (string * string))) (st : Inotify.state) :
  Forall (fun ev : Q * (string * string) => ev.2.1 ≠ PurePath.to_string roots_file) events →
  (Forall (trigger_returns cfg disk) events →
   Inotify.run cfg disk (Returned st) events =
     Returned
       {| Inotify.roots := Inotify.roots st;
          Inotify.watches := Inotify.watches st;
          Inotify.invocations := Inotify.invocations st ++ (inotify_invocation <$> events);
          Inotify.journal := Inotify.journal st |})
  ∧
  (∀ before ev after (e : exn),
     events = before ++ ev :: after →
     Forall (trigger_returns cfg disk) before →
     outcome (maybe_recompile_figure cfg (argument (inotify_invocation ev)) (disk ev.1))
       = Raised e →
     Inotify.run cfg disk (Returned st) events = Raised e).
Proof.
  intros Hall. split.
  - by apply inotify_run_returning.
  - intros before [t [path filename]] after e -> Hbefore Hraise.
    apply Forall_app in Hall as [Hb Ha]. apply Forall_cons in Ha as [Hev _].
    unfold Inotify.run. rewrite foldl_app. fold (Inotify.run cfg disk (Returned st) before).
    rewrite inotify_run_returning by done.
    cbn [foldl]. unfold Inotify.step at 2. cbn [fst snd].
    rewrite inotify_handle_event_other by done. cbn [fst] in Hraise. rewrite Hraise.
    apply inotify_run_raised.
Qed.

Lemma inotify_triggers_once_per_event_witness :
  (∃ st st',
     Inotify.start (fun _ => figs_world) 0 = Returned st ∧
     Inotify.run no_config (fun _ => figs_world) (Returned st)
       [(0, ("/figs", "diagram.svg")); (1 # 10, ("/figs", "diagram.svg"))]%Q = Returned st' ∧
     length (Inotify.invocations st') = 2) ∧
  Inotify.run no_config (fun _ => no_osascript_world) (Returned Inotify.initial)
    [(0, ("/figs", "diagram.svg")); (1 # 10, ("/figs", "logo.afdesign"));
     (2 # 10, ("/figs", "diagram.svg"))]%Q = Raised OSError.
Proof.
  split.
  - eexists. eexists. split; [reflexivity|]. split.
    + apply (inotify_triggers_once_per_event no_config (fun _ => figs_world)
               [(0, ("/figs", "diagram.svg")); (1 # 10, ("/figs", "diagram.svg"))]%Q).
      * repeat constructor; discriminate.
      * repeat constructor.
    + reflexivity.
  - apply (inotify_triggers_once_per_event no_config (fun _ => no_osascript_world)
             [(0, ("/figs", "diagram.svg")); (1 # 10, ("/figs", "logo.afdesign"));
              (2 # 10, ("/figs", "diagram.svg"))]%Q Inotify.initial)
      with (before := [(0%Q, ("/figs", "diagram.svg"))])
           (ev := ((1 # 10)%Q, ("/figs", "logo.afdesign")))
           (after := [((2 # 10)%Q, ("/figs", "diagram.svg"))]).
    + repeat constructor; discriminate.
    + reflexivity.
    + repeat constructor.
    + reflexivity.
Defined.

Lemma unregister_roots_keeps (w : world) (todo : list string) (st : Inotify.state) :
  Inotify.invocations (Inotify.unregister_roots w todo st) = Inotify.invocations st ∧
  Inotify.roots (Inotify.unregister_roots w todo st) = Inotify.roots st.
Proof.
  revert st. induction todo as [|root rest IH]; intros st; [done|].
  cbn [Inotify.unregister_roots]. unfold Inotify.remove_watch.
  destruct (unwatch_ok w root);
    match goal with |- context [Inotify.unregister_roots w rest ?s] =>
      destruct (IH s) as [-> ->] end; done.
Qed.

(** X15.  An event for the roots file makes the native daemon rebuild.
    Watches that cannot be removed never stop it: the rebuild fails, with
    the notifier's error, exactly when the new watch on the roots file is
    refused.  Otherwise the daemon holds the roots read from the store at that
    instant, watches the roots file and every root that is accepted, and
    keeps the trigger calls made so far. *)
Theorem inotify_rebuild_outcome
    (cfg : user_config) (disk : Q → world) (now : Q) (filename : string)
    (st : Inotify.state) :
  let w := disk now in
  let result :=
    Inotify.handle_event cfg disk now (PurePath.to_string roots_file) filename st in
  (watch_ok w (PurePath.to_string roots_file) = false → result = Raised InotifyError) ∧
  (watch_ok w (PurePath.to_string roots_file) = true →
   ∃ st', result = Returned st' ∧
          Inotify.roots st' = (get_roots w).1 ∧
          Inotify.watches st' =
            PurePath.to_string roots_file :: List.filter (watch_ok w) (get_roots w).1 ∧
          Inotify.invocations st' = Inotify.invocations st).
Proof.
  intros w result. subst result. unfold Inotify.handle_event.
  rewrite decide_True by done. fold w.
  unfold Inotify.build, Inotify.add_watch. fold w. split; intros Hok; rewrite Hok; [done|].
  eexists. split; [reflexivity|].
  match goal with |- context [Inotify.register_roots w ?r ?s] =>
    destruct (register_roots_spec w r s) as (Hr & Hi & Hw & _) end.
  rewrite Hr, Hi, Hw. simpl. split_and!; [done|done|].
  by rewrite (proj1 (unregister_roots_keeps _ _ _)).
Qed.

Lemma inotify_rebuild_outcome_witness :
  let refusing := set_roots_text "/figs"
    {| cwd := "/home/user"; roots_text := "";
       path_exists := fun _ => false; version_output := None;
       returncode := fun _ => 0%Z;
       remove_ok := fun _ => true; osascript_status := Some 0%Z;
       watch_ok := fun _ => false; unwatch_ok := fun _ => false |} in
  Inotify.handle_event no_config (fun _ => refusing) 0
    "/Users/marcos/.config/pdftex-figures/roots" "" Inotify.initial = Raised InotifyError ∧
  ∃ st', Inotify.handle_event no_config (fun _ => vanished_world) 0
           "/Users/marcos/.config/pdftex-figures/roots" "" Inotify.initial = Returned st' ∧
         Inotify.watches st' =
           ["/Users/marcos/.config/pdftex-figures/roots"; "/figs"; "/home/user"].
Proof.
  intros refusing. split.
  - by apply (inotify_rebuild_outcome no_config (fun _ => refusing) 0%Q "" Inotify.initial).
  - destruct (inotify_rebuild_outcome no_config (fun _ => vanished_world) 0%Q ""
                Inotify.initial) as [_ Hok].
    destruct (Hok eq_refl) as (st' & Hres & _ & Hw & _).
    exists st'. split; [exact Hres|exact Hw].
Defined.

(** ** The [create] command *)

Lemma leading_spaces_stripped (title : string) :
  String.length (Str.strip title) - String.length (Str.lstrip (Str.strip title)) = 0.
Proof. rewrite lstrip_strip. lia. Qed.

Lemma indent_zero (text : string) : indent text 0 = text.
Proof.
  rewrite indent_unfold.
  rewrite (list_fmap_ext _ id (Str.split Str.LF text)) by done.
  rewrite list_fmap_id. apply join_split.
Qed.

Lemma in_get_roots_add_root (w : world) (path : str_or_path) :
  one_line (str path) → one_line (cwd w) →
  str path ∈ (get_roots (add_root path w).2).1.
Proof.
  intros Hp Hc. rewrite get_roots_add_root by done.
  case_decide; [done|]. apply elem_of_app. right. apply list_elem_of_here.
Qed.

(** X16.  For a title within ASCII: when the directory can be made, the
    figure file is not there yet, the template can be copied and the editor
    can be started, [create] makes the directory if it is missing, copies the
    template, registers the directory with [add_root], opens the editor and
    prints the snippet for the stem of the new file and the stripped title.
    The printed snippet is never indented, whatever blanks the title came
    with: the indentation is measured on the title after it was stripped.
    Afterwards [get_roots] lists the directory. *)
Theorem create_registers_and_prints
    (cfg : user_config) (sys : Cli.faults) (title root : string) (w : world) :
  let figures := PurePath.absolute (cwd w) (PurePath.of_string root) in
  let figure_path := PurePath.joinpath figures (Cli.file_name title) in
  let w1 := if path_exists w (PurePath.to_string figures) then w
            else Cli.with_path (PurePath.to_string figures) w in
  let w2 := (add_root (Path_ figures)
               (Cli.with_path (PurePath.to_string figure_path) w1)).2 in
  Str.isascii title = true →
  Cli.mkdir_fails sys (PurePath.to_string figures) = false →
  path_exists w1 (PurePath.to_string figure_path) = false →
  Cli.copy_fails sys (PurePath.to_string Cli.template)
    (PurePath.to_string figure_path) = false →
  Cli.open_fails sys (Cli.open_argv figure_path) = false →
  Cli.create cfg sys title root w =
    ((if path_exists w (PurePath.to_string figures) then []
      else [Cli.Mkdir (PurePath.to_string figures)]) ++
     [Cli.CopyFile (PurePath.to_string Cli.template) (PurePath.to_string figure_path);
      Cli.open_svg_file figure_path;
      Cli.Print (bound_latex_template cfg (PurePath.stem figure_path) (Str.strip title))],
     Cli.Completed, w2) ∧
  (one_line (PurePath.to_string figures) → one_line (cwd w) →
   PurePath.to_string figures ∈ (get_roots w2).1).
Proof.
  intros figures figure_path w1 w2 _ Hmkdir Hnew Hcopy Hopen. split.
  - unfold Cli.create, Cli.create_figure. cbn [Path].
    fold figures. change (Cli.lower (Str.replace " " "-" (Str.strip title)) +:+ ".svg")
      with (Cli.file_name title). fold figure_path.
    rewrite Hmkdir. subst w2 w1.
    destruct (path_exists w (PurePath.to_string figures)); cbn zeta iota beta;
      rewrite Hnew, Hcopy, Hopen, leading_spaces_stripped, indent_zero; reflexivity.
  - intros Hfig Hcwd. subst w2.
    apply (in_get_roots_add_root _ (Path_ figures)); [done|].
    subst w1. by destruct (path_exists w (PurePath.to_string figures)).
Qed.

Lemma create_registers_and_prints_witness :
  let r := Cli.create no_config no_faults "  My first Figure " "/figs"
             (empty_store "/home/user") in
  r.1.1 = [Cli.Mkdir "/figs";
           Cli.CopyFile "/Users/marcos/.config/pdftex-figures/template.svg"
             "/figs/my-first-figure.svg";
           Cli.Open ["open"; "-a"; "Affinity Designer 2"; "/figs/my-first-figure.svg"];
           Cli.Print (latex_template "my-first-figure" "My first Figure")] ∧
  "/figs" ∈ (get_roots r.2).1.
Proof.
  intros r.
  destruct (create_registers_and_prints no_config no_faults "  My first Figure " "/figs"
              (empty_store "/home/user") eq_refl eq_refl eq_refl eq_refl eq_refl)
    as [Hrun Hlisted].
  split.
  - subst r. rewrite Hrun. reflexivity.
  - subst r. rewrite Hrun. apply Hlisted; vm_compute; done.
Defined.

(** X17.  For a title within ASCII, [create] writes to the roots file only
    after the template was copied.  When the figure file is already there it
    prints the title followed by [ 2] and does nothing else.  Whenever it
    fails it prints nothing, and when it fails before it tries the editor,
    at [mkdir] or [copy], the roots file is as before.  Whenever the roots
    file has changed, the copy was made and the editor was tried.  And when
    the editor cannot be started the command fails although the directory has
    been registered already. *)
Theorem create_writes_store_only_after_copy
    (cfg : user_config) (sys : Cli.faults) (title root : string) (w : world) :
  let figures := PurePath.absolute (cwd w) (PurePath.of_string root) in
  let figure_path := PurePath.joinpath figures (Cli.file_name title) in
  let w1 := if path_exists w (PurePath.to_string figures) then w
            else Cli.with_path (PurePath.to_string figures) w in
  let r := Cli.create cfg sys title root w in
  Str.isascii title = true →
  (path_exists w (PurePath.to_string figures) = true ∨
     Cli.mkdir_fails sys (PurePath.to_string figures) = false →
   path_exists w1 (PurePath.to_string figure_path) = true →
   r = ((if path_exists w (PurePath.to_string figures) then []
         else [Cli.Mkdir (PurePath.to_string figures)]) ++
        [Cli.Print (Str.strip title +:+ " 2")], Cli.Completed, w1)) ∧
  (r.1.2 = Cli.Failed → List.filter is_print r.1.1 = []) ∧
  (r.1.2 = Cli.Failed → Cli.open_svg_file figure_path ∉ r.1.1 →
   roots_text r.2 = roots_text w) ∧
  (roots_text r.2 ≠ roots_text w →
   Cli.copy_fails sys (PurePath.to_string Cli.template)
     (PurePath.to_string figure_path) = false ∧
   Cli.CopyFile (PurePath.to_string Cli.template) (PurePath.to_string figure_path)
     ∈ r.1.1 ∧
   Cli.open_svg_file figure_path ∈ r.1.1) ∧
  (path_exists w (PurePath.to_string figures) = true ∨
     Cli.mkdir_fails sys (PurePath.to_string figures) = false →
   path_exists w1 (PurePath.to_string figure_path) = false →
   Cli.copy_fails sys (PurePath.to_string Cli.template)
     (PurePath.to_string figure_path) = false →
   Cli.open_fails sys (Cli.open_argv figure_path) = true →
   r.1.2 = Cli.Failed ∧
   r.2 = (add_root (Path_ figures)
            (Cli.with_path (PurePath.to_string figure_path) w1)).2).
Proof.
  intros figures figure_path w1 r _. subst r w1.
  unfold Cli.create, Cli.create_figure. cbn [Path].
  fold figures. change (Cli.lower (Str.replace " " "-" (Str.strip title)) +:+ ".svg")
    with (Cli.file_name title). fold figure_path.
  destruct (path_exists w (PurePath.to_string figures)) eqn:Hdir;
    [|destruct (Cli.mkdir_fails sys (PurePath.to_string figures)) eqn:Hmk];
    cbn zeta iota beta.
  - destruct (path_exists w (PurePath.to_string figure_path)) eqn:Hfig;
      [|destruct (Cli.copy_fails sys _ _) eqn:Hcp;
        [|destruct (Cli.open_fails sys _) eqn:Hop]];
      cbn zeta iota beta; cbn [fst snd app];
      split_and!; intros; try done;
      try (exfalso; congruence);
      try (by rewrite ?elem_of_cons, ?elem_of_nil; auto 6);
      try (exfalso; match goal with H : _ ∉ _ |- _ => apply H end;
           rewrite !elem_of_cons; by auto 6).
  - cbn [fst snd]. split_and!; intros; try done; try (exfalso; congruence);
      match goal with H : _ ∨ _ |- _ => destruct H; congruence end.
  - destruct (path_exists (Cli.with_path (PurePath.to_string figures) w)
                (PurePath.to_string figure_path)) eqn:Hfig;
      [|destruct (Cli.copy_fails sys _ _) eqn:Hcp;
        [|destruct (Cli.open_fails sys _) eqn:Hop]];
      cbn zeta iota beta; cbn [fst snd app];
      split_and!; intros; try done;
      try (exfalso; congruence);
      try (by rewrite ?elem_of_cons, ?elem_of_nil; auto 6);
      try (exfalso; match goal with H : _ ∉ _ |- _ => apply H end;
           rewrite !elem_of_cons; by auto 6).
Qed.

Lemma create_writes_store_only_after_copy_witness :
  let present := Cli.with_path "/figs/diagram.svg" (Cli.with_path "/figs" figs_world) in
  Cli.create no_config no_faults " Diagram" "/figs" present
    = ([Cli.Print "Diagram 2"], Cli.Completed, present) ∧
  roots_text (Cli.create no_config no_copy "Diagram" "/figs" figs_world).2 = "/figs" ∧
  Cli.CopyFile "/Users/marcos/.config/pdftex-figures/template.svg" "/new/diagram.svg"
    ∈ (Cli.create no_config no_faults "Diagram" "/new" figs_world).1.1 ∧
  (let r := Cli.create no_config no_open "Diagram" "/new" figs_world in
   r.1.2 = Cli.Failed ∧ "/new" ∈ persisted r.2).
Proof.
  intros present.
  destruct (create_writes_store_only_after_copy no_config no_faults " Diagram" "/figs" present
              eq_refl) as (Hexists & _).
  destruct (create_writes_store_only_after_copy no_config no_copy "Diagram" "/figs" figs_world
              eq_refl) as (_ & _ & Hfailed & _).
  destruct (create_writes_store_only_after_copy no_config no_faults "Diagram" "/new" figs_world
              eq_refl) as (_ & _ & _ & Hwritten & _).
  destruct (create_writes_store_only_after_copy no_config no_open "Diagram" "/new" figs_world
              eq_refl) as (_ & _ & _ & _ & Heditor).
  split_and!.
  - apply Hexists; [by left|reflexivity].
  - apply Hfailed; [reflexivity|].
    intros H. apply list_elem_of_In in H. vm_compute in H.
    repeat (destruct H as [H|H]; [discriminate H|]). destruct H.
  - refine (proj1 (proj2 (Hwritten _))). vm_compute. discriminate.
  - cbn zeta. destruct Heditor as [Hends Hworld]; [by right|reflexivity..|].
    split; [exact Hends|]. rewrite Hworld.
    apply list_elem_of_In. vm_compute. auto.
Defined.

Lemma mem_lstrip (c : ascii) (s : string) :
  Str.mem c s = false → Str.mem c (Str.lstrip s) = false.
Proof.
  induction s as [|a s IH]; [done|].
  cbn [Str.lstrip]. destruct (Str.is_space a); [|done].
  cbn [Str.mem]. intros H. apply orb_false_iff in H as [_ H]. by apply IH.
Qed.

Lemma mem_rstrip (c : ascii) (s : string) :
  Str.mem c s = false → Str.mem c (Str.rstrip s) = false.
Proof.
  induction s as [|a s IH]; [done|].
  cbn [Str.rstrip Str.mem]. intros H. apply orb_false_iff in H as [Ha Hs].
  specialize (IH Hs). destruct (Str.rstrip s) as [|d r].
  - destruct (Str.is_space a); [done|]. cbn [Str.mem]. by rewrite Ha.
  - cbn [Str.mem] in *. by rewrite Ha, IH.
Qed.

Lemma lower_slash (c : ascii) : Ascii.eqb (Str.to_lower c) "/" = Ascii.eqb c "/".
Proof. by_ascii c. Qed.

Lemma mem_lower_slash (s : string) : Str.mem "/" (Cli.lower s) = Str.mem "/" s.
Proof.
  induction s as [|a s IH]; [done|].
  cbn [Cli.lower Str.mem]. by rewrite lower_slash, IH.
Qed.

Lemma append_length (a b : string) :
  String.length (a +:+ b) = String.length a + String.length b.
Proof.
  induction a as [|x a IH]; [done|].
  change (String x a +:+ b) with (String x (a +:+ b)). simpl. by rewrite IH.
Qed.

Lemma rfind_append (c : ascii) (a b : string) (i : nat) :
  Str.rfind c b = Some i → Str.rfind c (a +:+ b) = Some (String.length a + i).
Proof.
  intros Hb. induction a as [|x a IH]; [done|].
  change (String x a +:+ b) with (String x (a +:+ b)).
  cbn [Str.rfind]. by rewrite IH.
Qed.

Lemma substring_after (a b : string) (n : nat) :
  String.substring (String.length a) n (a +:+ b) = String.substring 0 n b.
Proof.
  induction a as [|x a IH]; [done|].
  change (String x a +:+ b) with (String x (a +:+ b)). simpl. exact IH.
Qed.

Lemma substring_before (a b : string) :
  String.substring 0 (String.length a) (a +:+ b) = a.
Proof.
  induction a as [|x a IH]; [by destruct b|].
  change (String x a +:+ b) with (String x (a +:+ b)). simpl. by rewrite IH.
Qed.

Lemma substring_all (s : string) : String.substring 0 (String.length s) s = s.
Proof. induction s as [|x s IH]; [done|]. simpl. by rewrite IH. Qed.

Lemma rfind_absent (c : ascii) (s : string) :
  Str.mem c s = false → Str.rfind c s = None.
Proof.
  induction s as [|a s IH]; [done|].
  cbn [Str.mem Str.rfind]. intros H. apply orb_false_iff in H as [Ha Hs].
  by rewrite IH, Ha.
Qed.

(** A name without slash, followed by a dot and an extension without dot
    or slash, is one path component with that suffix. *)
Lemma dotted_file_name (folder : PurePath.t) (base ext : string) :
  base ≠ "" → Str.mem "/" base = false →
  ext ≠ "" → Str.mem "/" ext = false → Str.mem "." ext = false →
  let p := PurePath.joinpath folder (base +:+ String "." ext) in
  PurePath.root p = PurePath.root folder ∧
  PurePath.parts p = PurePath.parts folder ++ [base +:+ String "." ext] ∧
  PurePath.name p = base +:+ String "." ext ∧
  PurePath.suffix p = String "." ext ∧
  PurePath.stem p = base.
Proof.
  intros Hne Hslash Hext Hext_slash Hext_dot p.
  assert (Hp : p = PurePath.mk (PurePath.root folder)
                     (PurePath.parts folder ++ [base +:+ String "." ext])).
  { subst p. unfold PurePath.joinpath, PurePath.of_string.
    destruct base as [|c base]; [done|].
    change (String c base +:+ String "." ext) with (String c (base +:+ String "." ext)).
    cbn [Str.mem] in Hslash. apply orb_false_iff in Hslash as [Hc Hbase].
    assert (Hsplit : PurePath.splitroot (String c (base +:+ String "." ext))
                     = ("", String c (base +:+ String "." ext))).
    { unfold PurePath.splitroot. destruct c as [[] [] [] [] [] [] [] []]; try done. }
    rewrite Hsplit. rewrite split_no_sep.
    2:{ cbn [Str.mem]. rewrite Hc. rewrite mem_append, Hbase. cbn [Str.mem].
        by rewrite Hext_slash. }
    rewrite filter_cons_True.
    2:{ split; [done|]. intros [= _ Heq]. by destruct base. }
    rewrite filter_nil. unfold PurePath.join. cbn [PurePath.root PurePath.parts].
    by rewrite decide_True. }
  assert (Hname : PurePath.name p = base +:+ String "." ext).
  { rewrite Hp. unfold PurePath.name. cbn [PurePath.parts]. by rewrite last_snoc. }
  assert (Hdot : PurePath.suffix_dot (base +:+ String "." ext) = Some (String.length base)).
  { unfold PurePath.suffix_dot.
    rewrite (rfind_append "." base (String "." ext) 0).
    2:{ cbn [Str.rfind]. by rewrite rfind_absent. }
    rewrite Nat.add_0_r, append_length. cbn [String.length].
    assert (0 < String.length base) by (destruct base; [done|simpl; lia]).
    assert (0 < String.length ext) by (destruct ext; [done|simpl; lia]).
    rewrite (proj2 (Nat.ltb_lt _ _)) by done.
    rewrite (proj2 (Nat.ltb_lt _ _)) by lia. done. }
  split_and!; [by rewrite Hp|by rewrite Hp|done| |].
  - unfold PurePath.suffix. rewrite Hname, Hdot. unfold Str.drop.
    rewrite substring_after, append_length.
    replace (String.length base + String.length (String "." ext) - String.length base)
      with (String.length (String "." ext)) by lia.
    apply substring_all.
  - unfold PurePath.stem. rewrite Hname, Hdot. unfold Str.take. apply substring_before.
Qed.

Lemma file_name_base (title : string) :
  Str.strip title ≠ "" → Str.mem "/" title = false →
  Cli.lower (Str.replace " " "-" (Str.strip title)) ≠ "" ∧
  Str.mem "/" (Cli.lower (Str.replace " " "-" (Str.strip title))) = false.
Proof.
  intros Hne Hslash. split.
  - destruct (Str.strip title); done.
  - rewrite mem_lower_slash. apply replace_keeps_absent; [done|].
    unfold Str.strip. by apply mem_rstrip, mem_lstrip.
Qed.

(** X18.  For a title within ASCII that is not blank and holds no slash,
    the file [create] makes is named after the title (blanks stripped, spaces
    turned into hyphens, lower case) with the suffix [.svg]; so a change to
    that file is one the trigger acts on, writing the snippet for that
    name. *)
Theorem created_figure_is_recognised
    (cfg : user_config) (title root : string) (w w' : world) :
  Str.isascii title = true →
  Str.strip title ≠ "" → Str.mem "/" title = false →
  let base := Cli.lower (Str.replace " " "-" (Str.strip title)) in
  let figure_path :=
    PurePath.joinpath (PurePath.absolute (cwd w) (PurePath.of_string root))
      (Cli.file_name title) in
  PurePath.suffix figure_path = ".svg" ∧
  PurePath.stem figure_path = base ∧
  maybe_recompile_figure cfg (Path_ figure_path) w' =
    ([ClipboardCopy (bound_latex_template cfg base (beautify base))], Returned tt).
Proof.
  intros _ Hne Hslash base figure_path.
  destruct (file_name_base title Hne Hslash) as [Hbase Hnoslash].
  destruct (dotted_file_name (PurePath.absolute (cwd w) (PurePath.of_string root))
              base "svg" Hbase Hnoslash) as (_ & _ & _ & Hsuf & Hstem); [done..|].
  change (PurePath.suffix figure_path = ".svg") in Hsuf.
  change (PurePath.stem figure_path = base) in Hstem.
  split_and!; [done|done|].
  rewrite maybe_recompile_figure_svg by done. cbn [Path]. by rewrite Hstem.
Qed.

Lemma created_figure_is_recognised_witness :
  let figure_path :=
    PurePath.joinpath (PurePath.absolute "/home/user" (PurePath.of_string "figs"))
      (Cli.file_name " My first Figure") in
  PurePath.to_string figure_path = "/home/user/figs/my-first-figure.svg" ∧
  PurePath.suffix figure_path = ".svg" ∧
  PurePath.stem figure_path = "my-first-figure".
Proof.
  intros figure_path.
  destruct (created_figure_is_recognised no_config " My first Figure" "figs"
              (empty_store "/home/user") figs_world) as (Hsuf & Hstem & _).
  - reflexivity.
  - discriminate.
  - reflexivity.
  - split_and!; [reflexivity|exact Hsuf|exact Hstem].
Defined.

Example blank_title_is_not_recognised :
  PurePath.suffix
    (PurePath.joinpath (PurePath.of_string "/figs") (Cli.file_name "  ")) = "".
Proof. reflexivity. Qed.

(** ** Where the converters write *)

Lemma mem_substring_0 (c : ascii) (s : string) (n : nat) :
  Str.mem c s = false → Str.mem c (String.substring 0 n s) = false.
Proof.
  revert n. induction s as [|a s IH]; intros n H; [by destruct n|].
  cbn [Str.mem] in H. apply orb_false_iff in H as [Ha Hs].
  destruct n as [|n]; [done|]. simpl. by rewrite Ha, IH.
Qed.

Lemma substring_0_nonempty (s : string) (n : nat) :
  0 < n → n < String.length s → String.substring 0 n s ≠ "".
Proof. destruct s as [|a s], n as [|n]; simpl; intros; try lia; done. Qed.

(** The stem of a file with a suffix is a non-empty part of its name. *)
Lemma stem_of_suffixed (p : PurePath.t) :
  PurePath.suffix p ≠ "" →
  PurePath.stem p ≠ "" ∧
  (Str.mem "/" (PurePath.name p) = false → Str.mem "/" (PurePath.stem p) = false) ∧
  PurePath.parts p ≠ [].
Proof.
  intros Hsuf. unfold PurePath.suffix, PurePath.stem in *.
  destruct (PurePath.suffix_dot (PurePath.name p)) as [i|] eqn:Hdot; [|done].
  unfold PurePath.suffix_dot in Hdot.
  destruct (Str.rfind "." (PurePath.name p)) as [j|]; [|done].
  destruct ((0 <? j) && (j <? String.length (PurePath.name p) - 1)) eqn:Hrange; [|done].
  injection Hdot as <-. apply andb_true_iff in Hrange as [H0 H1].
  apply Nat.ltb_lt in H0, H1. split_and!.
  - apply substring_0_nonempty; lia.
  - apply mem_substring_0.
  - intros Hparts. unfold PurePath.name in H1. rewrite Hparts in H1. simpl in H1. lia.
Qed.

Lemma parent_of_child (folder : PurePath.t) (p : PurePath.t) (x : string) :
  PurePath.root p = PurePath.root folder →
  PurePath.parts p = PurePath.parts folder ++ [x] →
  PurePath.parent p = folder.
Proof.
  intros Hroot Hparts. unfold PurePath.parent. rewrite Hparts, Hroot.
  destruct (PurePath.parts folder ++ [x]) as [|y l] eqn:Hl.
  { by apply app_nil in Hl as [_ ?]. }
  rewrite <- Hl, removelast_last. by destruct folder.
Qed.

(** X19.  For an [.svg] file whose name holds no slash, the PDF that
    [convert_svg_to_pdf_tex] asks for lies in the directory of the SVG and has
    the same stem with the suffix [.pdf]; both argument layouts name the SVG
    and that PDF. *)
Theorem pdf_written_next_to_svg (filepath : PurePath.t) (number : list Z) :
  PurePath.suffix filepath = ".svg" →
  Str.mem "/" (PurePath.name filepath) = false →
  let pdf_path :=
    PurePath.joinpath (PurePath.parent filepath) (PurePath.stem filepath +:+ ".pdf") in
  PurePath.parent pdf_path = PurePath.parent filepath ∧
  PurePath.stem pdf_path = PurePath.stem filepath ∧
  PurePath.suffix pdf_path = ".pdf" ∧
  PurePath.to_string filepath ∈ build_command number filepath pdf_path ∧
  PurePath.to_string pdf_path ∈ build_command number filepath pdf_path.
Proof.
  intros Hsuf Hname pdf_path.
  destruct (stem_of_suffixed filepath) as (Hstem & Hslash & _).
  { by rewrite Hsuf. }
  destruct (dotted_file_name (PurePath.parent filepath) (PurePath.stem filepath) "pdf")
    as (Hroot & Hparts & _ & Hpdf & Hsame); [by auto..|].
  change (PurePath.root pdf_path = PurePath.root (PurePath.parent filepath)) in Hroot.
  change (PurePath.parts pdf_path
          = PurePath.parts (PurePath.parent filepath) ++ [PurePath.stem filepath +:+ ".pdf"])
    in Hparts.
  change (PurePath.suffix pdf_path = ".pdf") in Hpdf.
  change (PurePath.stem pdf_path = PurePath.stem filepath) in Hsame.
  split_and!; [by eapply parent_of_child|done|done|..];
    unfold build_command, legacy_command, modern_command;
    destruct (list_lt number [1; 0; 0]%Z); rewrite !elem_of_cons; auto 12.
Qed.

Lemma pdf_written_next_to_svg_witness :
  let filepath := PurePath.of_string "/figs/my.diagram.svg" in
  let pdf_path :=
    PurePath.joinpath (PurePath.parent filepath) (PurePath.stem filepath +:+ ".pdf") in
  PurePath.to_string pdf_path = "/figs/my.diagram.pdf" ∧
  PurePath.parent pdf_path = PurePath.parent filepath ∧
  PurePath.suffix pdf_path = ".pdf".
Proof.
  intros filepath pdf_path.
  destruct (pdf_written_next_to_svg filepath [1; 2; 2]%Z eq_refl eq_refl)
    as (Hparent & _ & Hsuf & _).
  split_and!; [reflexivity|exact Hparent|exact Hsuf].
Defined.

(** X20.  For an [.afdesign] file whose name holds no slash,
    [afdesign_to_svg] exports to the SVG of the same stem in the directory of
    the file, made absolute in the working directory.  An export left from
    before is removed, and that before the script runs; when the removal
    fails the script is not run; nothing is removed otherwise.  The function
    raises when the removal fails or [osascript] cannot be started, and
    returns otherwise, whatever the exit status; the clipboard is not
    touched. *)
Theorem afdesign_export_target (w : world) (filepath : str_or_path) :
  let source := PurePath.absolute (cwd w) (Path filepath) in
  let export_path :=
    PurePath.joinpath (PurePath.parent source) (PurePath.stem source +:+ ".svg") in
  let started : result unit :=
    match osascript_status w with
    | Some _ => Returned tt
    | None => Raised OSError
    end in
  PurePath.suffix source = ".afdesign" →
  Str.mem "/" (PurePath.name source) = false →
  PurePath.parent export_path = PurePath.parent source ∧
  PurePath.stem export_path = PurePath.stem source ∧
  PurePath.suffix export_path = ".svg" ∧
  afdesign_to_svg filepath w =
    if path_exists w (PurePath.to_string export_path) then
      if remove_ok w (PurePath.to_string export_path) then
        ([Log INFO ("Deleting existing SVG " +:+ PurePath.to_string export_path);
          Remove (PurePath.to_string export_path);
          Osascript (PurePath.to_string (PurePath.parent source))],
         started)
      else
        ([Log INFO ("Deleting existing SVG " +:+ PurePath.to_string export_path);
          Remove (PurePath.to_string export_path)],
         Raised OSError)
    else ([Osascript (PurePath.to_string (PurePath.parent source))], started).
Proof.
  intros source export_path started Hsuf Hname.
  destruct (stem_of_suffixed source) as (Hstem & Hslash & _).
  { by rewrite Hsuf. }
  destruct (dotted_file_name (PurePath.parent source) (PurePath.stem source) "svg")
    as (Hroot & Hparts & _ & Hsvg & Hsame); [by auto..|].
  change (PurePath.root export_path = PurePath.root (PurePath.parent source)) in Hroot.
  change (PurePath.parts export_path
          = PurePath.parts (PurePath.parent source) ++ [PurePath.stem source +:+ ".svg"])
    in Hparts.
  change (PurePath.suffix export_path = ".svg") in Hsvg.
  change (PurePath.stem export_path = PurePath.stem source) in Hsame.
  split_and!; [by eapply parent_of_child|done|done|].
  unfold afdesign_to_svg. eff_unfold. simpl. fold source. fold export_path.
  subst started.
  destruct (path_exists w (PurePath.to_string export_path)); simpl;
    [destruct (remove_ok w (PurePath.to_string export_path)); simpl|];
    destruct (osascript_status w); reflexivity.
Qed.

Lemma afdesign_export_target_witness :
  afdesign_to_svg (Str_ "art/logo.afdesign") failing_osascript_world =
    ([Log INFO "Deleting existing SVG /home/user/art/logo.svg";
      Remove "/home/user/art/logo.svg";
      Osascript "/home/user/art"],
     Returned tt) ∧
  afdesign_to_svg (Str_ "art/logo.afdesign") no_osascript_world =
    ([Osascript "/home/user/art"], Raised OSError).
Proof.
  destruct (afdesign_export_target failing_osascript_world (Str_ "art/logo.afdesign")
              eq_refl eq_refl) as (_ & _ & _ & Hrun).
  destruct (afdesign_export_target no_osascript_world (Str_ "art/logo.afdesign")
              eq_refl eq_refl) as (_ & _ & _ & Habsent).
  split; [exact Hrun | exact Habsent].
Defined.

(** ** The [edit] command *)

Lemma py_index_nil {A : Type} (i : Z) : Edit.py_index (@nil A) i = None.
Proof.
  unfold Edit.py_index. destruct (0 <=? i)%Z; [apply lookup_nil|].
  destruct (- Z.of_nat (length (@nil A)) <=? i)%Z; [apply lookup_nil|done].
Qed.

Lemma py_index_Some {A : Type} (l : list A) (i : Z) (x : A) :
  Edit.py_index l i = Some x → (- Z.of_nat (length l) ≤ i < Z.of_nat (length l))%Z ∧ x ∈ l.
Proof.
  unfold Edit.py_index. destruct (0 <=? i)%Z eqn:H0.
  - intros H. pose proof (lookup_lt_Some _ _ _ H). split; [lia|].
    by eapply list_elem_of_lookup_2.
  - destruct (- Z.of_nat (length l) <=? i)%Z eqn:H1; [|done].
    intros H. pose proof (lookup_lt_Some _ _ _ H). split; [lia|].
    by eapply list_elem_of_lookup_2.
Qed.

(** X21.  [edit] on a directory asks the picker with the beautified stems
    of its SVG files and looks the answer up before it tests whether a choice
    was made.  So an index outside the list raises [IndexError], and with no
    SVG file in the directory every answer of the picker does; in that case,
    and when no choice was made, nothing is opened and the roots file is not
    written.  When a file is opened it is one of the files of the directory
    and the directory has been registered. *)
Theorem edit_directory
    (svg_files : string → list PurePath.t) (pick : list string → Z * bool)
    (root : string) (w : world) :
  Edit.endswith root ".svg" = false →
  let figures := PurePath.absolute (cwd w) (PurePath.of_string root) in
  let files := svg_files (PurePath.to_string figures) in
  let names := (fun f => beautify (PurePath.stem f)) <$> files in
  let r := Edit.edit svg_files pick root w in
  Edit.Pick names ∈ r.1.1 ∧
  (files = [] → r = ([Edit.Pick names], Edit.RaisesIndexError, w)) ∧
  ((pick names).2 = false → r.2 = w ∧ ∀ argv, Edit.Open argv ∉ r.1.1) ∧
  (∀ argv, Edit.Open argv ∈ r.1.1 →
     (pick names).2 = true ∧
     r.2 = (add_root (Path_ figures) w).2 ∧
     ∃ path, path ∈ files ∧ Edit.py_index files (pick names).1 = Some path ∧
             argv = ["open"; "-a"; "Affinity Designer 2"; PurePath.to_string path]).
Proof.
  intros Hdir figures files names r. subst r.
  unfold Edit.edit. rewrite Hdir. cbn [Path]. fold figures. fold files. fold names.
  destruct (pick names) as [index selected] eqn:Hpick. cbn [fst snd].
  destruct (Edit.py_index files index) as [path|] eqn:Hidx.
  - unfold Edit.finish. destruct selected; cbn [fst snd].
    + split_and!.
      * apply list_elem_of_here.
      * intros Hnil. rewrite Hnil, py_index_nil in Hidx. done.
      * done.
      * intros argv Hopen. split_and!; [done|done|].
        exists path. split_and!; [by eapply py_index_Some|done|].
        apply elem_of_cons in Hopen as [Hopen|Hopen]; [done|].
        apply list_elem_of_singleton in Hopen. by injection Hopen.
    + split_and!.
      * apply list_elem_of_here.
      * intros Hnil. rewrite Hnil, py_index_nil in Hidx. done.
      * intros _. split; [done|]. intros argv Hopen.
        apply list_elem_of_singleton in Hopen. done.
      * intros argv Hopen. apply list_elem_of_singleton in Hopen. done.
  - cbn [fst snd]. split_and!.
    + apply list_elem_of_here.
    + done.
    + intros _. split; [done|]. intros argv Hopen.
      apply list_elem_of_singleton in Hopen. done.
    + intros argv Hopen. apply list_elem_of_singleton in Hopen. done.
Qed.

Lemma edit_directory_witness :
  let empty := fun _ : string => @nil PurePath.t in
  let cancel := fun _ : list string => (-1, false)%Z in
  let two := fun _ : string =>
    [PurePath.of_string "/figs/new_one.svg"; PurePath.of_string "/figs/old-one.svg"] in
  let last := fun _ : list string => (-1, true)%Z in
  Edit.edit empty cancel "/figs" figs_world
    = ([Edit.Pick []], Edit.RaisesIndexError, figs_world) ∧
  (Edit.edit two cancel "/figs" figs_world).2 = figs_world ∧
  (Edit.edit two last "/figs" figs_world).1.1
    = [Edit.Pick ["New One"; "Old One"];
       Edit.Open ["open"; "-a"; "Affinity Designer 2"; "/figs/old-one.svg"]].
Proof.
  intros empty cancel two last.
  destruct (edit_directory empty cancel "/figs" figs_world eq_refl) as (_ & Hnone & _).
  destruct (edit_directory two cancel "/figs" figs_world eq_refl) as (_ & _ & Hcancel & _).
  split_and!.
  - by apply Hnone.
  - by apply Hcancel.
  - reflexivity.
Defined.

(** ** Registration and rebuild together *)

Lemma in_get_roots_iff (w : world) (x : string) :
  x ∈ (get_roots w).1 ↔ x ∈ persisted w ∨ x = cwd w.
Proof.
  rewrite get_roots_unfold. case_decide; cbn [fst].
  - split; [auto|]. by intros [?| ->].
  - by rewrite elem_of_app, list_elem_of_singleton.
Qed.

Lemma persisted_same_text (w w' : world) :
  roots_text w = roots_text w' → persisted w = persisted w'.
Proof. unfold persisted. by intros ->. Qed.

Lemma persisted_add_root (w : world) (path : str_or_path) :
  one_line (str path) → one_line (cwd w) →
  str path ≠ cwd w ∨ str path ∈ persisted w →
  str path ∈ persisted (add_root path w).2.
Proof.
  intros Hpath Hcwd Hcase. rewrite add_root_unfold. case_decide as Hin; cbn [snd].
  - apply in_get_roots_iff in Hin. tauto.
  - rewrite persisted_written.
    + apply elem_of_app. right. apply list_elem_of_here.
    + apply Forall_app. split; [by apply get_roots_one_line|]. by constructor.
Qed.

(** X22.  The daemon and the command that registers a directory are two
    processes: they share the roots file, and each has its working
    directory.  When the roots file is reported and holds what [add_root]
    left, the rebuild takes the directory up if it differs from the working
    directory of the registering process, or was in the file before, or is
    the working directory of the daemon: the polling daemon starts a watcher
    whose arguments are [fswatch], the listed roots, the directory among
    them, and the user directory; the native daemon, if its watch on the
    roots file is accepted, holds the directory among its roots, and watches
    it if the notifier accepts it.  In the remaining case, registering a
    working directory that is not in the file, [add_root] has written
    nothing, and a daemon running elsewhere does not list the directory. *)
Theorem rebuild_picks_up_new_root
    (cfg : user_config) (disk : Q → world) (now : Q) (line filename : string)
    (fs : Fswatch.state) (ino : Inotify.state) (w : world) (path : str_or_path) :
  one_line (str path) → one_line (cwd w) →
  roots_text (disk now) = roots_text (add_root path w).2 →
  Str.strip line = PurePath.to_string roots_file →
  let fs' := Fswatch.handle_line disk now line fs in
  (str path ≠ cwd w ∨ str path ∈ persisted w ∨ cwd (disk now) = str path →
   str path ∈ Fswatch.roots fs' ∧
   last (Fswatch.journal fs') =
     Some (Popen ("fswatch" :: Fswatch.roots fs' ++ [PurePath.to_string user_dir])) ∧
   (watch_ok (disk now) (PurePath.to_string roots_file) = true →
    ∃ ino', Inotify.handle_event cfg disk now (PurePath.to_string roots_file) filename ino
              = Returned ino' ∧
            str path ∈ Inotify.roots ino' ∧
            (watch_ok (disk now) (str path) = true → str path ∈ Inotify.watches ino')))
  ∧
  (str path = cwd w → str path ∉ persisted w → cwd (disk now) ≠ str path →
   roots_text (disk now) = roots_text w ∧
   (str path ∉ Fswatch.roots fs') ∧
   ∀ ino', Inotify.handle_event cfg disk now (PurePath.to_string roots_file) filename ino
             = Returned ino' →
           str path ∉ Inotify.roots ino').
Proof.
  intros Hpath Hcwd Hdisk Hline fs'.
  assert (Hfs : Fswatch.roots fs' = (get_roots (disk now)).1).
  { subst fs'. unfold Fswatch.handle_line. by rewrite decide_True. }
  split.
  - intros Hcase.
    assert (Hin : str path ∈ (get_roots (disk now)).1).
    { apply in_get_roots_iff.
      destruct (decide (cwd (disk now) = str path)) as [Hsame|Hother]; [by right|].
      left. rewrite (persisted_same_text _ _ Hdisk).
      apply persisted_add_root; [done|done|tauto]. }
    split_and!.
    + by rewrite Hfs.
    + subst fs'. unfold Fswatch.handle_line. rewrite decide_True by done.
      unfold Fswatch.build. cbn [Fswatch.journal Fswatch.roots].
      by rewrite last_app_cons.
    + intros Hok. unfold Inotify.handle_event. rewrite decide_True by done.
      unfold Inotify.build, Inotify.add_watch. rewrite Hok.
      eexists. split; [reflexivity|].
      match goal with |- context [Inotify.register_roots ?w0 ?r ?s] =>
        destruct (register_roots_spec w0 r s) as (Hr & _ & Hw & _) end.
      rewrite Hr, Hw. simpl. split; [exact Hin|].
      intros Hwatch. apply elem_of_cons. right.
      apply list_elem_of_In, List.filter_In. by rewrite <- list_elem_of_In.
  - intros Hsame Hfresh Helsewhere.
    assert (Hkept : (add_root path w).2 = w).
    { rewrite add_root_unfold. rewrite decide_True; [done|].
      rewrite Hsame. apply cwd_in_get_roots. }
    rewrite Hkept in Hdisk.
    assert (Hout : str path ∉ (get_roots (disk now)).1).
    { rewrite in_get_roots_iff, (persisted_same_text _ _ Hdisk). intros [?|?]; congruence. }
    split_and!; [done|by rewrite Hfs|].
    intros ino'. unfold Inotify.handle_event. rewrite decide_True by done.
    unfold Inotify.build, Inotify.add_watch.
    destruct (watch_ok (disk now) (PurePath.to_string roots_file)); [|done].
    intros [= <-].
    match goal with |- context [Inotify.register_roots ?w0 ?r ?s] =>
      destruct (register_roots_spec w0 r s) as (Hr & _) end.
    by rewrite Hr.
Qed.

Lemma rebuild_picks_up_new_root_witness :
  let daemon (w : world) := fun _ : Q => with_cwd "/srv" w in
  let reported := "/Users/marcos/.config/pdftex-figures/roots" in
  Fswatch.roots
    (Fswatch.handle_line (daemon (add_root (Str_ "/new") figs_world).2) 1 reported
       Fswatch.initial) = ["/figs"; "/home/user"; "/new"; "/srv"] ∧
  "/new" ∈ Fswatch.roots
             (Fswatch.handle_line (daemon (add_root (Str_ "/new") figs_world).2) 1 reported
                Fswatch.initial) ∧
  "/home/user" ∉ Fswatch.roots
                   (Fswatch.handle_line (daemon (add_root (Str_ "/home/user") figs_world).2)
                      1 reported Fswatch.initial).
Proof.
  intros daemon reported. split; [reflexivity|]. split.
  - apply (rebuild_picks_up_new_root no_config
             (daemon (add_root (Str_ "/new") figs_world).2) 1%Q reported ""
             Fswatch.initial Inotify.initial figs_world (Str_ "/new")).
    + vm_compute; done.
    + vm_compute; done.
    + reflexivity.
    + reflexivity.
    + left. discriminate.
  - apply (rebuild_picks_up_new_root no_config
             (daemon (add_root (Str_ "/home/user") figs_world).2) 1%Q reported ""
             Fswatch.initial Inotify.initial figs_world (Str_ "/home/user")).
    + vm_compute; done.
    + vm_compute; done.
    + reflexivity.
    + reflexivity.
    + reflexivity.
    + intros H. apply list_elem_of_In in H. vm_compute in H.
      repeat (destruct H as [H|H]; [discriminate H|]). destruct H.
    + discriminate.
Defined.
